(** * smashtest: the RunInstance execution engine (runinstance.js, branch.js)

    A shallow embedding of the per-thread test execution state machine:
    the three variable namespaces, the local-scope stack, variable
    resolution by forward lookup, hook and step execution, and the
    rewriting of error locations.

    Conventions.
    - A JS object used as a dictionary ([this.global], [this.local], ...)
      is a [gmap string Value]; reading an absent key gives [VUndefined].
      Names of variables are assumed not to collide with the properties
      every JS object inherits from [Object.prototype].
    - A JS array is a list in index order: [push] appends at the end and
      [pop] removes the last element.
    - Steps and branches are mutable objects shared between
      [branch.steps], [stepsRan] and [currStep]; their writable fields
      live in a store indexed by object identity ([sid], [bid]).
    - Thrown values are Error objects; an exception is the [inl] side of
      a result. Numbers are integers.
    - Timestamps and console output are write-only and are left out. *)

From Stdlib Require Import ZArith NArith Ascii String List Bool Lia.
From stdpp Require Import base option list strings pretty gmap.

Local Open Scope string_scope.
Local Open Scope list_scope.

(** ** JS values *)

Inductive Value : Type :=
| VUndefined
| VNull
| VBool (b : bool)
| VNum (n : Z)
| VStr (s : string)
| VObj (ref : nat).

(** JS truthiness ([if(value)]). *)
Definition truthy (v : Value) : bool :=
  match v with
  | VUndefined | VNull => false
  | VBool b => b
  | VNum n => negb (n =? 0)%Z
  | VStr s => negb (String.eqb s EmptyString)
  | VObj _ => true
  end.

(** [['string', 'boolean', 'number'].indexOf(typeof value) != -1] *)
Definition isScalar (v : Value) : bool :=
  match v with
  | VBool _ | VNum _ | VStr _ => true
  | _ => false
  end.

(** A dictionary object. *)
Abbreviation Frame := (gmap string Value).

(** [obj[key]] *)
Definition prop (o : Frame) (key : string) : Value :=
  default VUndefined (o !! key).

(** [Object.assign(target, source)]: own properties of [source] win. *)
Definition Object_assign (target source : Frame) : Frame := source ∪ target.

(** ** Errors *)

Record ErrorObj : Type := mkErrorObj {
  e_name : string;
  e_message : string;
  e_stack : string;
  e_filename : option string;
  e_lineNumber : option N;
  e_continue : bool;
  e_msg : option string;
  e_stackTrace : option string
}.

(** [new Error(message)]; the stack text is produced by the JS engine. *)
Definition newError (name message : string) : ErrorObj :=
  {| e_name := name; e_message := message;
     e_stack := name +:+ ": " +:+ message;
     e_filename := None; e_lineNumber := None; e_continue := false;
     e_msg := None; e_stackTrace := None |}.

(** [utils.error(msg)] throws a plain [Error]. *)
Definition utils_error (message : string) : ErrorObj := newError "Error" message.

Definition TypeError (message : string) : ErrorObj := newError "TypeError" message.

Definition RangeError_stack : ErrorObj :=
  newError "RangeError" "Maximum call stack size exceeded".

Definition set_e_location (fn : option string) (ln : option N) (e : ErrorObj) : ErrorObj :=
  {| e_name := e_name e; e_message := e_message e; e_stack := e_stack e;
     e_filename := fn; e_lineNumber := ln; e_continue := e_continue e;
     e_msg := e_msg e; e_stackTrace := e_stackTrace e |}.

Definition set_e_lineNumber (ln : option N) (e : ErrorObj) : ErrorObj :=
  set_e_location (e_filename e) ln e.

(** [error.msg = error.message.toString(); error.stackTrace = error.stack.toString()] *)
Definition set_e_report (e : ErrorObj) : ErrorObj :=
  {| e_name := e_name e; e_message := e_message e; e_stack := e_stack e;
     e_filename := e_filename e; e_lineNumber := e_lineNumber e;
     e_continue := e_continue e;
     e_msg := Some (e_message e); e_stackTrace := Some (e_stack e) |}.

(** The result of a call that may throw. *)
Abbreviation Res A := (ErrorObj + A)%type.

(** ** Steps *)

Record VarBeingSet : Type := mkVar {
  vname : string;
  vvalue : string;
  visLocal : bool
}.

(** The read-only part of a Step, as the tree hands it over. [declaration]
    stands for [originalStepInTree.functionDeclarationInTree] (its
    filename and lineNumber). *)
Record Step : Type := mkStep {
  sid : nat;
  filename : option string;
  lineNumber : N;
  text : string;
  branchIndents : nat;
  isFunctionCall : bool;
  isHook : bool;
  isPackaged : bool;
  isBeforeDebug : bool;
  isAfterDebug : bool;
  isExpectedFail : bool;
  codeBlock : option string;
  functionDeclarationText : string;
  varsBeingSet : list VarBeingSet;
  declaration : option string * N
}.

(** Modelled from the spec: [Step.hasCodeBlock] is in step.js; the spec
    gives [codeBlock] as an optional string. *)
Definition hasCodeBlock (s : Step) : bool :=
  match codeBlock s with Some _ => true | None => false end.

Inductive LogItem : Type :=
| LogText (t : string).

(** The writable fields of a Step. A deleted or absent flag reads as
    [false]; [asExpected] distinguishes [false] from absent. *)
Record StepState : Type := mkStepState {
  isPassed : bool;
  isFailed : bool;
  isSkipped : bool;
  isRunning : bool;
  asExpected : option bool;
  error : option ErrorObj;
  log : option (list LogItem)
}.

Definition freshStep : StepState :=
  {| isPassed := false; isFailed := false; isSkipped := false;
     isRunning := false; asExpected := None; error := None; log := None |}.

(** ** Branches (branch.js) *)

Module Branch.

Record t : Type := mk {
  bid : nat;
  steps : list Step;
  beforeEveryBranch : option (list Step);
  afterEveryBranch : option (list Step);
  beforeEveryStep : option (list Step);
  afterEveryStep : option (list Step);
  passedLastTime : bool
}.

Record State : Type := mkState {
  isPassed : bool;
  isFailed : bool;
  isSkipped : bool;
  isRunning : bool;
  error : option ErrorObj;
  log : option (list LogItem)
}.

Definition fresh : State :=
  {| isPassed := false; isFailed := false; isSkipped := false;
     isRunning := false; error := None; log := None |}.

(** [new Branch()] holding one step *)
Definition temp (s : Step) : t :=
  {| bid := 0; steps := [s]; beforeEveryBranch := None;
     afterEveryBranch := None; beforeEveryStep := None;
     afterEveryStep := None; passedLastTime := false |}.

Definition isComplete (b : t) (st : State) : bool :=
  isPassed st || isFailed st || isSkipped st || passedLastTime b.

(** [markBranch(isPassed, error)] *)
Definition markBranch (passed : bool) (err : option ErrorObj) (st : State) : State :=
  {| isPassed := passed;
     isFailed := negb passed;
     isSkipped := false;
     isRunning := false;
     error := match err with
              | Some e => Some (set_e_report e)
              | None => error st
              end;
     log := log st |}.

(** [appendToLog(item)] with a string item *)
Definition appendToLog (item : string) (st : State) : State :=
  {| isPassed := isPassed st; isFailed := isFailed st;
     isSkipped := isSkipped st; isRunning := isRunning st;
     error := error st;
     log := Some (default [] (log st) ++ [LogText item]) |}.

End Branch.

(** ** The tree (tree.js), seen through the calls the engine makes *)

Inductive TreeCall : Type :=
| MarkStep (step : nat) (branch : option nat) (isPassed asExpected : bool)
    (error : option ErrorObj) (finishBranchNow continueOnFail : option bool)
| MarkStepSkipped (step : nat) (branch : option nat).

(** ** RunInstance

    [persistent] is the object shared with the runner
    ([this.persistent = this.runner.persistent]); [globalInit] and
    [pauseOnFail] are the runner's; [isPaused] is mirrored to the runner by
    [setPause] and kept once. [stepStore] and [branchStore] hold the
    writable fields of the step and branch objects; [treeCalls] records
    the calls made to the tree, oldest first. *)

Record RunInstance : Type := mkRunInstance {
  persistent : Frame;
  globalInit : Frame;
  pauseOnFail : bool;
  currBranch : option Branch.t;
  currStep : option Step;
  isPaused : bool;
  isStopped : bool;
  global : Frame;
  local : option Frame;
  localStack : list (option Frame);
  localsPassedIntoFunc : Frame;
  stepsRan : list Step;
  stepStore : gmap nat StepState;
  branchStore : gmap nat Branch.State;
  treeCalls : list TreeCall
}.

Definition set_persistent (x : Frame) (r : RunInstance) : RunInstance :=
  {| persistent := x; globalInit := globalInit r;
     pauseOnFail := pauseOnFail r; currBranch := currBranch r;
     currStep := currStep r; isPaused := isPaused r;
     isStopped := isStopped r; global := global r; local := local r;
     localStack := localStack r;
     localsPassedIntoFunc := localsPassedIntoFunc r; stepsRan := stepsRan r;
     stepStore := stepStore r; branchStore := branchStore r;
     treeCalls := treeCalls r |}.

Definition set_currBranch (x : option Branch.t) (r : RunInstance) : RunInstance :=
  {| persistent := persistent r; globalInit := globalInit r;
     pauseOnFail := pauseOnFail r; currBranch := x; currStep := currStep r;
     isPaused := isPaused r; isStopped := isStopped r; global := global r;
     local := local r; localStack := localStack r;
     localsPassedIntoFunc := localsPassedIntoFunc r; stepsRan := stepsRan r;
     stepStore := stepStore r; branchStore := branchStore r;
     treeCalls := treeCalls r |}.

Definition set_currStep (x : option Step) (r : RunInstance) : RunInstance :=
  {| persistent := persistent r; globalInit := globalInit r;
     pauseOnFail := pauseOnFail r; currBranch := currBranch r; currStep := x;
     isPaused := isPaused r; isStopped := isStopped r; global := global r;
     local := local r; localStack := localStack r;
     localsPassedIntoFunc := localsPassedIntoFunc r; stepsRan := stepsRan r;
     stepStore := stepStore r; branchStore := branchStore r;
     treeCalls := treeCalls r |}.

Definition set_isPaused (x : bool) (r : RunInstance) : RunInstance :=
  {| persistent := persistent r; globalInit := globalInit r;
     pauseOnFail := pauseOnFail r; currBranch := currBranch r;
     currStep := currStep r; isPaused := x; isStopped := isStopped r;
     global := global r; local := local r; localStack := localStack r;
     localsPassedIntoFunc := localsPassedIntoFunc r; stepsRan := stepsRan r;
     stepStore := stepStore r; branchStore := branchStore r;
     treeCalls := treeCalls r |}.

Definition set_isStopped (x : bool) (r : RunInstance) : RunInstance :=
  {| persistent := persistent r; globalInit := globalInit r;
     pauseOnFail := pauseOnFail r; currBranch := currBranch r;
     currStep := currStep r; isPaused := isPaused r; isStopped := x;
     global := global r; local := local r; localStack := localStack r;
     localsPassedIntoFunc := localsPassedIntoFunc r; stepsRan := stepsRan r;
     stepStore := stepStore r; branchStore := branchStore r;
     treeCalls := treeCalls r |}.

Definition set_global (x : Frame) (r : RunInstance) : RunInstance :=
  {| persistent := persistent r; globalInit := globalInit r;
     pauseOnFail := pauseOnFail r; currBranch := currBranch r;
     currStep := currStep r; isPaused := isPaused r;
     isStopped := isStopped r; global := x; local := local r;
     localStack := localStack r;
     localsPassedIntoFunc := localsPassedIntoFunc r; stepsRan := stepsRan r;
     stepStore := stepStore r; branchStore := branchStore r;
     treeCalls := treeCalls r |}.

Definition set_local (x : option Frame) (r : RunInstance) : RunInstance :=
  {| persistent := persistent r; globalInit := globalInit r;
     pauseOnFail := pauseOnFail r; currBranch := currBranch r;
     currStep := currStep r; isPaused := isPaused r;
     isStopped := isStopped r; global := global r; local := x;
     localStack := localStack r;
     localsPassedIntoFunc := localsPassedIntoFunc r; stepsRan := stepsRan r;
     stepStore := stepStore r; branchStore := branchStore r;
     treeCalls := treeCalls r |}.

Definition set_localStack (x : list (option Frame)) (r : RunInstance) : RunInstance :=
  {| persistent := persistent r; globalInit := globalInit r;
     pauseOnFail := pauseOnFail r; currBranch := currBranch r;
     currStep := currStep r; isPaused := isPaused r;
     isStopped := isStopped r; global := global r; local := local r;
     localStack := x; localsPassedIntoFunc := localsPassedIntoFunc r;
     stepsRan := stepsRan r; stepStore := stepStore r;
     branchStore := branchStore r; treeCalls := treeCalls r |}.

Definition set_localsPassedIntoFunc (x : Frame) (r : RunInstance) : RunInstance :=
  {| persistent := persistent r; globalInit := globalInit r;
     pauseOnFail := pauseOnFail r; currBranch := currBranch r;
     currStep := currStep r; isPaused := isPaused r;
     isStopped := isStopped r; global := global r; local := local r;
     localStack := localStack r; localsPassedIntoFunc := x;
     stepsRan := stepsRan r; stepStore := stepStore r;
     branchStore := branchStore r; treeCalls := treeCalls r |}.

Definition set_stepsRan (x : list Step) (r : RunInstance) : RunInstance :=
  {| persistent := persistent r; globalInit := globalInit r;
     pauseOnFail := pauseOnFail r; currBranch := currBranch r;
     currStep := currStep r; isPaused := isPaused r;
     isStopped := isStopped r; global := global r; local := local r;
     localStack := localStack r;
     localsPassedIntoFunc := localsPassedIntoFunc r; stepsRan := x;
     stepStore := stepStore r; branchStore := branchStore r;
     treeCalls := treeCalls r |}.

Definition set_stepStore (x : gmap nat StepState) (r : RunInstance) : RunInstance :=
  {| persistent := persistent r; globalInit := globalInit r;
     pauseOnFail := pauseOnFail r; currBranch := currBranch r;
     currStep := currStep r; isPaused := isPaused r;
     isStopped := isStopped r; global := global r; local := local r;
     localStack := localStack r;
     localsPassedIntoFunc := localsPassedIntoFunc r; stepsRan := stepsRan r;
     stepStore := x; branchStore := branchStore r;
     treeCalls := treeCalls r |}.

Definition set_branchStore (x : gmap nat Branch.State) (r : RunInstance) : RunInstance :=
  {| persistent := persistent r; globalInit := globalInit r;
     pauseOnFail := pauseOnFail r; currBranch := currBranch r;
     currStep := currStep r; isPaused := isPaused r;
     isStopped := isStopped r; global := global r; local := local r;
     localStack := localStack r;
     localsPassedIntoFunc := localsPassedIntoFunc r; stepsRan := stepsRan r;
     stepStore := stepStore r; branchStore := x; treeCalls := treeCalls r |}.

Definition set_treeCalls (x : list TreeCall) (r : RunInstance) : RunInstance :=
  {| persistent := persistent r; globalInit := globalInit r;
     pauseOnFail := pauseOnFail r; currBranch := currBranch r;
     currStep := currStep r; isPaused := isPaused r;
     isStopped := isStopped r; global := global r; local := local r;
     localStack := localStack r;
     localsPassedIntoFunc := localsPassedIntoFunc r; stepsRan := stepsRan r;
     stepStore := stepStore r; branchStore := branchStore r;
     treeCalls := x |}.

(** [new RunInstance(runner)] *)
Definition newRunInstance (runnerPersistent runnerGlobalInit : Frame)
    (runnerPauseOnFail : bool) : RunInstance :=
  {| persistent := runnerPersistent; globalInit := runnerGlobalInit;
     pauseOnFail := runnerPauseOnFail; currBranch := None; currStep := None;
     isPaused := false; isStopped := false; global := ∅; local := Some ∅;
     localStack := []; localsPassedIntoFunc := ∅; stepsRan := [];
     stepStore := ∅; branchStore := ∅; treeCalls := [] |}.

(** The writable fields of a step or branch object; an object never
    written yet has none of them. *)
Definition stepState (r : RunInstance) (s : nat) : StepState :=
  default freshStep (stepStore r !! s).

Definition branchState (r : RunInstance) (b : nat) : Branch.State :=
  default Branch.fresh (branchStore r !! b).

Definition updStep (s : nat) (f : StepState -> StepState) (r : RunInstance) : RunInstance :=
  set_stepStore (<[s := f (stepState r s)]> (stepStore r)) r.

Definition updBranch (b : nat) (f : Branch.State -> Branch.State) (r : RunInstance) : RunInstance :=
  set_branchStore (<[b := f (branchState r b)]> (branchStore r)) r.

(** ** Strings and the two regular expressions of fillErrorFromStep *)

Definition isDigit (c : ascii) : bool :=
  (48 <=? nat_of_ascii c)%nat && (nat_of_ascii c <=? 57)%nat.

Definition dquote : ascii := "034"%char.

Definition isNewline (c : ascii) : bool := Ascii.eqb c "010"%char.

(** [s.startsWith(p)], returning what follows the prefix *)
Fixpoint stripPrefix (p s : string) : option string :=
  match p, s with
  | EmptyString, _ => Some s
  | String a p', String b s' => if Ascii.eqb a b then stripPrefix p' s' else None
  | String _ _, EmptyString => None
  end.

Definition startsWith (p s : string) : bool :=
  match stripPrefix p s with Some _ => true | None => false end.

(** The longest run of digits at the front of [s] ([[0-9]*], greedy),
    and the rest. *)
Fixpoint spanDigits (s : string) : string * string :=
  match s with
  | String c t =>
      if isDigit c then let (d, rest) := spanDigits t in (String c d, rest)
      else (EmptyString, s)
  | EmptyString => (EmptyString, EmptyString)
  end.

Fixpoint allDigits (s : string) : bool :=
  match s with
  | String c t => isDigit c && allDigits t
  | EmptyString => true
  end.

(** [<anonymous>:[0-9]+] at the front of [s]: the digits and the rest. *)
Definition anonymousHere (s : string) : option (string * string) :=
  match stripPrefix "<anonymous>:" s with
  | Some r =>
      match spanDigits r with
      | (EmptyString, _) => None
      | (d, rest) => Some (d, rest)
      end
  | None => None
  end.

(** [[^\n]*<anonymous>:[0-9]+] at the front of [s], the way a backtracking
    matcher finds it: [[^\n]*] takes the whole line and gives characters
    back one at a time, so the last [<anonymous>:N] of the line wins.
    Returns what [[^\n]*] took, the digits and the rest. *)
Fixpoint lineThenAnonymous (s : string) : option (string * string * string) :=
  match s with
  | String c t =>
      let here :=
        match anonymousHere s with
        | Some (d, rest) => Some (EmptyString, d, rest)
        | None => None
        end in
      if isNewline c then here
      else
        match lineThenAnonymous t with
        | Some (body, d, rest) => Some (String c body, d, rest)
        | None => here
        end
  | EmptyString => None
  end.

(** [/at CodeBlock[^\n]+<anonymous>:[0-9]+/] anchored at the front of [s]:
    the matched text. *)
Definition codeBlockFrameHere (s : string) : option string :=
  match stripPrefix "at CodeBlock" s with
  | Some (String c t) =>
      if isNewline c then None
      else
        match lineThenAnonymous t with
        | Some (body, d, _) =>
            Some ("at CodeBlock" +:+ String c body +:+ "<anonymous>:" +:+ d)
        | None => None
        end
  | _ => None
  end.

(** [stack.match(/at CodeBlock[^\n]+<anonymous>:[0-9]+/g)]: every match,
    left to right, the search resuming where the previous match ended
    ([skip] characters of it are still to be passed). [[]] stands for
    [null]. *)
Fixpoint matchCodeBlockFrames (skip : nat) (s : string) : list string :=
  match s with
  | String _ t =>
      match skip with
      | S k => matchCodeBlockFrames k t
      | O =>
          match codeBlockFrameHere s with
          | Some m => m :: matchCodeBlockFrames (String.length m - 1) t
          | None => matchCodeBlockFrames 0 t
          end
      end
  | EmptyString => []
  end.

Definition codeBlockFrames (stack : string) : list string :=
  matchCodeBlockFrames 0 stack.

(** [m.match(/([0-9]+)$/g)]: the digits [m] ends with, if any. *)
Fixpoint trailingDigits (m : string) : option string :=
  match m with
  | String c t =>
      if allDigits m then Some m else trailingDigits t
  | EmptyString => None
  end.

(** [parseInt] of a string of digits (exact; JS rounds past 2^53). *)
Definition digitValue (c : ascii) : N := N.of_nat (nat_of_ascii c - 48).

Fixpoint parseDigits (acc : N) (s : string) : N :=
  match s with
  | String c t => parseDigits (10 * acc + digitValue c) t
  | EmptyString => acc
  end.

Definition parseInt (s : string) : N := parseDigits 0 s.

(** The line number a matched frame carries. *)
Definition frameLine (m : string) : option N :=
  match trailingDigits m with
  | Some d => Some (parseInt d)
  | None => None
  end.

Fixpoint noNewline (s : string) : bool :=
  match s with
  | String c t => negb (isNewline c) && noNewline t
  | EmptyString => true
  end.

(** [m] is a piece of text of the form [at CodeBlock...<anonymous>:N] on
    one line, [d] being the digits of N. *)
Definition isCodeBlockFrame (m d : string) : Prop :=
  exists body,
    m = "at CodeBlock" +:+ body +:+ "<anonymous>:" +:+ d
    /\ body <> EmptyString /\ noNewline body = true
    /\ d <> EmptyString /\ allDigits d = true.

(** ** fillErrorFromStep *)

Definition fillErrorFromStep (e : ErrorObj) (step : Step) (inCodeBlock : bool) : ErrorObj :=
  let e := set_e_location (filename step) (Some (lineNumber step)) e in
  let e :=
    if isFunctionCall step && inCodeBlock && negb (isHook step) && negb (isPackaged step)
    then set_e_location (fst (declaration step)) (Some (snd (declaration step))) e
    else e in
  if inCodeBlock && negb (isPackaged step) then
    match codeBlockFrames (e_stack e) with
    | m :: _ =>
        match trailingDigits m with
        | Some d => set_e_lineNumber (Some (parseInt d)) e
        | None => e
        end
    | [] => e
    end
  else e.

(** The line fillErrorFromStep falls back on when the stack names no
    code block frame: the declaration's for a function call failing in its
    code block (hooks and packaged steps apart), the step's otherwise. *)
Definition baseLine (step : Step) (inCodeBlock : bool) : N :=
  if isFunctionCall step && inCodeBlock && negb (isHook step) && negb (isPackaged step)
  then snd (declaration step)
  else lineNumber step.

Definition baseFile (step : Step) (inCodeBlock : bool) : option string :=
  if isFunctionCall step && inCodeBlock && negb (isHook step) && negb (isPackaged step)
  then fst (declaration step)
  else filename step.

(** [getLineNumberOffset(step)] *)
Definition getLineNumberOffset (step : Step) : N :=
  if isFunctionCall step && negb (isHook step) then snd (declaration step)
  else lineNumber step.

(** ** External collaborators

    utils.js and constants.js are not part of the engine; their string
    functions and regular expressions are taken as parameters. *)

Class Utils : Type := {
  (** trim, collapse whitespace, lower-case *)
  canonicalize : string -> string;
  (** the same, keeping the case *)
  keepCaseCanonicalize : string -> string;
  stripQuotes : string -> string;
  stripBrackets : string -> string;
  unescape : string -> string
}.

Class Constants : Type := {
  (** [text.match(Constants.VAR)], [[]] standing for [null] *)
  VAR : string -> list string;
  (** [text.match(Constants.FUNCTION_INPUT)] *)
  FUNCTION_INPUT : string -> list string;
  (** [value.match(Constants.STRING_LITERAL_WHOLE)] is not null *)
  STRING_LITERAL_WHOLE : string -> bool;
  (** [value.match(Constants.VAR_WHOLE)] is not null *)
  VAR_WHOLE : string -> bool
}.

(** Where a code block's [log(text)] goes: a step or a branch object. *)
Inductive LogTarget : Type :=
| ToStep (s : nat)
| ToBranch (b : nat).

(** What [evalCodeBlock] hands to the JS engine. The wrapper text it
    builds (padding, [CodeBlock_for_...] name, variable header) is a
    function of these and of the instance. *)
Record EvalRequest : Type := mkEval {
  code : option string;
  funcName : string;
  lineNo : N;
  logHere : option LogTarget;
  isSync : bool
}.

(** The JS engine: running a code block may change the instance in any
    way and returns a value or throws; [replace] is
    [String.prototype.replace(match, value)]. *)
Class JsEngine : Type := {
  eval : EvalRequest -> RunInstance -> RunInstance * Res Value;
  replace : string -> string -> Value -> string
}.

(** The tree's cursor operations (tree.js): [tree.nextBranch()] and
    [tree.nextStep(branch, advance, markSkippedOnFinish)]. *)
Class Tree : Type := {
  nextBranch : RunInstance -> RunInstance * option Branch.t;
  nextStep : option Branch.t -> bool -> bool -> RunInstance -> RunInstance * option Step
}.

Section Engine.

Context {U : Utils} {K : Constants} {J : JsEngine} {T : Tree}.

(** ** ValueStore *)

Definition getPersistent (varname : string) (r : RunInstance) : Value :=
  prop (persistent r) (canonicalize varname).

Definition getGlobal (varname : string) (r : RunInstance) : Value :=
  prop (global r) (canonicalize varname).

Definition getLocal (varname : string) (r : RunInstance) : Res Value :=
  let varname := canonicalize varname in
  match localsPassedIntoFunc r !! varname with
  | Some v => inr v
  | None =>
      match local r with
      | Some l => inr (prop l varname)
      | None => inl (TypeError "Cannot read properties of undefined")
      end
  end.

Definition setPersistent (varname : string) (value : Value) (r : RunInstance) : RunInstance :=
  set_persistent
    (<[keepCaseCanonicalize varname := value]>
       (<[canonicalize varname := value]> (persistent r))) r.

Definition setGlobal (varname : string) (value : Value) (r : RunInstance) : RunInstance :=
  set_global
    (<[keepCaseCanonicalize varname := value]>
       (<[canonicalize varname := value]> (global r))) r.

Definition setLocal (varname : string) (value : Value) (r : RunInstance) : Res RunInstance :=
  match local r with
  | Some l =>
      inr (set_local
             (Some (<[keepCaseCanonicalize varname := value]>
                      (<[canonicalize varname := value]> l))) r)
  | None => inl (TypeError "Cannot set properties of undefined")
  end.

Definition setLocalPassedIn (varname : string) (value : Value) (r : RunInstance) : RunInstance :=
  set_localsPassedIntoFunc
    (<[keepCaseCanonicalize varname := value]>
       (<[canonicalize varname := value]> (localsPassedIntoFunc r))) r.

(** [setVarBeingSet(varBeingSet, value)] *)
Definition setVarBeingSet (v : VarBeingSet) (value : Value) (r : RunInstance) : Res RunInstance :=
  if visLocal v then setLocal (vname v) value r
  else inr (setGlobal (vname v) value r).

(** ** LocalStack *)

Definition pushLocalStack (r : RunInstance) : RunInstance :=
  let r := set_localStack (localStack r ++ [local r]) r in
  let r := set_local (Some ∅) r in
  let r := set_local (Some (Object_assign (default ∅ (local r)) (localsPassedIntoFunc r))) r in
  set_localsPassedIntoFunc ∅ r.

(** [this.local = this.localStack.pop()]; popping an empty array gives
    [undefined]. *)
Definition popLocalStack (r : RunInstance) : RunInstance :=
  let top := match last (localStack r) with Some l => l | None => None end in
  set_local top (set_localStack (removelast (localStack r)) r).

(** ** Start of a branch (run, "reset variable state") *)

Definition resetVariableState (r : RunInstance) : RunInstance :=
  let r := set_global ∅ r in
  let r := set_global (Object_assign (global r) (globalInit r)) r in
  let r := set_local (Some ∅) r in
  set_localStack [] r.

(** ** Logging and stopping *)

(** Modelled from the spec: [Step.appendToLog] is in step.js; a step has
    a [log] like a branch, and its method is taken to be the branch's. *)
Definition Step_appendToLog (item : string) (st : StepState) : StepState :=
  {| isPassed := isPassed st; isFailed := isFailed st;
     isSkipped := isSkipped st; isRunning := isRunning st;
     asExpected := asExpected st; error := error st;
     log := Some (default [] (log st) ++ [LogText item]) |}.

Definition appendToLog (text : string) (logHere : option LogTarget) (r : RunInstance) : RunInstance :=
  match logHere with
  | Some target =>
      if negb (isStopped r) then
        match target with
        | ToStep s => updStep s (Step_appendToLog text) r
        | ToBranch b => updBranch b (Branch.appendToLog text) r
        end
      else r
  | None => r
  end.

(** [Branch.stop()]: [delete step.isRunning] for every step *)
Definition clearRunning (st : StepState) : StepState :=
  {| isPassed := isPassed st; isFailed := isFailed st;
     isSkipped := isSkipped st; isRunning := false;
     asExpected := asExpected st; error := error st; log := log st |}.

Definition Branch_stop (b : Branch.t) (r : RunInstance) : RunInstance :=
  fold_left (fun r s => updStep (sid s) clearRunning r) (Branch.steps b) r.

Definition stop (r : RunInstance) : RunInstance :=
  let r := set_isStopped true r in
  match currBranch r with
  | Some b => Branch_stop b r
  | None => r
  end.

(** [s] is the identity of one of the steps of the current branch. *)
Definition inCurrBranch (s : nat) (r : RunInstance) : bool :=
  match currBranch r with
  | Some b => existsb (fun step => Nat.eqb (sid step) s) (Branch.steps b)
  | None => false
  end.

(** A run of calls of appendToLog, all with the same target. *)
Definition appendAll (texts : list string) (logHere : option LogTarget) (r : RunInstance)
    : RunInstance :=
  fold_left (fun r text => appendToLog text logHere r) texts r.

(** [setPause(isPaused)] *)
Definition setPause (p : bool) (r : RunInstance) : RunInstance := set_isPaused p r.

(** [getLogValue(value)] inside a template literal *)
Definition toString (v : Value) : string :=
  match v with
  | VUndefined => "undefined"
  | VNull => "null"
  | VBool true => "true"
  | VBool false => "false"
  | VNum n => pretty n
  | VStr s => s
  | VObj _ => "[object Object]"
  end.

Definition getLogValue (v : Value) : string :=
  match v with
  | VStr s => String dquote s +:+ String dquote EmptyString
  | _ => toString v
  end.

(** ** ExprEvaluator *)

Definition evalCodeBlock (code : option string) (funcName : string) (lineNumber : N)
    (logHere : option LogTarget) (isSync : bool) (r : RunInstance)
    : RunInstance * Res Value :=
  eval {| code := code; funcName := funcName; lineNo := lineNumber;
          logHere := logHere; isSync := isSync |} r.

(** ** VarResolver *)

(** [branch.steps.indexOf(step)], by object identity; [None] for -1 *)
Fixpoint indexOf (step : Step) (l : list Step) : option nat :=
  match l with
  | s :: l' =>
      if Nat.eqb (sid s) (sid step) then Some 0%nat
      else option_map S (indexOf step l')
  | [] => None
  end.

Definition variableFull (varname : string) (isLocal : bool) : string :=
  if isLocal then "{{" +:+ varname +:+ "}}" else "{" +:+ varname +:+ "}".

(** The inner loop of findVarValue: the first entry of [s.varsBeingSet]
    that sets the variable. *)
Definition settingOf (varname : string) (isLocal : bool) (vs : list VarBeingSet)
    : option VarBeingSet :=
  find (fun v => String.eqb (canonicalize (vname v)) (canonicalize varname)
                 && Bool.eqb (visLocal v) isLocal) vs.

(** The outer loop of findVarValue over [branch.steps[index..]]: the first
    step that sets the variable, unless the loop breaks first. *)
Fixpoint laterSetter (varname : string) (isLocal : bool) (step : Step)
    (rest : list Step) : option (Step * VarBeingSet) :=
  match rest with
  | s :: rest' =>
      if isLocal && (branchIndents s <? branchIndents step)%nat then None
      else
        match settingOf varname isLocal (varsBeingSet s) with
        | Some v => Some (s, v)
        | None => laterSetter varname isLocal step rest'
        end
  | [] => None
  end.

Definition VarNotSet (varname : string) (isLocal : bool) : ErrorObj :=
  utils_error ("The variable " +:+ variableFull varname isLocal
               +:+ " is never set, but is needed for this step").

Definition InfiniteVarLoop : ErrorObj :=
  utils_error "Infinite loop detected amongst variable references".

Definition VarTypeError (match_ : string) : ErrorObj :=
  utils_error ("The variable " +:+ match_ +:+ " must be set to a string").

Definition isCallStackExceeded (e : ErrorObj) : bool :=
  String.eqb (e_name e) "RangeError"
  && String.eqb (e_message e) "Maximum call stack size exceeded".

(** The loop of replaceVars over the matches of [Constants.VAR], with
    findVarValue (at the step and branch of the call) as [find]. *)
Fixpoint replaceMatches (find : string -> bool -> RunInstance -> RunInstance * Res Value)
    (matches : list string) (text : string) (r : RunInstance)
    : RunInstance * Res string :=
  match matches with
  | match_ :: matches' =>
      let name := stripBrackets match_ in
      let isLocal := startsWith "{{" match_ in
      match find name isLocal r with
      | (r, inl e) =>
          if isCallStackExceeded e then (r, inl InfiniteVarLoop)
          else (r, inl e)
      | (r, inr value) =>
          if isScalar value
          then replaceMatches find matches' (replace text match_ value) r
          else (r, inl (VarTypeError match_))
      end
  | [] => (r, inr text)
  end.

(** [filename + ":" + lineNumber] *)
Definition location (s : Step) : string :=
  default "undefined" (filename s) +:+ ":" +:+ pretty (lineNumber s).

(** [findVarValue(varname, isLocal, step, branch)]. [depth] is the room
    left on the JS call stack, counted in nested resolutions: when it
    runs out the engine throws its RangeError. *)
Fixpoint findVarValue (depth : nat) (varname : string) (isLocal : bool)
    (step : Step) (branch : option Branch.t) (r : RunInstance)
    : RunInstance * Res Value :=
  match (if isLocal then getLocal varname r else inr (getGlobal varname r)) with
  | inl e => (r, inl e)
  | inr value =>
      if truthy value then (r, inr value)
      else
        let branch := match branch with Some b => b | None => Branch.temp step end in
        match indexOf step (Branch.steps branch) with
        | None => (r, inl (TypeError "Cannot read properties of undefined"))
        | Some index =>
            match laterSetter varname isLocal step (drop index (Branch.steps branch)) with
            | Some (s, varBeingSet) =>
                let '(r, value) :=
                  if hasCodeBlock s
                  then evalCodeBlock (codeBlock s) (text s) (lineNumber s)
                                     (Some (ToStep (sid s))) true r
                  else (r, inr (VStr (unescape (stripQuotes (vvalue varBeingSet))))) in
                match value with
                | inl e => (r, inl e)
                | inr value =>
                    let '(r, value) :=
                      match value with
                      | VStr text =>
                          match depth with
                          | S depth' =>
                              match replaceMatches
                                      (fun n l => findVarValue depth' n l step (Some branch))
                                      (VAR text) text r with
                              | (r, inl e) => (r, inl e)
                              | (r, inr text) => (r, inr (VStr text))
                              end
                          | O => (r, inl RangeError_stack)
                          end
                      | VBool _ | VNum _ => (r, inl (TypeError "text.match is not a function"))
                      | _ => (r, inr value)
                      end in
                    match value with
                    | inl e => (r, inl e)
                    | inr value =>
                        (appendToLog ("The value of variable " +:+ variableFull varname isLocal
                                      +:+ " is being set by a later step at " +:+ location s)
                                     (Some (ToStep (sid step))) r,
                         inr value)
                    end
                end
            | None => (r, inl (VarNotSet varname isLocal))
            end
        end
  end.

(** The value findVarValue reads first: [getLocal] or [getGlobal]
    as [isLocal] says. *)
Definition assignedValue (varname : string) (isLocal : bool) (r : RunInstance) : Res Value :=
  if isLocal then getLocal varname r else inr (getGlobal varname r).

(** [text] after each of [matches] was replaced, in turn, by the value
    at the same place of [values]. *)
Definition substituted (text : string) (matches : list string) (values : list Value)
    : string :=
  fold_left (fun t mv => replace t (fst mv) (snd mv)) (zip matches values) text.

(** What findVarValue logs when a later step gives the value. *)
Definition setLaterMessage (varname : string) (isLocal : bool) (s : Step) : string :=
  "The value of variable " +:+ variableFull varname isLocal
  +:+ " is being set by a later step at " +:+ location s.

(** The variables of [matches] are all assigned, to truthy values that
    are strings, numbers or booleans. *)
Definition allAssigned (matches : list string) (values : list Value) (r : RunInstance) : Prop :=
  Forall2 (fun m v => assignedValue (stripBrackets m) (startsWith "{{" m) r = inr v
                      /\ truthy v = true /\ isScalar v = true) matches values.

(** [replaceVars(text, step, branch)] *)
Definition replaceVars (depth : nat) (text : string) (step : Step)
    (branch : option Branch.t) (r : RunInstance) : RunInstance * Res string :=
  replaceMatches (fun n l => findVarValue depth n l step branch) (VAR text) text r.

(** ** Marking *)

(** [Branch.finishOffBranch()] *)
Definition Branch_finishOffBranch (b : Branch.t) (r : RunInstance) : RunInstance :=
  let badStepExists :=
    existsb (fun step =>
               match asExpected (stepState r (sid step)) with
               | Some false => true
               | _ => false
               end) (Branch.steps b) in
  updBranch (Branch.bid b) (Branch.markBranch (negb badStepExists) None) r.

(** Modelled from the spec: [Tree.markStep] is in tree.js. It marks the
    step passed or failed and expected or unexpected, attaches the error
    when one is given, and finishes the branch off when told to
    ([finishBranchNow]). Every call is recorded in [treeCalls]. *)
Definition Tree_markStep (step : Step) (branch : option Branch.t)
    (passed asExp : bool) (err : option ErrorObj)
    (finishBranchNow continueOnFail : option bool) (r : RunInstance) : RunInstance :=
  let r := set_treeCalls
             (treeCalls r ++ [MarkStep (sid step) (option_map Branch.bid branch)
                                passed asExp err finishBranchNow continueOnFail]) r in
  let r := updStep (sid step)
             (fun st =>
                {| isPassed := passed; isFailed := negb passed;
                   isSkipped := false; isRunning := false;
                   asExpected := Some asExp;
                   error := match err with
                            | Some e => Some (set_e_report e)
                            | None => error st
                            end;
                   log := log st |}) r in
  match branch, finishBranchNow with
  | Some b, Some true => Branch_finishOffBranch b r
  | _, _ => r
  end.

(** ** Hooks *)

Definition targetOf (stepToGetError : option Step) (branchToGetError : option Branch.t)
    : option LogTarget :=
  match stepToGetError, branchToGetError with
  | Some s, _ => Some (ToStep (sid s))
  | None, Some b => Some (ToBranch (Branch.bid b))
  | None, None => None
  end.

(** [runHookStep(step, stepToGetError, branchToGetError, isSync)] *)
Definition runHookStep (step : Step) (stepToGetError : option Step)
    (branchToGetError : option Branch.t) (isSync : bool) (r : RunInstance)
    : RunInstance * bool :=
  match evalCodeBlock (codeBlock step) (text step) (lineNumber step)
                      (targetOf stepToGetError branchToGetError) isSync r with
  | (r, inr _) => (r, true)
  | (r, inl e) =>
      let e := fillErrorFromStep e step true in
      let r :=
        match stepToGetError with
        | Some s =>
            let r := Tree_markStep s None false false
                       (match error (stepState r (sid s)) with
                        | Some _ => None
                        | None => Some e
                        end) None None r in
            match branchToGetError with
            | Some b => updBranch (Branch.bid b) (Branch.markBranch false None) r
            | None => r
            end
        | None =>
            match branchToGetError with
            | Some b =>
                let e := match Branch.error (branchState r (Branch.bid b)) with
                         | Some _ => None
                         | None => Some e
                         end in
                updBranch (Branch.bid b) (Branch.markBranch false e) r
            | None => r
            end
        end in
      (r, false)
  end.

(** ** StepRunner *)

(** [delete step.isPassed; delete step.isFailed; delete step.isSkipped;
    delete step.error] *)
Definition resetResult (st : StepState) : StepState :=
  {| isPassed := false; isFailed := false; isSkipped := false;
     isRunning := isRunning st; asExpected := asExpected st;
     error := None; log := log st |}.

(** The Before Every Step loop; the flag says that a stop ended it. *)
Fixpoint runBeforeEveryStep (hooks : list Step) (step : Step) (branch : Branch.t)
    (r : RunInstance) : RunInstance * bool :=
  match hooks with
  | s :: hooks' =>
      let '(r, _) := runHookStep s (Some step) (Some branch) false r in
      if isStopped r then (r, true)
      else if isFailed (stepState r (sid step)) then (r, false)
      else runBeforeEveryStep hooks' step branch r
  | [] => (r, false)
  end.

(** The After Every Step loop; the flag says that a stop ended it. *)
Fixpoint runAfterEveryStep (hooks : list Step) (step : Step) (branch : Branch.t)
    (r : RunInstance) : RunInstance * bool :=
  match hooks with
  | s :: hooks' =>
      let '(r, _) := runHookStep s (Some step) (Some branch) false r in
      if isStopped r then (r, true)
      else runAfterEveryStep hooks' step branch r
  | [] => (r, false)
  end.

(** "Find the previous step" *)
Definition prevStepOf (step : Step) (branch : Branch.t) : option Step :=
  match indexOf step (Branch.steps branch) with
  | Some (S i) => Branch.steps branch !! i
  | _ => None
  end.

(** "Handle the stack for local vars", up to and including
    [this.localsPassedIntoFunc = {}] *)
Definition scopeTransition (prevStep : option Step) (step : Step) (r : RunInstance)
    : RunInstance :=
  let r :=
    match prevStep with
    | Some prevStep =>
        let prevStepWasACodeBlockFunc :=
          isFunctionCall prevStep && hasCodeBlock prevStep in
        if (branchIndents prevStep <? branchIndents step)%nat then
          if negb prevStepWasACodeBlockFunc then pushLocalStack r else r
        else if (branchIndents step <? branchIndents prevStep)%nat then
          let diff := (branchIndents prevStep - branchIndents step)%nat in
          Nat.iter diff popLocalStack r
        else
          if prevStepWasACodeBlockFunc then popLocalStack r else r
    | None => r
    end in
  set_localsPassedIntoFunc ∅ r.

(** "Passing inputs into function calls": the loop over [varList], with
    [inputList[i]] read alongside. *)
Fixpoint bindInputs (depth : nat) (varList inputList : list string) (step : Step)
    (branch : Branch.t) (r : RunInstance) : RunInstance * option ErrorObj :=
  match varList with
  | var :: varList' =>
      let varname := stripBrackets var in
      match inputList with
      | value :: inputList' =>
          let '(r, value) :=
            if STRING_LITERAL_WHOLE value then
              match replaceVars depth (stripQuotes value) step (Some branch) r with
              | (r, inl e) => (r, inl e)
              | (r, inr value) => (r, inr (VStr (unescape value)))
              end
            else if VAR_WHOLE value then
              findVarValue depth (stripBrackets value) (startsWith "{{" value)
                           step (Some branch) r
            else (r, inr (VStr value)) in
          match value with
          | inl e => (r, Some e)
          | inr value =>
              let r := setLocalPassedIn varname value r in
              let r := appendToLog ("Function parameter {{" +:+ varname +:+ "}} is "
                                    +:+ getLogValue value)
                                   (Some (ToStep (sid step))) r in
              bindInputs depth varList' inputList' step branch r
          end
      | [] => (r, Some (TypeError "Cannot read properties of undefined"))
      end
  | [] => (r, None)
  end.

(** "Step is {var}='str' [, {var2}='str', etc.]" *)
Fixpoint assignVars (depth : nat) (vars : list VarBeingSet) (step : Step)
    (branch : Branch.t) (r : RunInstance) : RunInstance * option ErrorObj :=
  match vars with
  | varBeingSet :: vars' =>
      match replaceVars depth (stripQuotes (vvalue varBeingSet)) step (Some branch) r with
      | (r, inl e) => (r, Some e)
      | (r, inr value) =>
          match setVarBeingSet varBeingSet (VStr value) r with
          | inl e => (r, Some e)
          | inr r =>
              let r := appendToLog ("Setting " +:+ variableFull (vname varBeingSet) (visLocal varBeingSet)
                                    +:+ " to " +:+ getLogValue (VStr value))
                                   (Some (ToStep (sid step))) r in
              assignVars depth vars' step branch r
          end
      end
  | [] => (r, None)
  end.

(** The input is a whole string literal that refers to no variable, or
    it is passed as it is (neither a whole string literal nor a whole
    variable). *)
Definition literalInput (value : string) : bool :=
  if STRING_LITERAL_WHOLE value
  then Nat.eqb (length (VAR (stripQuotes value))) 0
  else negb (VAR_WHOLE value).

(** What such an input stands for. *)
Definition inputValue (value : string) : string :=
  if STRING_LITERAL_WHOLE value then unescape (stripQuotes value) else value.

(** The assignment sets a global variable to a literal that refers to no
    variable. *)
Definition globalLiteral (v : VarBeingSet) : bool :=
  negb (visLocal v) && Nat.eqb (length (VAR (stripQuotes (vvalue v)))) 0.

(** Setting [other] does not write the key [varname] is read under. *)
Definition keyApart (varname other : string) : Prop :=
  canonicalize varname <> canonicalize other
  /\ canonicalize varname <> keepCaseCanonicalize other.

(** How the [try] block of runStep ends. *)
Inductive Outcome : Type :=
| Completed
| Returned
| Threw (e : ErrorObj) (inCodeBlock : bool).

(** The [try] block of runStep. *)
Definition executeStep (depth : nat) (step : Step) (branch : Branch.t)
    (r : RunInstance) : RunInstance * Outcome :=
  let '(r, thrown) :=
    if isFunctionCall step then
      match VAR (functionDeclarationText step) with
      | [] => (r, None)
      | varList =>
          match FUNCTION_INPUT (text step) with
          | [] => (r, None)
          | inputList =>
              let inputList :=
                match varsBeingSet step with
                | _ :: _ => tl inputList
                | [] => inputList
                end in
              bindInputs depth varList inputList step branch r
          end
      end
    else (r, None) in
  match thrown with
  | Some e => (r, Threw e false)
  | None =>
      let '(r, thrown) :=
        if negb (isFunctionCall step) && negb (hasCodeBlock step)
           && negb (Nat.eqb (length (varsBeingSet step)) 0)
        then assignVars depth (varsBeingSet step) step branch r
        else (r, None) in
      match thrown with
      | Some e => (r, Threw e false)
      | None =>
          if hasCodeBlock step then
            let r := if isFunctionCall step then pushLocalStack r else r in
            match evalCodeBlock (codeBlock step) (text step) (getLineNumberOffset step)
                                (Some (ToStep (sid step))) false r with
            | (r, inl e) => (r, Threw e true)
            | (r, inr retVal) =>
                let set :=
                  match varsBeingSet step with
                  | [varBeingSet] => setVarBeingSet varBeingSet retVal r
                  | _ => inr r
                  end in
                match set with
                | inl e => (r, Threw e false)
                | inr r => if isStopped r then (r, Returned) else (r, Completed)
                end
            end
          else (r, Completed)
      end
  end.

Definition StepPassedButExpectedToFail (step : Step) : ErrorObj :=
  set_e_location (filename step) (Some (lineNumber step))
    (newError "Error" "This step passed, but it was expected to fail (#)").

(** [error.continue] of the error at hand *)
Definition errorContinue (error : option ErrorObj) : bool :=
  match error with Some e => e_continue e | None => false end.

(** "Marks the step as passed/failed and expected/unexpected": from
    [let isPassed = !error] to the call of [tree.markStep]. *)
Definition markResult (error : option ErrorObj) (step : Step) (branch : Branch.t)
    (r : RunInstance) : RunInstance :=
  let isPassed := match error with Some _ => false | None => true end in
  let error :=
    if isExpectedFail step && isPassed
    then Some (StepPassedButExpectedToFail step)
    else error in
  let finishBranchNow :=
    if negb isPassed then
      if errorContinue error || pauseOnFail r then false else true
    else false in
  Tree_markStep step (Some branch) isPassed
    (Bool.eqb (isExpectedFail step) (negb isPassed))
    error (Some finishBranchNow) (Some true) r.

Definition isNone {A} (o : option A) : bool :=
  match o with Some _ => false | None => true end.

(** The error runStep hands to tree.markStep. *)
Definition markedError (error : option ErrorObj) (step : Step) : option ErrorObj :=
  if isExpectedFail step && isNone error then Some (StepPassedButExpectedToFail step)
  else error.

(** [asExpected] read as a condition *)
Definition asExpectedTruthy (st : StepState) : bool :=
  match asExpected st with Some b => b | None => false end.

(** The rest of runStep once the step is marked: After Every Step
    hooks, pauseOnFail and the after-debug gate. *)
Definition finishStep (step : Step) (branch : Branch.t) (overrideDebug : bool)
    (r : RunInstance) : RunInstance :=
  let '(r, stopped) :=
    match Branch.afterEveryStep branch with
    | Some hooks => runAfterEveryStep hooks step branch r
    | None => (r, false)
    end in
  if stopped then r
  else
    let st := stepState r (sid step) in
    let r :=
      if pauseOnFail r && (negb (isPassed st) || negb (asExpectedTruthy st))
      then setPause true r
      else r in
    if isAfterDebug step && negb overrideDebug then setPause true r
    else r.

(** [runStep(step, branch, overrideDebug)] *)
Definition runStep (depth : nat) (step : Step) (branch : Branch.t)
    (overrideDebug : bool) (r : RunInstance) : RunInstance :=
  if isBeforeDebug step && negb overrideDebug then setPause true r
  else
    let r := set_stepsRan (stepsRan r ++ [step]) r in
    let r := updStep (sid step) resetResult r in
    let '(r, stopped) :=
      match Branch.beforeEveryStep branch with
      | Some hooks => runBeforeEveryStep hooks step branch r
      | None => (r, false)
      end in
    if stopped then r
    else if negb (isFailed (stepState r (sid step))) then
      let r := scopeTransition (prevStepOf step branch) step r in
      match executeStep depth step branch r with
      | (r, Returned) => r
      | (r, Completed) =>
          finishStep step branch overrideDebug (markResult None step branch r)
      | (r, Threw e inCodeBlock) =>
          let error :=
            if negb (isStopped r)
            then Some (fillErrorFromStep e step inCodeBlock)
            else None in
          finishStep step branch overrideDebug (markResult error step branch r)
      end
    else finishStep step branch overrideDebug r.

(** The instance a step's code block is evaluated in, for a branch
    without Before Every Step hooks and a step that is not a function
    call. *)
Definition beforeCodeBlock (step : Step) (branch : Branch.t) (r : RunInstance)
    : RunInstance :=
  scopeTransition (prevStepOf step branch) step
    (updStep (sid step) resetResult (set_stepsRan (stepsRan r ++ [step]) r)).

(** runStep up to the end of the Before Every Step loop; the flag says
    that a stop ended the loop. *)
Definition beforeStep (step : Step) (branch : Branch.t) (r : RunInstance)
    : RunInstance * bool :=
  let r := set_stepsRan (stepsRan r ++ [step]) r in
  let r := updStep (sid step) resetResult r in
  match Branch.beforeEveryStep branch with
  | Some hooks => runBeforeEveryStep hooks step branch r
  | None => (r, false)
  end.

(** The error the [catch] of runStep keeps: none when nothing was thrown,
    and none when the instance was stopped meanwhile. *)
Definition caught (out : Outcome) (step : Step) (r : RunInstance) : option ErrorObj :=
  match out with
  | Threw e inCodeBlock =>
      if negb (isStopped r) then Some (fillErrorFromStep e step inCodeBlock) else None
  | _ => None
  end.

(** runStep, its [try] block having left the instance [r2], marks the step
    with [error]: it makes the one call [call] to tree.markStep and goes on
    to the After Every Step hooks and the pause gates; without such hooks
    [call] is the last call the tree has received when runStep is done. *)
Definition marksWith (depth : nat) (step : Step) (branch : Branch.t)
    (overrideDebug : bool) (r r2 : RunInstance) (error : option ErrorObj)
    (call : TreeCall) : Prop :=
  runStep depth step branch overrideDebug r
  = finishStep step branch overrideDebug (markResult error step branch r2)
  /\ treeCalls (markResult error step branch r2) = treeCalls r2 ++ [call]
  /\ (Branch.afterEveryStep branch = None ->
      treeCalls (runStep depth step branch overrideDebug r) = treeCalls r2 ++ [call]).

(** ** BranchRunner *)

Definition checkForPaused (r : RunInstance) : bool := isPaused r.

Definition checkForStopped (r : RunInstance) : bool := isStopped r.

(** Modelled from the spec: [Step.isComplete] is in step.js; an executed
    step is passed, failed or skipped. *)
Definition Step_isComplete (st : StepState) : bool :=
  isPassed st || isFailed st || isSkipped st.

Definition getNextReadyStep (r : RunInstance) : RunInstance * option Step :=
  match currBranch r with
  | None => (r, None)
  | Some b =>
      if Branch.isComplete b (branchState r (Branch.bid b)) then (r, None)
      else
        match currStep r with
        | None => nextStep (currBranch r) false false r
        | Some s =>
            if Step_isComplete (stepState r (sid s))
            then nextStep (currBranch r) false false r
            else (r, Some s)
        end
  end.

Definition sameStep (a b : option Step) : bool :=
  match a, b with
  | Some a, Some b => Nat.eqb (sid a) (sid b)
  | None, None => true
  | _, _ => false
  end.

Definition toNextReadyStep (r : RunInstance) : RunInstance :=
  let '(r, nextReadyStep) := getNextReadyStep r in
  match nextReadyStep with
  | Some _ =>
      if negb (sameStep (currStep r) nextReadyStep) then
        let '(r, s) := nextStep (currBranch r) true true r in set_currStep s r
      else r
  | None =>
      let '(r, s) := nextStep (currBranch r) true true r in set_currStep s r
  end.

Fixpoint runAfterEveryBranchHooks (hooks : list Step) (r : RunInstance) : RunInstance :=
  match hooks with
  | s :: hooks' =>
      let '(r, _) := runHookStep s None (currBranch r) false r in
      if checkForStopped r then r
      else runAfterEveryBranchHooks hooks' r
  | [] => r
  end.

Definition runAfterEveryBranch (r : RunInstance) : RunInstance :=
  match currBranch r with
  | Some b =>
      match Branch.afterEveryBranch b with
      | Some hooks => runAfterEveryBranchHooks hooks r
      | None => r
      end
  | None => r
  end.

(** How the Before Every Branch loop of run ends. *)
Inductive BeforeBranch : Type :=
| RunSteps
| ContinueToNextBranch
| ReturnNow.

Fixpoint runBeforeEveryBranch (hooks : list Step) (r : RunInstance)
    : RunInstance * BeforeBranch :=
  match hooks with
  | s :: hooks' =>
      let '(r, _) := runHookStep s None (currBranch r) false r in
      if checkForStopped r then (r, ReturnNow)
      else if match currBranch r with
              | Some b => Branch.isFailed (branchState r (Branch.bid b))
              | None => false
              end
      then
        let r := runAfterEveryBranch r in
        let '(r, b) := nextBranch r in
        (set_currBranch b r, ContinueToNextBranch)
      else runBeforeEveryBranch hooks' r
  | [] => (r, RunSteps)
  end.

(** "Execute steps in the branch": the inner [while(this.currStep)];
    gives back [overrideDebug] and whether run returns. [n] bounds the
    number of iterations. *)
Fixpoint runSteps (n depth : nat) (overrideDebug : bool) (r : RunInstance)
    : RunInstance * bool * bool :=
  match n with
  | S n' =>
      match currStep r, currBranch r with
      | Some step, Some branch =>
          let r := runStep depth step branch overrideDebug r in
          let overrideDebug := false in
          if checkForPaused r || checkForStopped r then (r, overrideDebug, true)
          else runSteps n' depth overrideDebug (toNextReadyStep r)
      | _, _ => (r, overrideDebug, false)
      end
  | O => (r, overrideDebug, true)
  end.

(** The [while(this.currBranch)] loop of run. *)
Fixpoint runBranches (n depth : nat) (wasPaused overrideDebug : bool)
    (r : RunInstance) : RunInstance :=
  match n with
  | S n' =>
      match currBranch r with
      | Some b =>
          if checkForStopped r then r
          else
            let r := resetVariableState r in
            let '(r, before) :=
              match Branch.beforeEveryBranch b with
              | Some hooks =>
                  if negb wasPaused then runBeforeEveryBranch hooks r
                  else (r, RunSteps)
              | None => (r, RunSteps)
              end in
            match before with
            | ReturnNow => r
            | ContinueToNextBranch => runBranches n' depth wasPaused overrideDebug r
            | RunSteps =>
                let '(r, overrideDebug, returned) :=
                  if negb (Branch.isComplete b (branchState r (Branch.bid b)))
                  then runSteps n' depth overrideDebug (toNextReadyStep r)
                  else (r, overrideDebug, false) in
                if returned then r
                else
                  let r := runAfterEveryBranch r in
                  let '(r, b) := nextBranch r in
                  runBranches n' depth wasPaused overrideDebug (set_currBranch b r)
            end
      | None => r
      end
  | O => r
  end.

(** [run()] *)
Definition run (n depth : nat) (r : RunInstance) : Res RunInstance :=
  if isStopped r then inl (utils_error "Cannot run a stopped runner")
  else
    let '(r, wasPaused, overrideDebug) :=
      if isPaused r then (setPause false r, true, true)
      else let '(r, b) := nextBranch r in (set_currBranch b r, false, false) in
    inr (runBranches n depth wasPaused overrideDebug r).

End Engine.

(** ** A concrete setting for examples *)

Definition isSpace (c : ascii) : bool :=
  let n := nat_of_ascii c in
  ((9 <=? n) && (n <=? 13))%nat || Nat.eqb n 32.

Definition toLowerCase (c : ascii) : ascii :=
  let n := nat_of_ascii c in
  if ((65 <=? n) && (n <=? 90))%nat then ascii_of_nat (n + 32) else c.

(** Trim, and collapse each run of whitespace inside to one space. *)
Fixpoint collapseSpaces (started gap : bool) (s : string) : string :=
  match s with
  | String c t =>
      if isSpace c then collapseSpaces started true t
      else if started && gap then String " " (String c (collapseSpaces true false t))
      else String c (collapseSpaces true false t)
  | EmptyString => EmptyString
  end.

Fixpoint mapString (f : ascii -> ascii) (s : string) : string :=
  match s with
  | String c t => String (f c) (mapString f t)
  | EmptyString => EmptyString
  end.

(** Modelled from the spec: [utils.canonicalize] and
    [utils.keepCaseCanonicalize] are in utils.js; keys are canonicalized by
    trimming, collapsing interior whitespace to single spaces, and
    case-folding, the case-preserving form leaving the last out. The
    functions the spec leaves open are the identity here. *)
Definition sampleUtils : Utils := {|
  canonicalize := fun s => mapString toLowerCase (collapseSpaces false false s);
  keepCaseCanonicalize := fun s => collapseSpaces false false s;
  stripQuotes := fun s => s;
  stripBrackets := fun s => s;
  unescape := fun s => s
|}.

(** No variable reference and no function input is recognised. *)
Definition sampleConstants : Constants := {|
  VAR := fun _ => [];
  FUNCTION_INPUT := fun _ => [];
  STRING_LITERAL_WHOLE := fun _ => false;
  VAR_WHOLE := fun _ => false
|}.

Definition boom : ErrorObj :=
  {| e_name := "Error"; e_message := "boom";
     e_stack := "Error: boom
    at CodeBlock_for_Hook (eval at evalCodeBlock (runinstance.js:704:36), <anonymous>:7:11)";
     e_filename := None; e_lineNumber := None; e_continue := false;
     e_msg := None; e_stackTrace := None |}.

(** An engine that knows one program: [throw] throws [boom]; anything
    else returns [undefined] and touches nothing. *)
Definition sampleEngine : JsEngine := {|
  eval := fun req r =>
    match code req with
    | Some "throw" => (r, inl boom)
    | _ => (r, inr VUndefined)
    end;
  replace := fun text _ _ => text
|}.

(** A tree with nothing left to run. *)
Definition sampleTree : Tree := {|
  nextBranch := fun r => (r, None);
  nextStep := fun _ _ _ r => (r, None)
|}.

(** A plain textual step. *)
Definition plainStep (id : nat) (line : N) (indents : nat) (txt : string) : Step :=
  {| sid := id; filename := Some "test.smash"; lineNumber := line; text := txt;
     branchIndents := indents; isFunctionCall := false; isHook := false;
     isPackaged := false; isBeforeDebug := false; isAfterDebug := false;
     isExpectedFail := false; codeBlock := None;
     functionDeclarationText := EmptyString; varsBeingSet := [];
     declaration := (None, 0%N) |}.

Definition branchOf (id : nat) (ss : list Step) : Branch.t :=
  {| Branch.bid := id; Branch.steps := ss; Branch.beforeEveryBranch := None;
     Branch.afterEveryBranch := None; Branch.beforeEveryStep := None;
     Branch.afterEveryStep := None; Branch.passedLastTime := false |}.

Definition emptyInstance : RunInstance := newRunInstance ∅ ∅ false.

(** A step that is an assignment, [{name}='value'] or [{{name}}='value']. *)
Definition assignStep (id : nat) (line : N) (indents : nat) (txt : string)
    (v : VarBeingSet) : Step :=
  {| sid := id; filename := Some "test.smash"; lineNumber := line; text := txt;
     branchIndents := indents; isFunctionCall := false; isHook := false;
     isPackaged := false; isBeforeDebug := false; isAfterDebug := false;
     isExpectedFail := false; codeBlock := None;
     functionDeclarationText := EmptyString; varsBeingSet := [v];
     declaration := (None, 0%N) |}.

(** The tree calls that mark the step failed. *)
Definition marksFailed (step : nat) (c : TreeCall) : bool :=
  match c with
  | MarkStep s _ passed _ _ _ _ => Nat.eqb s step && negb passed
  | MarkStepSkipped _ _ => false
  end.

(** An error recorded earlier. *)
Definition firstError : ErrorObj :=
  set_e_report (set_e_location (Some "hooks.smash") (Some 2%N) (newError "Error" "first")).

(** An instance whose branch 0 has already failed with [firstError]. *)
Definition failedInstance : RunInstance :=
  updBranch 0 (Branch.markBranch false (Some firstError)) emptyInstance.

Definition doIt : Step := plainStep 1 3 0 "Do it".

(** Two steps, the second two indents left of the first. *)
Definition deepStep : Step := plainStep 1 1 2 "Type the name".
Definition shallowStep : Step := plainStep 2 2 0 "Click submit".
Definition twoFrames : RunInstance := set_localStack [Some ∅; Some ∅] emptyInstance.

(** A step that reads [{{y}}] inside a function, the step after the
    function that sets it, and a later step that sets it again. *)
Definition readsY : Step := plainStep 1 1 1 "Type {{y}} into the box".
Definition setsYOutside : Step :=
  assignStep 2 2 0 "{{y}}='late'" (mkVar "y" "'late'" true).
Definition setsYLater : Step :=
  assignStep 3 3 1 "{{y}}='later'" (mkVar "y" "'later'" true).

(** The branch [{x}=''] then [say {x}]. *)
Definition setsX : Step := assignStep 1 1 0 "{x}=''" (mkVar "x" "''" false).
Definition readsX : Step := plainStep 2 2 0 "say {x}".

Definition savedFrame : option Frame := Some {["name" := VStr "Ada"]}.
Definition oneSaved : RunInstance := set_localStack [savedFrame] emptyInstance.

(** An instance about to run an empty branch. *)
Definition atBranch : RunInstance :=
  set_currBranch (Some (branchOf 0 [])) emptyInstance.

(** A step marked as expected to fail, with nothing to execute. *)
Definition expectedFailStep : Step :=
  {| sid := 1; filename := Some "test.smash"; lineNumber := 4; text := "Open page";
     branchIndents := 0; isFunctionCall := false; isHook := false;
     isPackaged := false; isBeforeDebug := false; isAfterDebug := false;
     isExpectedFail := true; codeBlock := None;
     functionDeclarationText := EmptyString; varsBeingSet := [];
     declaration := (None, 0%N) |}.

(** A hook whose code block throws. *)
Definition throwingHook : Step :=
  {| sid := 9; filename := Some "hooks.smash"; lineNumber := 7; text := "After Every Branch";
     branchIndents := 0; isFunctionCall := false; isHook := true;
     isPackaged := false; isBeforeDebug := false; isAfterDebug := false;
     isExpectedFail := false; codeBlock := Some "throw";
     functionDeclarationText := EmptyString; varsBeingSet := [];
     declaration := (None, 0%N) |}.

Definition innerFrame : string :=
  "at CodeBlock_for_Inner (eval at evalCodeBlock (/x/runinstance.js:696:20), <anonymous>:12".

Definition outerFrame : string :=
  "at CodeBlock_for_Outer (eval at evalCodeBlock (/x/runinstance.js:704:36), <anonymous>:30".

(** A stack trace with two code block frames: the error was thrown at
    line 12 of one code block, reached from line 30 of another. *)
Definition nestedStack : string :=
  "Error: oops
    at CodeBlock_for_Inner (eval at evalCodeBlock (/x/runinstance.js:696:20), <anonymous>:12:9)
    at RunInstance.findVarValue (/x/runinstance.js:820:38)
    at CodeBlock_for_Outer (eval at evalCodeBlock (/x/runinstance.js:704:36), <anonymous>:30:5)
    at new Promise (<anonymous>)".

Definition nestedError : ErrorObj :=
  {| e_name := "Error"; e_message := "oops"; e_stack := nestedStack;
     e_filename := None; e_lineNumber := None; e_continue := false;
     e_msg := None; e_stackTrace := None |}.

(** ** More of branch.js

    [Branch.t] keeps the steps and the hooks of a branch. The optional
    fields [mergeToEnd] and [push] also write are in [Attrs]; a Step's
    [isOnly], [isDebug] and [identifiers], which the Step record leaves
    out, are taken as functions of the step. Strings are ASCII. *)

Module BranchOps.

Record Attrs : Type := mkAttrs {
  nonParallelId : option string;
  frequency : option string;
  groups : option (list string);
  isOnly : bool;
  isDebug : bool
}.

(** The fields of [new Branch()] *)
Definition noAttrs : Attrs :=
  {| nonParallelId := None; frequency := None; groups := None;
     isOnly := false; isDebug := false |}.

(** A string field read as a condition *)
Definition truthyString (o : option string) : bool :=
  match o with
  | Some s => negb (String.eqb s EmptyString)
  | None => false
  end.

(** [this.x = branch.x.concat(this.x)] when [branch.x] is there *)
Definition attachFront (this other : option (list Step)) : option (list Step) :=
  match other with
  | Some o => Some (o ++ default [] this)
  | None => this
  end.

(** [this.x = this.x.concat(branch.x)] when [branch.x] is there *)
Definition attachBack (this other : option (list Step)) : option (list Step) :=
  match other with
  | Some o => Some (default [] this ++ o)
  | None => this
  end.

(** [mergeToEnd(branch)] *)
Definition mergeToEnd (this branch : Branch.t * Attrs) : Branch.t * Attrs :=
  ({| Branch.bid := Branch.bid (fst this);
      Branch.steps := Branch.steps (fst this) ++ Branch.steps (fst branch);
      Branch.beforeEveryBranch :=
        attachFront (Branch.beforeEveryBranch (fst this))
                    (Branch.beforeEveryBranch (fst branch));
      Branch.afterEveryBranch :=
        attachBack (Branch.afterEveryBranch (fst this))
                   (Branch.afterEveryBranch (fst branch));
      Branch.beforeEveryStep :=
        attachFront (Branch.beforeEveryStep (fst this))
                    (Branch.beforeEveryStep (fst branch));
      Branch.afterEveryStep :=
        attachBack (Branch.afterEveryStep (fst this))
                   (Branch.afterEveryStep (fst branch));
      Branch.passedLastTime := Branch.passedLastTime (fst this) |},
   {| nonParallelId :=
        if truthyString (nonParallelId (snd branch)) then nonParallelId (snd branch)
        else nonParallelId (snd this);
      frequency :=
        if truthyString (frequency (snd branch)) then frequency (snd branch)
        else frequency (snd this);
      groups :=
        match groups (snd branch) with
        | Some g => Some (default [] (groups (snd this)) ++ g)
        | None => groups (snd this)
        end;
      isOnly := if isOnly (snd branch) then isOnly (snd branch) else isOnly (snd this);
      isDebug := if isDebug (snd branch) then isDebug (snd branch) else isDebug (snd this) |}).

Definition setSteps (steps : list Step) (b : Branch.t) : Branch.t :=
  {| Branch.bid := Branch.bid b; Branch.steps := steps;
     Branch.beforeEveryBranch := Branch.beforeEveryBranch b;
     Branch.afterEveryBranch := Branch.afterEveryBranch b;
     Branch.beforeEveryStep := Branch.beforeEveryStep b;
     Branch.afterEveryStep := Branch.afterEveryStep b;
     Branch.passedLastTime := Branch.passedLastTime b |}.

Definition raiseFlags (only debug : bool) (a : Attrs) : Attrs :=
  {| nonParallelId := nonParallelId a; frequency := frequency a; groups := groups a;
     isOnly := if only then true else isOnly a;
     isDebug := if debug then true else isDebug a |}.

Section StepFlags.

Variables stepIsOnly stepIsDebug : Step -> bool.
Variable identifiers : Step -> option (list string).

(** [push(step)] *)
Definition push (step : Step) (this : Branch.t * Attrs) : Branch.t * Attrs :=
  (setSteps (Branch.steps (fst this) ++ [step]) (fst this),
   raiseFlags (stepIsOnly step) (stepIsDebug step) (snd this)).

(** [unshift(step)] *)
Definition unshift (step : Step) (this : Branch.t * Attrs) : Branch.t * Attrs :=
  (setSteps (step :: Branch.steps (fst this)) (fst this),
   raiseFlags (stepIsOnly step) (stepIsDebug step) (snd this)).

(** [text.replace(/\s+/g, ' ')] *)
Fixpoint spacesToOne (inRun : bool) (s : string) : string :=
  match s with
  | String c t =>
      if isSpace c then
        if inRun then spacesToOne true t else String " " (spacesToOne true t)
      else String c (spacesToOne false t)
  | EmptyString => EmptyString
  end.

(** [getCanonicalStepText(step)] of equals *)
Definition getCanonicalStepText (step : Step) : string :=
  let text := spacesToOne false (text step) in
  match identifiers step with
  | Some ids =>
      fold_left (fun text identifier =>
                   if negb (String.eqb identifier "~") && negb (String.eqb identifier "$")
                   then text +:+ " " +:+ identifier
                   else text) ids text
  | None => text
  end.

Definition sameCodeBlock (a b : option string) : bool :=
  match a, b with
  | Some x, Some y => String.eqb x y
  | None, None => true
  | _, _ => false
  end.

(** One turn of the loop of equals *)
Definition sameStepText (pair : Step * Step) : bool :=
  String.eqb (getCanonicalStepText (fst pair)) (getCanonicalStepText (snd pair))
  && sameCodeBlock (codeBlock (fst pair)) (codeBlock (snd pair)).

(** The loop of equals over the first [k] pairs of steps. *)
Definition firstSame (k : nat) (a b : list Step) : bool :=
  forallb sameStepText (take k (zip a b)).

(** [equals(branch, n)]; the loop runs over the indices below [thisLen],
    which are in range on both sides. *)
Definition equals (this branch : Branch.t) (n : option nat) : bool :=
  let thisLen := length (Branch.steps this) in
  let branchLen := length (Branch.steps branch) in
  let thisLen :=
    match n with Some n => if (n <? thisLen)%nat then n else thisLen | None => thisLen end in
  let branchLen :=
    match n with Some n => if (n <? branchLen)%nat then n else branchLen | None => branchLen end in
  if negb (Nat.eqb thisLen branchLen) then false
  else forallb sameStepText (take thisLen (zip (Branch.steps this) (Branch.steps branch))).

End StepFlags.

(** [isCompleteOrRunning()] *)
Definition isCompleteOrRunning (b : Branch.t) (st : Branch.State) : bool :=
  Branch.isRunning st || Branch.isComplete b st.

End BranchOps.

(** ** The text evalCodeBlock hands to eval *)

Definition isLetter (c : ascii) : bool :=
  let n := nat_of_ascii c in
  ((65 <=? n) && (n <=? 90))%nat || ((97 <=? n) && (n <=? 122))%nat.

(** [[A-Za-z0-9_]] *)
Definition isWordChar (c : ascii) : bool :=
  isLetter c || isDigit c || Ascii.eqb c "_".

(** [[A-Za-z_$]] and [[A-Za-z0-9_$]] *)
Definition isVarStart (c : ascii) : bool :=
  isLetter c || Ascii.eqb c "_" || Ascii.eqb c "$".

Definition isVarPart (c : ascii) : bool :=
  isLetter c || isDigit c || Ascii.eqb c "_" || Ascii.eqb c "$".

Fixpoint allChars (f : ascii -> bool) (s : string) : bool :=
  match s with
  | String c t => f c && allChars f t
  | EmptyString => true
  end.

(** [funcName.replace(/\s+/g, '_')] *)
Fixpoint spacesToUnderscore (inRun : bool) (s : string) : string :=
  match s with
  | String c t =>
      if isSpace c then
        if inRun then spacesToUnderscore true t
        else String "_" (spacesToUnderscore true t)
      else String c (spacesToUnderscore false t)
  | EmptyString => EmptyString
  end.

(** [.replace(/[^A-Za-z0-9\_]/g, '')] *)
Fixpoint keepWordChars (s : string) : string :=
  match s with
  | String c t => if isWordChar c then String c (keepWordChars t) else keepWordChars t
  | EmptyString => EmptyString
  end.

(** "Remove unsafe chars from funcName": what is put after [CodeBlock]
    in the name of the generated function. *)
Definition codeBlockSuffix (funcName : option string) : string :=
  match funcName with
  | Some (String c t) =>
      let funcName := keepWordChars (spacesToUnderscore false (String c t)) in
      if negb (String.eqb funcName EmptyString) then "_for_" +:+ funcName
      else funcName
  | _ => EmptyString
  end.

Definition newline : ascii := "010"%char.

(** [padding]: one empty comment line for each [i] from 1 below
    [lineNumber]. *)
Fixpoint commentLines (k : nat) : string :=
  match k with
  | S k' => String "/" (String "/" (String newline (commentLines k')))
  | O => EmptyString
  end.

Definition padding (lineNumber : N) : string :=
  commentLines (N.to_nat lineNumber - 1).

(** [JS_VARNAME_WHITELIST] *)
Definition JS_VARNAME_WHITELIST (varname : string) : bool :=
  match varname with
  | String c t => isVarStart c && allChars isVarPart t
  | EmptyString => false
  end.

Definition reservedWords : list string :=
  ["do"; "if"; "in"; "for"; "let"; "new"; "try"; "var"; "case"; "else"; "enum";
   "eval"; "null"; "this"; "true"; "void"; "with"; "await"; "break"; "catch";
   "class"; "const"; "false"; "super"; "throw"; "while"; "yield"; "delete";
   "export"; "import"; "public"; "return"; "static"; "switch"; "typeof";
   "default"; "extends"; "finally"; "package"; "private"; "continue";
   "debugger"; "function"; "arguments"; "interface"; "protected"; "implements";
   "instanceof"].

(** [JS_VARNAME_BLACKLIST] *)
Definition JS_VARNAME_BLACKLIST (varname : string) : bool :=
  existsb (String.eqb varname) reservedWords.

Definition declarable (varname : string) : bool :=
  JS_VARNAME_WHITELIST varname && negb (JS_VARNAME_BLACKLIST varname).

(** ["var " + varname + " = " + getter + "('" + varname + "');"] *)
Definition varDeclaration (getter varname : string) : string :=
  "var " +:+ varname +:+ " = " +:+ getter +:+ "('" +:+ varname +:+ "');".

(** [loadIntoJsVars(header, arr, getter)], over the own keys of [arr] in
    the order [for ... in] goes through them. *)
Definition loadIntoJsVars (header : string) (keys : list string) (getter : string) : string :=
  fold_left (fun header varname =>
               if declarable varname then header +:+ varDeclaration getter varname
               else header) keys header.

(** The keys of the four variable objects, each in enumeration order. *)
Record VarNames : Type := mkVarNames {
  persistentKeys : list string;
  globalKeys : list string;
  localKeys : list string;
  passedInKeys : list string
}.

Definition codeHeader (names : VarNames) : string :=
  let header := EmptyString in
  let header := loadIntoJsVars header (persistentKeys names) "getPersistent" in
  let header := loadIntoJsVars header (globalKeys names) "getGlobal" in
  let header := loadIntoJsVars header (localKeys names) "getLocal" in
  loadIntoJsVars header (passedInKeys names) "getLocal".

(** What comes before the code block's text in the code evaluated, and
    what comes after. *)
Definition codePrefix (funcName : option string) (lineNumber : N) (isSync : bool)
    (names : VarNames) : string :=
  padding lineNumber +:+ "(" +:+ (if isSync then EmptyString else "async")
  +:+ " function CodeBlock" +:+ codeBlockSuffix funcName +:+ "(runInstance) { "
  +:+ codeHeader names.

(** [code = padding + `(` + ... + header + code + ` })(this);`] *)
Definition generatedCode (code : string) (funcName : option string) (lineNumber : N)
    (isSync : bool) (names : VarNames) : string :=
  codePrefix funcName lineNumber isSync names +:+ code +:+ " })(this);".

Fixpoint countNewlines (s : string) : nat :=
  match s with
  | String c t => (if isNewline c then 1 else 0) + countNewlines t
  | EmptyString => 0
  end.

(** ** imp *)

Definition isLowerCase (c : ascii) : bool :=
  let n := nat_of_ascii c in ((97 <=? n) && (n <=? 122))%nat.

Definition toUpperCase (c : ascii) : ascii :=
  if isLowerCase c then ascii_of_nat (nat_of_ascii c - 32) else c.

Definition isHyphen (c : ascii) : bool := Ascii.eqb c "-".

(** [packageName.replace(/-([a-z])/g, m => m.toUpperCase())] *)
Fixpoint upperAfterHyphen (s : string) : string :=
  match s with
  | String c t =>
      if isHyphen c then
        match t with
        | String c' t' =>
            if isLowerCase c' then String c (String (toUpperCase c') (upperAfterHyphen t'))
            else String c (upperAfterHyphen t)
        | EmptyString => String c EmptyString
        end
      else String c (upperAfterHyphen t)
  | EmptyString => EmptyString
  end.

(** [.replace(/-/g, '')] *)
Fixpoint dropHyphens (s : string) : string :=
  match s with
  | String c t => if isHyphen c then dropHyphens t else String c (dropHyphens t)
  | EmptyString => EmptyString
  end.

Definition noHyphen (s : string) : bool := allChars (fun c => negb (isHyphen c)) s.

(** "camelCasing" *)
Definition camelCase (packageName : string) : string :=
  dropHyphens (upperAfterHyphen packageName).

Section Imp.

Context {U : Utils}.

(** Node's [require(packageName)]: the module, or an exception. *)
Variable require : string -> Res Value.

(** [imp(packageName, varName)] *)
Definition imp (packageName : string) (varName : option string) (r : RunInstance)
    : RunInstance * Res Value :=
  let varName :=
    match varName with
    | Some (String c t) => String c t
    | _ => camelCase packageName
    end in
  if negb (truthy (getPersistent varName r)) then
    match require packageName with
    | inl e => (r, inl e)
    | inr module =>
        let r := setPersistent varName module r in
        (r, inr (getPersistent varName r))
    end
  else (r, inr (getPersistent varName r)).

End Imp.

(** ** More concrete collaborators for examples *)

Definition isQuote (c : ascii) : bool := Ascii.eqb c "'" || Ascii.eqb c dquote.

Definition isBrace (c : ascii) : bool := Ascii.eqb c "{" || Ascii.eqb c "}".

Fixpoint dropChars (f : ascii -> bool) (s : string) : string :=
  match s with
  | String c t => if f c then dropChars f t else String c (dropChars f t)
  | EmptyString => EmptyString
  end.

(** Like [sampleUtils], with quotes and braces taken off. *)
Definition textUtils : Utils := {|
  canonicalize := fun s => mapString toLowerCase (collapseSpaces false false s);
  keepCaseCanonicalize := fun s => collapseSpaces false false s;
  stripQuotes := dropChars isQuote;
  stripBrackets := dropChars isBrace;
  unescape := fun s => s
|}.

(** The references [{name}] and [{{name}}] of a text, left to right. *)
Fixpoint scanVars (cur : option string) (s : string) : list string :=
  match s with
  | String c t =>
      match cur with
      | None =>
          if Ascii.eqb c "{" then scanVars (Some (String c EmptyString)) t
          else scanVars None t
      | Some acc =>
          if Ascii.eqb c "}" then
            (if startsWith "{{" acc then acc +:+ "}}" else acc +:+ "}") :: scanVars None t
          else scanVars (Some (acc +:+ String c EmptyString)) t
      end
  | EmptyString => []
  end.

Definition braceConstants : Constants := {|
  VAR := scanVars None;
  FUNCTION_INPUT := fun _ => [];
  STRING_LITERAL_WHOLE := fun _ => false;
  VAR_WHOLE := fun _ => false
|}.

(** The tree calls that tell the tree to finish the branch off. *)
Definition finishesBranch (c : TreeCall) : bool :=
  match c with
  | MarkStep _ _ _ _ _ (Some true) _ => true
  | _ => false
  end.

(** A Before Every Step hook whose code block throws. *)
Definition throwingStepHook : Step :=
  {| sid := 8; filename := Some "hooks.smash"; lineNumber := 7; text := "Before Every Step";
     branchIndents := 0; isFunctionCall := false; isHook := true;
     isPackaged := false; isBeforeDebug := false; isAfterDebug := false;
     isExpectedFail := false; codeBlock := Some "throw";
     functionDeclarationText := EmptyString; varsBeingSet := [];
     declaration := (None, 0%N) |}.

(** A branch of the given steps with [throwingStepHook] as its only
    Before Every Step hook. *)
Definition hookedBranch (id : nat) (ss : list Step) : Branch.t :=
  {| Branch.bid := id; Branch.steps := ss; Branch.beforeEveryBranch := None;
     Branch.afterEveryBranch := None; Branch.beforeEveryStep := Some [throwingStepHook];
     Branch.afterEveryStep := None; Branch.passedLastTime := false |}.

(** A step whose code block throws. *)
Definition throwingStep : Step :=
  {| sid := 1; filename := Some "test.smash"; lineNumber := 3; text := "Do it";
     branchIndents := 0; isFunctionCall := false; isHook := false;
     isPackaged := false; isBeforeDebug := false; isAfterDebug := false;
     isExpectedFail := false; codeBlock := Some "throw";
     functionDeclarationText := EmptyString; varsBeingSet := [];
     declaration := (None, 0%N) |}.

(** An engine that knows the program [probe]: it stores in persistent
    variables what getPersistent, getGlobal and getLocal give for [x], and
    stops the instance. *)
Definition probeEngine : JsEngine := {|
  eval := fun req r =>
    match code req with
    | Some "probe" =>
        let seenPersistent := getPersistent (U := sampleUtils) "x" r in
        let seenGlobal := getGlobal (U := sampleUtils) "x" r in
        let seenLocal :=
          match getLocal (U := sampleUtils) "x" r with
          | inr v => v
          | inl _ => VNull
          end in
        (stop (setPersistent (U := sampleUtils) "seen local" seenLocal
                 (setPersistent (U := sampleUtils) "seen global" seenGlobal
                    (setPersistent (U := sampleUtils) "seen persistent" seenPersistent r))),
         inr VUndefined)
    | _ => (r, inr VUndefined)
    end;
  replace := fun text _ _ => text
|}.

(** A Before Every Branch hook that runs [probe]. *)
Definition probeHook : Step :=
  {| sid := 7; filename := Some "hooks.smash"; lineNumber := 2; text := "Before Every Branch";
     branchIndents := 0; isFunctionCall := false; isHook := true;
     isPackaged := false; isBeforeDebug := false; isAfterDebug := false;
     isExpectedFail := false; codeBlock := Some "probe";
     functionDeclarationText := EmptyString; varsBeingSet := [];
     declaration := (None, 0%N) |}.

(** An empty branch with [probeHook] as its only Before Every Branch hook. *)
Definition probedBranch : Branch.t :=
  {| Branch.bid := 0; Branch.steps := []; Branch.beforeEveryBranch := Some [probeHook];
     Branch.afterEveryBranch := None; Branch.beforeEveryStep := None;
     Branch.afterEveryStep := None; Branch.passedLastTime := false |}.

(** A tree that always hands out [probedBranch]. *)
Definition probedTree : Tree := {|
  nextBranch := fun r => (r, Some probedBranch);
  nextStep := fun _ _ _ r => (r, None)
|}.

(** What a branch may leave behind: [x] set as a persistent, a global and
    a local variable, a frame on the stack, and the instance about to run
    [probedBranch]. *)
Definition leftOver : RunInstance :=
  set_currBranch (Some probedBranch)
    (set_localStack [Some ∅]
       (set_local (Some {["x" := VStr "local"]})
          (set_global {["x" := VStr "global"]}
             (set_persistent {["x" := VStr "persistent"]} emptyInstance)))).

(** A fresh instance but for a parameter [x] that a function call of the
    branch before staged and that no step took up. *)
Definition stagedInstance : RunInstance :=
  setLocalPassedIn (U := sampleUtils) "x" (VStr "staged") emptyInstance.

(** The whole string literals in single quotes of a text, left to right. *)
Fixpoint scanQuoted (cur : option string) (s : string) : list string :=
  match s with
  | String c t =>
      match cur with
      | None =>
          if Ascii.eqb c "'" then scanQuoted (Some (String c EmptyString)) t
          else scanQuoted None t
      | Some acc =>
          if Ascii.eqb c "'" then (acc +:+ "'") :: scanQuoted None t
          else scanQuoted (Some (acc +:+ String c EmptyString)) t
      end
  | EmptyString => []
  end.

(** Like [braceConstants], a text in single quotes being a whole string
    literal and the string literals of a step's text being its inputs. *)
Definition inputConstants : Constants := {|
  VAR := scanVars None;
  FUNCTION_INPUT := scanQuoted None;
  STRING_LITERAL_WHOLE := fun s =>
    match s with
    | String c t => Ascii.eqb c "'" && negb (String.eqb (dropChars isQuote t) t)
    | EmptyString => false
    end;
  VAR_WHOLE := fun _ => false
|}.

(** A call of the function declared as [declared], without a code block. *)
Definition callStep (id : nat) (txt declared : string) : Step :=
  {| sid := id; filename := Some "test.smash"; lineNumber := 1; text := txt;
     branchIndents := 0; isFunctionCall := true; isHook := false;
     isPackaged := false; isBeforeDebug := false; isAfterDebug := false;
     isExpectedFail := false; codeBlock := None;
     functionDeclarationText := declared; varsBeingSet := [];
     declaration := (Some "test.smash", 9%N) |}.

(** The first occurrence of [pattern] in [text] replaced by [by_]. *)
Fixpoint replaceFirst (text pattern by_ : string) : string :=
  match stripPrefix pattern text with
  | Some rest => by_ +:+ rest
  | None =>
      match text with
      | String c t => String c (replaceFirst t pattern by_)
      | EmptyString => EmptyString
      end
  end.

Definition showValue (v : Value) : string :=
  match v with
  | VStr s => s
  | VBool true => "true"
  | VBool false => "false"
  | _ => "?"
  end.

(** Like [sampleEngine], with a replace that replaces. *)
Definition textEngine : JsEngine := {|
  eval := fun req r =>
    match code req with
    | Some "throw" => (r, inl boom)
    | _ => (r, inr VUndefined)
    end;
  replace := fun text m v => replaceFirst text m (showValue v)
|}.

(** An engine whose programs [stop] and [stop and throw] stop the
    instance, the second one throwing [boom] besides. *)
Definition stoppingEngine : JsEngine := {|
  eval := fun req r =>
    match code req with
    | Some "stop" => (set_isStopped true r, inr VUndefined)
    | Some "stop and throw" => (set_isStopped true r, inl boom)
    | _ => (r, inr VUndefined)
    end;
  replace := fun text _ _ => text
|}.

Definition codeStep (id : nat) (line : N) (txt program : string) : Step :=
  {| sid := id; filename := Some "test.smash"; lineNumber := line; text := txt;
     branchIndents := 0; isFunctionCall := false; isHook := false;
     isPackaged := false; isBeforeDebug := false; isAfterDebug := false;
     isExpectedFail := false; codeBlock := Some program;
     functionDeclarationText := EmptyString; varsBeingSet := [];
     declaration := (None, 0%N) |}.

(** The branch [say {y}] then [{y}='world']. *)
Definition readsYGlobal : Step := plainStep 1 1 0 "say {y}".
Definition setsYGlobal : Step := assignStep 2 2 0 "{y}='world'" (mkVar "y" "'world'" false).

(** The step [{a}='{a}']. *)
Definition setsAToItself : Step := assignStep 1 1 0 "{a}='{a}'" (mkVar "a" "'{a}'" false).

(** The step [{x}='hi', {y}='there']. *)
Definition setsTwo : Step :=
  {| sid := 1; filename := Some "test.smash"; lineNumber := 1;
     text := "{x}='hi', {y}='there'";
     branchIndents := 0; isFunctionCall := false; isHook := false;
     isPackaged := false; isBeforeDebug := false; isAfterDebug := false;
     isExpectedFail := false; codeBlock := None;
     functionDeclarationText := EmptyString;
     varsBeingSet := [mkVar "x" "'hi'" false; mkVar "y" "'there'" false];
     declaration := (None, 0%N) |}.

Definition smallStackStart : string :=
  "Error: oops" +:+ String newline "    ".

Definition smallError : ErrorObj :=
  {| e_name := "Error"; e_message := "oops";
     e_stack := smallStackStart +:+ "at CodeBlock" +:+ "_for_Open (eval at evalCodeBlock), "
                +:+ "<anonymous>:" +:+ "5" +:+ ":3)";
     e_filename := None; e_lineNumber := None; e_continue := false;
     e_msg := None; e_stackTrace := None |}.

(** * Properties *)

Section Properties.

Context {U : Utils} {K : Constants} {J : JsEngine} {T : Tree}.

(** *** LocalStack *)

Lemma Object_assign_empty (o : Frame) : Object_assign ∅ o = o.
Proof. unfold Object_assign. apply (right_id_L ∅ (∪)). Qed.

Lemma last_snoc_frame (l : list (option Frame)) (x : option Frame) :
  last (l ++ [x]) = Some x.
Proof. apply last_snoc. Qed.

Lemma popLocalStack_snoc (r : RunInstance) (saved : list (option Frame)) (top : option Frame) :
  localStack r = saved ++ [top] ->
  local (popLocalStack r) = top /\ localStack (popLocalStack r) = saved.
Proof.
  intros Hst. unfold popLocalStack. cbn. rewrite Hst.
  rewrite last_snoc_frame, removelast_last. auto.
Qed.

Lemma popLocalStack_length (r : RunInstance) :
  length (localStack (popLocalStack r)) = (length (localStack r) - 1)%nat.
Proof.
  unfold popLocalStack. cbn.
  destruct (localStack r) as [|x l] using rev_ind; [reflexivity|].
  rewrite removelast_last, length_app. cbn. lia.
Qed.

Lemma pushLocalStack_length (r : RunInstance) :
  length (localStack (pushLocalStack r)) = S (length (localStack r)).
Proof. unfold pushLocalStack. cbn. rewrite length_app. cbn. lia. Qed.

Lemma pushLocalStack_fields (r : RunInstance) :
  localStack (pushLocalStack r) = localStack r ++ [local r]
  /\ local (pushLocalStack r) = Some (localsPassedIntoFunc r)
  /\ localsPassedIntoFunc (pushLocalStack r) = ∅.
Proof.
  unfold pushLocalStack. cbn -[Object_assign].
  rewrite Object_assign_empty. auto.
Qed.

(** C7. pushLocalStack saves the current local frame on top of
    localStack, makes local a fresh frame holding exactly the bindings of
    localsPassedIntoFunc, and empties localsPassedIntoFunc; popLocalStack
    makes the most recently saved frame the local one and takes it off the
    stack. Neither touches the persistent or global namespace, and pop
    leaves localsPassedIntoFunc alone. With nothing saved, pop leaves the
    stack empty and local undefined. *)
Theorem pushLocalStack_popLocalStack_frames (r : RunInstance) :
  (localStack (pushLocalStack r) = localStack r ++ [local r]
   /\ local (pushLocalStack r) = Some (localsPassedIntoFunc r)
   /\ localsPassedIntoFunc (pushLocalStack r) = ∅
   /\ persistent (pushLocalStack r) = persistent r
   /\ global (pushLocalStack r) = global r)
  /\ (forall saved top,
        localStack r = saved ++ [top] ->
        local (popLocalStack r) = top
        /\ localStack (popLocalStack r) = saved
        /\ localsPassedIntoFunc (popLocalStack r) = localsPassedIntoFunc r
        /\ persistent (popLocalStack r) = persistent r
        /\ global (popLocalStack r) = global r)
  /\ (localStack r = [] ->
      local (popLocalStack r) = None /\ localStack (popLocalStack r) = []).
Proof.
  split; [|split].
  - destruct (pushLocalStack_fields r) as (H1 & H2 & H3).
    repeat split; auto.
  - intros saved top Hst.
    destruct (popLocalStack_snoc r saved top Hst) as [Hl Hs].
    repeat split; auto.
  - intros Hst. unfold popLocalStack. cbn. rewrite Hst. auto.
Qed.

(** Leaving a scope undoes entering it. *)
Lemma popLocalStack_pushLocalStack (r : RunInstance) :
  local (popLocalStack (pushLocalStack r)) = local r
  /\ localStack (popLocalStack (pushLocalStack r)) = localStack r.
Proof.
  apply popLocalStack_snoc.
  apply (proj1 (pushLocalStack_fields r)).
Qed.

(** *** Start of a branch *)

Lemma resetVariableState_fields (r : RunInstance) :
  global (resetVariableState r) = globalInit r
  /\ local (resetVariableState r) = Some ∅
  /\ localStack (resetVariableState r) = []
  /\ persistent (resetVariableState r) = persistent r.
Proof.
  unfold resetVariableState. cbn -[Object_assign].
  rewrite Object_assign_empty. auto.
Qed.

(** The reset forgets the global and local state it starts from. *)
Lemma resetVariableState_forgets (r : RunInstance) (g : Frame) (l : option Frame)
    (st : list (option Frame)) :
  resetVariableState (set_global g (set_local l (set_localStack st r)))
  = resetVariableState r.
Proof. reflexivity. Qed.

Lemma getPersistent_setPersistent (varname : string) (value : Value) (r : RunInstance) :
  getPersistent varname (setPersistent varname value r) = value.
Proof.
  unfold getPersistent, setPersistent, prop. cbn.
  destruct (decide (keepCaseCanonicalize varname = canonicalize varname)) as [->|Hne].
  - by rewrite lookup_insert_eq.
  - by rewrite lookup_insert_ne, lookup_insert_eq.
Qed.

Lemma getGlobal_setGlobal (varname : string) (value : Value) (r : RunInstance) :
  getGlobal varname (setGlobal varname value r) = value.
Proof.
  unfold getGlobal, setGlobal, prop. cbn.
  destruct (decide (keepCaseCanonicalize varname = canonicalize varname)) as [->|Hne].
  - by rewrite lookup_insert_eq.
  - by rewrite lookup_insert_ne, lookup_insert_eq.
Qed.

Lemma runBranches_resets (n depth : nat) (wasPaused overrideDebug : bool)
    (r : RunInstance) (b : Branch.t) :
  currBranch r = Some b -> isStopped r = false ->
  runBranches (S n) depth wasPaused overrideDebug r
  = runBranches (S n) depth wasPaused overrideDebug (resetVariableState r).
Proof.
  intros Hb Hs. cbn [runBranches]. unfold checkForStopped.
  change (currBranch (resetVariableState r)) with (currBranch r).
  change (isStopped (resetVariableState r)) with (isStopped r).
  rewrite Hb, Hs. reflexivity.
Qed.

(** The first Before Every Branch hook of a turn runs on the reset
    state; when it stops the instance, what it leaves is what the loop
    returns. *)
Lemma runBranches_first_hook (n depth : nat) (overrideDebug : bool) (r : RunInstance)
    (b : Branch.t) (s : Step) (hooks : list Step) :
  currBranch r = Some b -> isStopped r = false ->
  Branch.beforeEveryBranch b = Some (s :: hooks) ->
  isStopped (fst (runHookStep s None (Some b) false (resetVariableState r))) = true ->
  runBranches (S n) depth false overrideDebug r
  = fst (runHookStep s None (Some b) false (resetVariableState r)).
Proof.
  intros Hb Hs Hh Hstop. cbn [runBranches]. unfold checkForStopped.
  rewrite Hb, Hs, Hh. cbn [negb runBeforeEveryBranch].
  change (currBranch (resetVariableState r)) with (currBranch r). rewrite Hb.
  destruct (runHookStep s None (Some b) false (resetVariableState r)) as [r1 ok].
  cbn [fst] in *. unfold checkForStopped. rewrite Hstop. reflexivity.
Qed.

(** A branch that is complete already and has no hooks: the next branch
    is asked for from the reset state. *)
Lemma runBranches_complete (n depth : nat) (wasPaused overrideDebug : bool)
    (r : RunInstance) (b : Branch.t) :
  currBranch r = Some b -> isStopped r = false ->
  Branch.beforeEveryBranch b = None -> Branch.afterEveryBranch b = None ->
  Branch.isComplete b (branchState r (Branch.bid b)) = true ->
  runBranches (S n) depth wasPaused overrideDebug r
  = runBranches n depth wasPaused overrideDebug
      (set_currBranch (snd (nextBranch (resetVariableState r)))
         (fst (nextBranch (resetVariableState r)))).
Proof.
  intros Hb Hs Hh Ha Hc. cbn [runBranches]. unfold checkForStopped.
  rewrite Hb, Hs, Hh.
  change (branchState (resetVariableState r) (Branch.bid b))
    with (branchState r (Branch.bid b)).
  rewrite Hc. cbn [negb]. unfold runAfterEveryBranch.
  change (currBranch (resetVariableState r)) with (currBranch r). rewrite Hb, Ha.
  by destruct (nextBranch (resetVariableState r)) as [r1 b1].
Qed.


(** *** Logging after a stop *)

Lemma updStep_isStopped (s : nat) (f : StepState -> StepState) (r : RunInstance) :
  isStopped (updStep s f r) = isStopped r.
Proof. reflexivity. Qed.

Lemma Branch_stop_isStopped (b : Branch.t) (r : RunInstance) :
  isStopped (Branch_stop b r) = isStopped r.
Proof.
  unfold Branch_stop. revert r.
  induction (Branch.steps b) as [|s l IH]; intros r; cbn; [reflexivity|].
  rewrite IH. apply updStep_isStopped.
Qed.

Lemma stop_isStopped (r : RunInstance) : isStopped (stop r) = true.
Proof.
  unfold stop. cbn. destruct (currBranch r); [|reflexivity].
  rewrite Branch_stop_isStopped. reflexivity.
Qed.

Lemma appendToLog_stopped (text : string) (logHere : option LogTarget) (r : RunInstance) :
  isStopped r = true -> appendToLog text logHere r = r.
Proof.
  intros Hs. unfold appendToLog. rewrite Hs. by destruct logHere.
Qed.

(** C10. Once stop() has run, isStopped is set and every later call of
    appendToLog, whatever the text and the target, one call or many in a
    row, leaves the instance and with it every step's and branch's log as
    it was; and appendToLog without a target changes nothing either,
    stopped or not. *)
Theorem appendToLog_noop_after_stop (r : RunInstance) :
  isStopped (stop r) = true
  /\ (isStopped r = true -> forall text logHere, appendToLog text logHere r = r)
  /\ (forall text logHere, appendToLog text logHere (stop r) = stop r)
  /\ (forall calls : list (string * option LogTarget),
        fold_left (fun r c => appendToLog (fst c) (snd c) r) calls (stop r) = stop r)
  /\ (forall text logHere s b,
        log (stepState (appendToLog text logHere (stop r)) s) = log (stepState (stop r) s)
        /\ Branch.log (branchState (appendToLog text logHere (stop r)) b)
           = Branch.log (branchState (stop r) b))
  /\ (forall text, appendToLog text None r = r).
Proof.
  pose proof (stop_isStopped r) as Hs.
  split; [exact Hs|].
  split; [intros; by apply appendToLog_stopped|].
  split; [intros; by apply appendToLog_stopped|].
  split.
  { intros calls. induction calls as [|c calls IH]; cbn; [reflexivity|].
    by rewrite appendToLog_stopped. }
  split; [|reflexivity].
  intros text logHere s b. by rewrite appendToLog_stopped.
Qed.

(** *** Marking the result of a step *)

(** The call runStep makes to tree.markStep, argument by argument. *)
Lemma markResult_call (error : option ErrorObj) (step : Step) (branch : Branch.t)
    (r : RunInstance) :
  treeCalls (markResult error step branch r)
  = treeCalls r
    ++ [MarkStep (sid step) (Some (Branch.bid branch))
          (isNone error)
          (Bool.eqb (isExpectedFail step) (negb (isNone error)))
          (markedError error step)
          (Some (negb (isNone error)
                 && negb (errorContinue error || pauseOnFail r)))
          (Some true)].
Proof.
  unfold markResult, Tree_markStep, markedError.
  destruct error as [e|]; cbn [isNone negb andb].
  - rewrite andb_false_r.
    destruct (e_continue e || pauseOnFail r) eqn:Hc;
      cbn [errorContinue]; rewrite Hc; reflexivity.
  - rewrite andb_true_r. destruct (isExpectedFail step); reflexivity.
Qed.

Lemma executeStep_Returned (depth : nat) (step : Step) (branch : Branch.t)
    (r r' : RunInstance) :
  executeStep depth step branch r = (r', Returned) -> isStopped r' = true.
Proof.
  unfold executeStep.
  destruct (if isFunctionCall step then _ else _) as [r1 [e|]]; [discriminate|].
  destruct (if negb (isFunctionCall step) && _ && _ then _ else _) as [r2 [e|]];
    [discriminate|].
  destruct (hasCodeBlock step); [|discriminate].
  destruct (evalCodeBlock _ _ _ _ _ _) as [r3 [e|retVal]]; [discriminate|].
  destruct (match varsBeingSet step with [] => _ | _ => _ end) as [e|r4];
    [discriminate|].
  destruct (isStopped r4) eqn:Hs; [|discriminate].
  intros H. by inversion H; subst.
Qed.

Lemma runBeforeEveryStep_stopped (hooks : list Step) (step : Step) (branch : Branch.t)
    (r r' : RunInstance) :
  runBeforeEveryStep hooks step branch r = (r', true) -> isStopped r' = true.
Proof.
  revert r. induction hooks as [|h hooks IH]; intros r; cbn; [discriminate|].
  destruct (runHookStep h (Some step) (Some branch) false r) as [r'' ok].
  destruct (isStopped r'') eqn:Hs.
  - intros H. by inversion H; subst.
  - destruct (isFailed (stepState r'' (sid step))); [discriminate|]. apply IH.
Qed.

(** Whatever runStep does, it marks the step through [markResult] or
    not at all: either it paused at the before-debug gate, or a stop cut it
    short, or a Before Every Step hook had already failed the step, or the
    step was marked with the error caught (none if none was thrown, or if
    the instance was stopped meanwhile). *)
Lemma runStep_cases (depth : nat) (step : Step) (branch : Branch.t)
    (overrideDebug : bool) (r : RunInstance) :
  runStep depth step branch overrideDebug r = setPause true r
  \/ isStopped (runStep depth step branch overrideDebug r) = true
  \/ (exists r1, isFailed (stepState r1 (sid step)) = true
                 /\ runStep depth step branch overrideDebug r
                    = finishStep step branch overrideDebug r1)
  \/ (exists error r1,
        runStep depth step branch overrideDebug r
        = finishStep step branch overrideDebug (markResult error step branch r1)
        /\ (error = None
            \/ exists e inCodeBlock,
                 isStopped r1 = false
                 /\ error = Some (fillErrorFromStep e step inCodeBlock))).
Proof.
  unfold runStep.
  destruct (isBeforeDebug step && negb overrideDebug); [by left|].
  right.
  set (r0 := updStep (sid step) resetResult (set_stepsRan (stepsRan r ++ [step]) r)).
  destruct (match Branch.beforeEveryStep branch with
            | Some hooks => runBeforeEveryStep hooks step branch r0
            | None => (r0, false)
            end) as [r1 stopped] eqn:Hb.
  destruct stopped.
  { left. destruct (Branch.beforeEveryStep branch) as [hooks|]; [|by inversion Hb].
    by apply runBeforeEveryStep_stopped in Hb. }
  destruct (isFailed (stepState r1 (sid step))) eqn:Hf; cbn [negb].
  { right. left. by exists r1. }
  destruct (executeStep depth step branch
              (scopeTransition (prevStepOf step branch) step r1)) as [r2 out] eqn:He.
  destruct out as [| |e inCodeBlock].
  - right. right. exists None, r2. auto.
  - left. by apply executeStep_Returned in He.
  - right. right. destruct (isStopped r2) eqn:Hs; cbn [negb].
    + exists None, r2. auto.
    + exists (Some (fillErrorFromStep e step inCodeBlock)), r2.
      split; [reflexivity|]. right. by exists e, inCodeBlock.
Qed.

Lemma fillErrorFromStep_continue (e : ErrorObj) (step : Step) (inCodeBlock : bool) :
  e_continue (fillErrorFromStep e step inCodeBlock) = e_continue e.
Proof.
  unfold fillErrorFromStep.
  destruct (isFunctionCall step && inCodeBlock && negb (isHook step)
            && negb (isPackaged step));
    destruct (inCodeBlock && negb (isPackaged step)); try reflexivity;
    cbn [e_stack set_e_location];
    destruct (codeBlockFrames (e_stack e)) as [|m ms]; try reflexivity;
    destruct (trailingDigits m); reflexivity.
Qed.

(** Without After Every Step hooks the end of runStep calls the tree no
    more. *)
Lemma finishStep_no_hooks (step : Step) (branch : Branch.t) (overrideDebug : bool)
    (r : RunInstance) :
  Branch.afterEveryStep branch = None ->
  treeCalls (finishStep step branch overrideDebug r) = treeCalls r.
Proof.
  intros Hn. unfold finishStep. rewrite Hn.
  destruct (pauseOnFail r && _); destruct (isAfterDebug step && negb overrideDebug);
    reflexivity.
Qed.

(** A step that a Before Every Step hook has failed is not executed and
    not marked again. *)
Lemma runStep_hook_failed (depth : nat) (step : Step) (branch : Branch.t)
    (overrideDebug : bool) (r r1 : RunInstance) :
  isBeforeDebug step && negb overrideDebug = false ->
  beforeStep step branch r = (r1, false) ->
  isFailed (stepState r1 (sid step)) = true ->
  runStep depth step branch overrideDebug r = finishStep step branch overrideDebug r1.
Proof.
  intros Hd Hb Hf. unfold runStep. rewrite Hd.
  unfold beforeStep in Hb. cbn zeta in *. rewrite Hb, Hf. reflexivity.
Qed.

(** A step that is executed, and does not return on a stop, is marked
    with the error caught. *)
Lemma runStep_executed (depth : nat) (step : Step) (branch : Branch.t)
    (overrideDebug : bool) (r r1 r2 : RunInstance) (out : Outcome) :
  isBeforeDebug step && negb overrideDebug = false ->
  beforeStep step branch r = (r1, false) ->
  isFailed (stepState r1 (sid step)) = false ->
  executeStep depth step branch (scopeTransition (prevStepOf step branch) step r1)
  = (r2, out) ->
  match out with
  | Returned => runStep depth step branch overrideDebug r = r2
  | _ =>
      marksWith depth step branch overrideDebug r r2 (caught out step r2)
        (MarkStep (sid step) (Some (Branch.bid branch))
           (isNone (caught out step r2))
           (Bool.eqb (isExpectedFail step) (negb (isNone (caught out step r2))))
           (markedError (caught out step r2) step)
           (Some (negb (isNone (caught out step r2))
                  && negb (errorContinue (caught out step r2) || pauseOnFail r2)))
           (Some true))
  end.
Proof.
  intros Hd Hb Hf He.
  assert (Hrun : runStep depth step branch overrideDebug r
                 = match out with
                   | Returned => r2
                   | _ => finishStep step branch overrideDebug
                            (markResult (caught out step r2) step branch r2)
                   end).
  { unfold runStep. rewrite Hd.
    unfold beforeStep in Hb. cbn zeta in *. rewrite Hb, Hf. cbn [negb].
    rewrite He. destruct out as [| |e inCodeBlock]; reflexivity. }
  destruct out as [| |e inCodeBlock]; [|exact Hrun|].
  - split; [exact Hrun|]. split; [apply markResult_call|].
    intros Hn. by rewrite Hrun, finishStep_no_hooks, markResult_call.
  - split; [exact Hrun|]. split; [apply markResult_call|].
    intros Hn. by rewrite Hrun, finishStep_no_hooks, markResult_call.
Qed.

(** The one call a failing hook of a step makes to tree.markStep. *)
Lemma runHookStep_call (hook step : Step) (branch : option Branch.t) (isSync : bool)
    (r0 r' : RunInstance) (e : ErrorObj) :
  evalCodeBlock (codeBlock hook) (text hook) (lineNumber hook)
    (Some (ToStep (sid step))) isSync r0 = (r', inl e) ->
  exists err,
    treeCalls (fst (runHookStep hook (Some step) branch isSync r0))
    = treeCalls r' ++ [MarkStep (sid step) None false false err None None].
Proof.
  intros He. unfold runHookStep. cbn [targetOf]. rewrite He.
  eexists. destruct branch as [b|]; reflexivity.
Qed.


Lemma stepState_updStep_eq (s : nat) (f : StepState -> StepState) (r : RunInstance) :
  stepState (updStep s f r) s = f (stepState r s).
Proof. unfold stepState at 1, updStep. cbn. by rewrite lookup_insert_eq. Qed.

Lemma stepState_updBranch (b s : nat) (f : Branch.State -> Branch.State) (r : RunInstance) :
  stepState (updBranch b f r) s = stepState r s.
Proof. reflexivity. Qed.

Lemma branchState_updBranch_eq (b : nat) (f : Branch.State -> Branch.State) (r : RunInstance) :
  branchState (updBranch b f r) b = f (branchState r b).
Proof. unfold branchState at 1, updBranch. cbn. by rewrite lookup_insert_eq. Qed.

Lemma branchState_updStep (s b : nat) (f : StepState -> StepState) (r : RunInstance) :
  branchState (updStep s f r) b = branchState r b.
Proof. reflexivity. Qed.

(** What the marking of tree.markStep leaves on the step. *)
Lemma Tree_markStep_step (step : Step) (branch : option Branch.t) (passed asExp : bool)
    (err : option ErrorObj) (fbn cof : option bool) (r : RunInstance) :
  let st := stepState (Tree_markStep step branch passed asExp err fbn cof r) (sid step) in
  isPassed st = passed /\ isFailed st = negb passed /\ asExpected st = Some asExp
  /\ error st = match err with
                | Some e => Some (set_e_report e)
                | None => error (stepState r (sid step))
                end.
Proof.
  unfold Tree_markStep.
  assert (Hst : forall r', stepState
            (match branch, fbn with
             | Some b, Some true => Branch_finishOffBranch b r'
             | _, _ => r'
             end) (sid step) = stepState r' (sid step)).
  { intros r'. destruct branch as [b|]; [|reflexivity].
    destruct fbn as [[|]|]; reflexivity. }
  cbn zeta. rewrite Hst, stepState_updStep_eq. cbn. auto.
Qed.


(** *** Scope transition *)

Lemma iter_popLocalStack_length (k : nat) (r : RunInstance) :
  length (localStack (Nat.iter k popLocalStack r)) = (length (localStack r) - k)%nat.
Proof.
  induction k as [|k IH].
  - cbn. lia.
  - change (Nat.iter (S k) popLocalStack r)
      with (popLocalStack (Nat.iter k popLocalStack r)).
    rewrite popLocalStack_length, IH. lia.
Qed.

Lemma indexOf_app_fresh (c : Step) (pre rest : list Step) :
  Forall (fun s => sid s <> sid c) pre ->
  indexOf c (pre ++ c :: rest) = Some (length pre).
Proof.
  induction 1 as [|s pre Hs _ IH]; cbn.
  - by rewrite Nat.eqb_refl.
  - apply Nat.eqb_neq in Hs. rewrite Hs, IH. reflexivity.
Qed.

(** The previous step of runStep is the one just before in the branch. *)
Lemma prevStepOf_adjacent (p c : Step) (branch : Branch.t) (pre post : list Step) :
  Branch.steps branch = pre ++ p :: c :: post ->
  Forall (fun s => sid s <> sid c) (pre ++ [p]) ->
  prevStepOf c branch = Some p.
Proof.
  intros Hsteps Hfresh. unfold prevStepOf. rewrite Hsteps.
  replace (pre ++ p :: c :: post) with ((pre ++ [p]) ++ c :: post)
    by (by rewrite <- app_assoc).
  rewrite indexOf_app_fresh by done.
  rewrite length_app. cbn [length]. rewrite Nat.add_1_r.
  rewrite <- app_assoc. cbn [app].
  by rewrite list_lookup_middle.
Qed.

(** C5. For adjacent steps p and c of a branch, the scope transition of
    runStep at c works on localStack as follows. If c is indented deeper
    than p it pushes once, unless p was a function call with a code block,
    in which case stack and local frame stay as they are. If c is indented
    less than p it pops exactly p.branchIndents - c.branchIndents times. If
    both are indented alike it pops once when p was a function call with a
    code block and otherwise leaves stack and local frame as they are. In
    every case localsPassedIntoFunc is empty afterwards. A pop from an
    empty stack leaves it empty, so the depth goes down by the number of
    pops or to zero. *)
Theorem scopeTransition_depth (p c : Step) (branch : Branch.t)
    (pre post : list Step) (r : RunInstance) :
  Branch.steps branch = pre ++ p :: c :: post ->
  Forall (fun s => sid s <> sid c) (pre ++ [p]) ->
  let prevStepWasACodeBlockFunc := isFunctionCall p && hasCodeBlock p in
  let r' := scopeTransition (prevStepOf c branch) c r in
  localsPassedIntoFunc r' = ∅
  /\ (branchIndents p < branchIndents c ->
      if prevStepWasACodeBlockFunc
      then localStack r' = localStack r /\ local r' = local r
      else r' = pushLocalStack r
           /\ length (localStack r') = S (length (localStack r)))
  /\ (branchIndents c < branchIndents p ->
      r' = set_localsPassedIntoFunc ∅
             (Nat.iter (branchIndents p - branchIndents c) popLocalStack r)
      /\ length (localStack r')
         = length (localStack r) - (branchIndents p - branchIndents c))
  /\ (branchIndents c = branchIndents p ->
      if prevStepWasACodeBlockFunc
      then r' = set_localsPassedIntoFunc ∅ (popLocalStack r)
           /\ length (localStack r') = length (localStack r) - 1
      else localStack r' = localStack r /\ local r' = local r).
Proof.
  intros Hsteps Hfresh fn r'. subst r'.
  rewrite (prevStepOf_adjacent p c branch pre post Hsteps Hfresh).
  unfold scopeTransition. fold fn.
  split; [reflexivity|].
  split; [|split].
  - intros Hlt. apply Nat.ltb_lt in Hlt. rewrite Hlt.
    destruct fn; cbn [negb]; [by split|].
    split; [reflexivity|]. cbn [localStack set_localsPassedIntoFunc].
    apply pushLocalStack_length.
  - intros Hlt.
    assert (Hge : (branchIndents p <? branchIndents c)%nat = false)
      by (apply Nat.ltb_ge; lia).
    apply Nat.ltb_lt in Hlt. rewrite Hge, Hlt.
    split; [reflexivity|]. cbn [localStack set_localsPassedIntoFunc].
    apply iter_popLocalStack_length.
  - intros Heq. rewrite Heq, Nat.ltb_irrefl.
    destruct fn; [|by split].
    split; [reflexivity|]. cbn [localStack set_localsPassedIntoFunc].
    apply popLocalStack_length.
Qed.

(** *** Hook failures *)

Lemma runHookStep_throw (hook : Step) (stepToGetError : option Step)
    (branchToGetError : option Branch.t) (isSync : bool) (r r1 : RunInstance)
    (e : ErrorObj) :
  evalCodeBlock (codeBlock hook) (text hook) (lineNumber hook)
                (targetOf stepToGetError branchToGetError) isSync r = (r1, inl e) ->
  runHookStep hook stepToGetError branchToGetError isSync r
  = (let e := fillErrorFromStep e hook true in
     match stepToGetError with
     | Some s =>
         let r := Tree_markStep s None false false
                    (match error (stepState r1 (sid s)) with
                     | Some _ => None
                     | None => Some e
                     end) None None r1 in
         match branchToGetError with
         | Some b => updBranch (Branch.bid b) (Branch.markBranch false None) r
         | None => r
         end
     | None =>
         match branchToGetError with
         | Some b =>
             updBranch (Branch.bid b)
               (Branch.markBranch false
                  (match Branch.error (branchState r1 (Branch.bid b)) with
                   | Some _ => None
                   | None => Some e
                   end)) r1
         | None => r1
         end
     end, false).
Proof. intros He. unfold runHookStep. rewrite He. reflexivity. Qed.

(** C9. When a hook run by runHookStep throws, the failure goes to the
    branch if no step is named: the branch is marked failed, and its error
    stays the one already recorded if there is one (only an empty error
    field takes the new error). If a step is named the step is marked
    failed and, likewise, keeps an error it already has (tree.markStep is
    called without an error then); the branch, if given too, is marked
    failed and its error field is left as it is.
    "Already recorded" is read when the failure is caught, after the
    hook's code ran. *)
Theorem runHookStep_first_error_wins (hook : Step) (stepToGetError : option Step)
    (branchToGetError : option Branch.t) (isSync : bool) (r r1 : RunInstance)
    (e : ErrorObj) :
  evalCodeBlock (codeBlock hook) (text hook) (lineNumber hook)
                (targetOf stepToGetError branchToGetError) isSync r = (r1, inl e) ->
  let r' := fst (runHookStep hook stepToGetError branchToGetError isSync r) in
  snd (runHookStep hook stepToGetError branchToGetError isSync r) = false
  /\ (forall b, stepToGetError = None -> branchToGetError = Some b ->
        Branch.isFailed (branchState r' (Branch.bid b)) = true
        /\ Branch.isPassed (branchState r' (Branch.bid b)) = false
        /\ (forall e0, Branch.error (branchState r1 (Branch.bid b)) = Some e0 ->
              Branch.error (branchState r' (Branch.bid b)) = Some e0)
        /\ (Branch.error (branchState r1 (Branch.bid b)) = None ->
              Branch.error (branchState r' (Branch.bid b))
              = Some (set_e_report (fillErrorFromStep e hook true))))
  /\ (forall s, stepToGetError = Some s ->
        isFailed (stepState r' (sid s)) = true
        /\ (forall e0, error (stepState r1 (sid s)) = Some e0 ->
              treeCalls r' = treeCalls r1 ++ [MarkStep (sid s) None false false None None None]
              /\ error (stepState r' (sid s)) = Some e0)
        /\ (error (stepState r1 (sid s)) = None ->
              error (stepState r' (sid s))
              = Some (set_e_report (fillErrorFromStep e hook true)))
        /\ (forall b, branchToGetError = Some b ->
              Branch.isFailed (branchState r' (Branch.bid b)) = true
              /\ Branch.error (branchState r' (Branch.bid b))
                 = Branch.error (branchState r1 (Branch.bid b)))).
Proof.
  intros He r'. subst r'.
  rewrite (runHookStep_throw _ _ _ _ _ _ _ He). cbn [fst snd].
  split; [reflexivity|]. split.
  - intros b -> ->. rewrite branchState_updBranch_eq. cbn.
    split; [reflexivity|]. split; [reflexivity|]. split.
    + by intros e0 ->.
    + by intros ->.
  - intros s ->.
    assert (Hstep : forall r2,
              stepState (match branchToGetError with
                         | Some b => updBranch (Branch.bid b) (Branch.markBranch false None) r2
                         | None => r2
                         end) (sid s) = stepState r2 (sid s))
      by (intros r2; by destruct branchToGetError).
    rewrite Hstep.
    pose proof (Tree_markStep_step s None false false
                  (match error (stepState r1 (sid s)) with
                   | Some _ => None
                   | None => Some (fillErrorFromStep e hook true)
                   end) None None r1) as (_ & Hf & _ & Herr).
    split; [exact Hf|]. split; [|split].
    + intros e0 H0. split; [|rewrite Herr, H0; reflexivity].
      rewrite H0. by destruct branchToGetError.
    + intros H0. rewrite Herr, H0. reflexivity.
    + intros b ->. rewrite branchState_updBranch_eq. cbn.
      split; reflexivity.
Qed.

(** *** Variable resolution *)

Lemma findVarValue_truthy (depth : nat) (varname : string) (isLocal : bool)
    (step : Step) (branch : option Branch.t) (r : RunInstance) (v : Value) :
  assignedValue varname isLocal r = inr v -> truthy v = true ->
  findVarValue depth varname isLocal step branch r = (r, inr v).
Proof.
  unfold assignedValue. intros Hv Ht.
  destruct depth; cbn [findVarValue]; rewrite Hv, Ht; reflexivity.
Qed.

Lemma findVarValue_no_setter (depth : nat) (varname : string) (isLocal : bool)
    (step : Step) (branch : Branch.t) (r : RunInstance) (v : Value) (index : nat) :
  assignedValue varname isLocal r = inr v -> truthy v = false ->
  indexOf step (Branch.steps branch) = Some index ->
  laterSetter varname isLocal step (drop index (Branch.steps branch)) = None ->
  findVarValue depth varname isLocal step (Some branch) r
  = (r, inl (VarNotSet varname isLocal)).
Proof.
  unfold assignedValue. intros Hv Ht Hi Hl.
  destruct depth; cbn [findVarValue]; rewrite Hv, Ht, Hi, Hl; reflexivity.
Qed.

(** The scan for a local variable ends at the first step indented less
    than the one it started from: what lies there and beyond plays no
    part. *)
Lemma laterSetter_scope_exit (varname : string) (step s' : Step) (pre post : list Step) :
  branchIndents s' < branchIndents step ->
  laterSetter varname true step (pre ++ s' :: post) = laterSetter varname true step pre.
Proof.
  intros Hlt. induction pre as [|s pre IH]; cbn [laterSetter app andb].
  - apply Nat.ltb_lt in Hlt. by rewrite Hlt.
  - destruct (branchIndents s <? branchIndents step)%nat; [reflexivity|].
    destruct (settingOf varname true (varsBeingSet s)); [reflexivity|]. exact IH.
Qed.

Lemma laterSetter_none (varname : string) (isLocal : bool) (step : Step) (l : list Step) :
  Forall (fun s => settingOf varname isLocal (varsBeingSet s) = None) l ->
  laterSetter varname isLocal step l = None.
Proof.
  induction 1 as [|s l Hs _ IH]; cbn [laterSetter]; [reflexivity|].
  rewrite Hs, IH. by destruct (isLocal && _).
Qed.

(** C6. A forward scan of findVarValue for a local variable, started at
    [step], goes through the later steps in branch order and ends without
    a match at the first step indented strictly less than [step]: the scan
    gives the same result whatever that step sets and whatever follows it,
    and when no step before it sets the variable the call fails with
    VarNotSet, the instance unchanged. *)
Theorem findVarValue_local_scope_exit (depth : nat) (varname : string)
    (step : Step) (branch : Branch.t) (r : RunInstance) (v : Value) (index : nat)
    (pre post : list Step) (s' : Step) :
  getLocal varname r = inr v -> truthy v = false ->
  indexOf step (Branch.steps branch) = Some index ->
  drop index (Branch.steps branch) = pre ++ s' :: post ->
  branchIndents s' < branchIndents step ->
  (forall s'' post',
      branchIndents s'' < branchIndents step ->
      laterSetter varname true step (pre ++ s'' :: post')
      = laterSetter varname true step (pre ++ s' :: post))
  /\ laterSetter varname true step (pre ++ s' :: post)
     = laterSetter varname true step pre
  /\ (Forall (fun s => settingOf varname true (varsBeingSet s) = None) pre ->
      findVarValue depth varname true step (Some branch) r
      = (r, inl (VarNotSet varname true))).
Proof.
  intros Hv Ht Hi Hd Hlt. split; [|split].
  - intros s'' post' Hlt'. by rewrite !laterSetter_scope_exit.
  - by apply laterSetter_scope_exit.
  - intros Hpre. apply findVarValue_no_setter with v index; try done.
    rewrite Hd, laterSetter_scope_exit by done.
    by apply laterSetter_none.
Qed.

(** A variable whose assigned value is truthy is returned at once: no
    step is scanned, nothing is logged or evaluated, and no error is
    raised. *)
Lemma findVarValue_assigned_truthy (depth : nat) (varname : string) (isLocal : bool)
    (step : Step) (branch : option Branch.t) (r : RunInstance) (v : Value) :
  assignedValue varname isLocal r = inr v -> truthy v = true ->
  findVarValue depth varname isLocal step branch r = (r, inr v).
Proof. apply findVarValue_truthy. Qed.

(** C2. A variable that is assigned, but to the empty string, to 0 or
    to false, is not returned by findVarValue: with [{x}] set to such a
    value and no step from the current one on setting it again, the call
    raises VarNotSet. Here the branch is [{x}=''] followed by
    [say {x}], and the lookup is made at the second step. *)
Theorem findVarValue_falsy_value_never_set (depth : nat) :
  Forall (fun v =>
            assignedValue "x" false (setGlobal "x" v emptyInstance) = inr v
            /\ findVarValue depth "x" false readsX (Some (branchOf 0 [setsX; readsX]))
                 (setGlobal "x" v emptyInstance)
               = (setGlobal "x" v emptyInstance, inl (VarNotSet "x" false)))
         [VStr EmptyString; VNum 0; VBool false].
Proof.
  assert (Hone : forall v, truthy v = false ->
            assignedValue "x" false (setGlobal "x" v emptyInstance) = inr v
            /\ findVarValue depth "x" false readsX (Some (branchOf 0 [setsX; readsX]))
                 (setGlobal "x" v emptyInstance)
               = (setGlobal "x" v emptyInstance, inl (VarNotSet "x" false))).
  { intros v Hv.
    assert (Ha : assignedValue "x" false (setGlobal "x" v emptyInstance) = inr v)
      by (unfold assignedValue; f_equal; apply getGlobal_setGlobal).
    split; [exact Ha|].
    by apply findVarValue_no_setter with v 1%nat. }
  repeat constructor; by apply Hone.
Qed.

(** *** Error locations *)

Lemma append_assoc (a b c : string) : (a +:+ b) +:+ c = a +:+ (b +:+ c).
Proof.
  induction a as [|x a IH]; [reflexivity|].
  change (String x ((a +:+ b) +:+ c) = String x (a +:+ (b +:+ c))).
  by rewrite IH.
Qed.

Lemma append_length (a b : string) :
  String.length (a +:+ b) = (String.length a + String.length b)%nat.
Proof.
  induction a as [|x a IH]; [reflexivity|].
  change (S (String.length (a +:+ b)) = S (String.length a + String.length b)).
  by rewrite IH.
Qed.

Lemma stripPrefix_Some (p s rest : string) :
  stripPrefix p s = Some rest -> s = p +:+ rest.
Proof.
  revert s. induction p as [|a p IH]; intros s; cbn.
  - by intros [= ->].
  - destruct s as [|b s]; [discriminate|].
    destruct (Ascii.eqb_spec a b) as [->|]; [|discriminate].
    intros H. by rewrite (IH _ H).
Qed.

Lemma spanDigits_spec (s d rest : string) :
  spanDigits s = (d, rest) -> s = d +:+ rest /\ allDigits d = true.
Proof.
  revert d rest. induction s as [|c s IH]; intros d rest; cbn.
  - by intros [= <- <-].
  - destruct (isDigit c) eqn:Hc.
    + destruct (spanDigits s) as [d' rest'].
      intros [= <- <-]. destruct (IH _ _ eq_refl) as [-> Hd].
      cbn. by rewrite Hc, Hd.
    + by intros [= <- <-].
Qed.

Lemma anonymousHere_Some (s d rest : string) :
  anonymousHere s = Some (d, rest) ->
  s = "<anonymous>:" +:+ d +:+ rest /\ d <> EmptyString /\ allDigits d = true.
Proof.
  unfold anonymousHere.
  destruct (stripPrefix "<anonymous>:" s) as [r|] eqn:Hp; [|discriminate].
  apply stripPrefix_Some in Hp.
  destruct (spanDigits r) as [d' rest'] eqn:Hs.
  apply spanDigits_spec in Hs as [-> Hd].
  destruct d' as [|c d']; [discriminate|].
  intros [= <- <-]. by rewrite Hp.
Qed.

Lemma lineThenAnonymous_Some (s body d rest : string) :
  lineThenAnonymous s = Some (body, d, rest) ->
  s = body +:+ "<anonymous>:" +:+ d +:+ rest
  /\ noNewline body = true /\ d <> EmptyString /\ allDigits d = true.
Proof.
  revert body. induction s as [|c s IH]; intros body; [discriminate|].
  cbn [lineThenAnonymous].
  assert (Hhere : match anonymousHere (String c s) with
                  | Some (d0, rest0) => Some (EmptyString, d0, rest0)
                  | None => None
                  end = Some (body, d, rest) ->
                  String c s = body +:+ "<anonymous>:" +:+ d +:+ rest
                  /\ noNewline body = true /\ d <> EmptyString /\ allDigits d = true).
  { destruct (anonymousHere (String c s)) as [[d0 rest0]|] eqn:Ha; [|discriminate].
    intros [= <- <- <-]. apply anonymousHere_Some in Ha as (-> & ? & ?). auto. }
  destruct (isNewline c) eqn:Hc; [exact Hhere|].
  destruct (lineThenAnonymous s) as [[[body' d'] rest']|]; [|exact Hhere].
  intros [= <- <- <-]. destruct (IH _ eq_refl) as (-> & Hn & ? & ?).
  cbn [noNewline]. rewrite Hc, Hn. auto.
Qed.

Lemma codeBlockFrameHere_Some (s m : string) :
  codeBlockFrameHere s = Some m ->
  exists d rest, isCodeBlockFrame m d /\ s = m +:+ rest.
Proof.
  unfold codeBlockFrameHere.
  destruct (stripPrefix "at CodeBlock" s) as [[|c t]|] eqn:Hp; try discriminate.
  apply stripPrefix_Some in Hp.
  destruct (isNewline c) eqn:Hc; [discriminate|].
  destruct (lineThenAnonymous t) as [[[body d] rest]|] eqn:Hl; [|discriminate].
  apply lineThenAnonymous_Some in Hl as (-> & Hn & Hd & Hall).
  intros [= <-]. exists d, rest. split.
  - exists (String c body). repeat split; try done.
    cbn [noNewline]. by rewrite Hc, Hn.
  - rewrite Hp, !append_assoc. reflexivity.
Qed.

Lemma matchCodeBlockFrames_skip (x rest : string) :
  matchCodeBlockFrames (String.length x) (x +:+ rest) = matchCodeBlockFrames 0 rest.
Proof. induction x as [|c x IH]; [reflexivity|]. exact IH. Qed.

(** The first match of the frame pattern is the leftmost piece of the
    stack of that form, and the later matches are those of what follows
    it. *)
Lemma codeBlockFrames_first (stack m : string) (ms : list string) :
  codeBlockFrames stack = m :: ms ->
  exists d pre rest,
    isCodeBlockFrame m d
    /\ stack = pre +:+ m +:+ rest
    /\ ms = codeBlockFrames rest
    /\ (forall a b, pre = a +:+ b -> b <> EmptyString ->
          codeBlockFrameHere (b +:+ m +:+ rest) = None).
Proof.
  unfold codeBlockFrames.
  induction stack as [|c t IH]; [discriminate|].
  cbn [matchCodeBlockFrames].
  destruct (codeBlockFrameHere (String c t)) as [m'|] eqn:Hh.
  - intros [= -> <-].
    destruct (codeBlockFrameHere_Some _ _ Hh) as (d & rest & Hm & Hs).
    exists d, EmptyString, rest. split; [exact Hm|].
    split; [exact Hs|]. split.
    + destruct m as [|c' m0].
      { destruct Hm as (body & Hm & _). discriminate. }
      injection Hs as _ ->.
      replace (String.length (String c' m0) - 1)%nat with (String.length m0)
        by (cbn [String.length]; lia).
      apply matchCodeBlockFrames_skip.
    + intros [|x a] b Hab Hb; [|discriminate]. by destruct b.
  - intros Ht. destruct (IH Ht) as (d & pre & rest & Hm & -> & Hms & Hnone).
    exists d, (String c pre), rest. repeat split; try done.
    intros [|x a] b Hab Hb.
    + change (String c pre = b) in Hab. subst b. exact Hh.
    + change (String c pre = String x (a +:+ b)) in Hab.
      injection Hab as _ Hab. by apply Hnone with a.
Qed.

Lemma allDigits_colon (x d : string) : allDigits (x +:+ String ":" d) = false.
Proof.
  induction x as [|c x IH]; [reflexivity|].
  change (isDigit c && allDigits (x +:+ String ":" d) = false).
  rewrite IH. apply andb_false_r.
Qed.

Lemma trailingDigits_digits (d : string) :
  d <> EmptyString -> allDigits d = true -> trailingDigits d = Some d.
Proof. intros Hd Hall. destruct d; [done|]. cbn [trailingDigits]. by rewrite Hall. Qed.

Lemma trailingDigits_colon (x d : string) :
  d <> EmptyString -> allDigits d = true ->
  trailingDigits (x +:+ String ":" d) = Some d.
Proof.
  intros Hd Hall. induction x as [|c x IH].
  - change (trailingDigits d = Some d). by apply trailingDigits_digits.
  - change (trailingDigits (String c (x +:+ String ":" d)) = Some d).
    cbn [trailingDigits].
    change (String c (x +:+ String ":" d)) with (String c x +:+ String ":" d).
    rewrite allDigits_colon. exact IH.
Qed.

(** A matched frame carries the number after its [<anonymous>:]. *)
Lemma trailingDigits_frame (m d : string) :
  isCodeBlockFrame m d -> trailingDigits m = Some d.
Proof.
  intros (body & -> & _ & _ & Hd & Hall).
  replace ("at CodeBlock" +:+ body +:+ "<anonymous>:" +:+ d)
    with (("at CodeBlock" +:+ body +:+ "<anonymous>") +:+ String ":" d).
  - by apply trailingDigits_colon.
  - rewrite !append_assoc. reflexivity.
Qed.

Lemma fillErrorFromStep_stack (e : ErrorObj) (step : Step) (inCodeBlock : bool) :
  e_stack (fillErrorFromStep e step inCodeBlock) = e_stack e.
Proof.
  unfold fillErrorFromStep.
  destruct (isFunctionCall step && inCodeBlock && negb (isHook step)
            && negb (isPackaged step));
    destruct (inCodeBlock && negb (isPackaged step)); try reflexivity;
    cbn [e_stack set_e_location];
    destruct (codeBlockFrames (e_stack e)) as [|m ms]; try reflexivity;
    destruct (trailingDigits m); reflexivity.
Qed.

(** C1. For an error thrown inside a code block of a step that is not
    packaged, when the stack holds at least one frame of the form
    [at CodeBlock...<anonymous>:N], fillErrorFromStep sets lineNumber to
    the N of the first such frame, the one nearest the top of the stack
    (and within that frame's line to the N after its last
    [<anonymous>:]). *)
Theorem fillErrorFromStep_first_frame (e : ErrorObj) (step : Step) (m : string)
    (ms : list string) :
  isPackaged step = false ->
  codeBlockFrames (e_stack e) = m :: ms ->
  exists d pre rest,
    isCodeBlockFrame m d
    /\ e_stack e = pre +:+ m +:+ rest
    /\ (forall a b, pre = a +:+ b -> b <> EmptyString ->
          codeBlockFrameHere (b +:+ m +:+ rest) = None)
    /\ ms = codeBlockFrames rest
    /\ e_lineNumber (fillErrorFromStep e step true) = Some (parseInt d).
Proof.
  intros Hp Hm.
  destruct (codeBlockFrames_first _ _ _ Hm) as (d & pre & rest & Hf & Hs & Hms & Hnone).
  exists d, pre, rest. repeat split; try done.
  unfold fillErrorFromStep. rewrite Hp. cbn [negb andb].
  destruct (isFunctionCall step && true && negb (isHook step) && true);
    cbn [e_stack set_e_location]; rewrite Hm, (trailingDigits_frame _ _ Hf);
    reflexivity.
Qed.

End Properties.

(** * Further properties of the engine *)

Section ValueStoreProperties.

Context {U : Utils}.

Lemma lookup_two_inserts (m : Frame) (k1 k2 k : string) (v : Value) :
  (<[k2 := v]> (<[k1 := v]> m)) !! k
  = if decide (k = k1 \/ k = k2) then Some v else m !! k.
Proof.
  destruct (decide (k = k2)) as [->|H2].
  - rewrite lookup_insert_eq. by rewrite decide_True by auto.
  - rewrite lookup_insert_ne by done.
    destruct (decide (k = k1)) as [->|H1].
    + rewrite lookup_insert_eq. by rewrite decide_True by auto.
    + rewrite lookup_insert_ne by done. rewrite decide_False; [done|]. by intros [?|?].
Qed.

(** X1. A global or persistent variable is read back under every
    spelling of its name that has the same canonical form, and setting it
    leaves alone every variable whose canonical name is neither the
    canonical nor the case-keeping form of the name set. *)
Theorem set_then_get_by_canonical_name (a b : string) (v : Value) (r : RunInstance) :
  (canonicalize a = canonicalize b ->
   getGlobal b (setGlobal a v r) = v
   /\ getPersistent b (setPersistent a v r) = v)
  /\ (canonicalize b <> canonicalize a -> canonicalize b <> keepCaseCanonicalize a ->
      getGlobal b (setGlobal a v r) = getGlobal b r
      /\ getPersistent b (setPersistent a v r) = getPersistent b r).
Proof.
  unfold getGlobal, getPersistent, setGlobal, setPersistent, prop. cbn.
  split.
  - intros <-. rewrite !lookup_two_inserts, !decide_True by auto. auto.
  - intros H1 H2. rewrite !lookup_two_inserts.
    rewrite !decide_False by (by intros [?|?]). auto.
Qed.

(** X2. A parameter staged for a function call is what getLocal returns
    for its name, whatever the local frame holds and even when there is no
    local frame; a later setLocal of that name does not change what is
    read. *)
Theorem getLocal_prefers_passed_in (name : string) (v : Value) (r : RunInstance) :
  getLocal name (setLocalPassedIn name v r) = inr v
  /\ forall w r', setLocal name w (setLocalPassedIn name v r) = inr r' ->
                  getLocal name r' = inr v.
Proof.
  assert (Hstaged : localsPassedIntoFunc (setLocalPassedIn name v r) !! canonicalize name
                    = Some v).
  { unfold setLocalPassedIn. cbn. rewrite lookup_two_inserts. by rewrite decide_True by auto. }
  split.
  - unfold getLocal. by rewrite Hstaged.
  - intros w r' Hset. unfold setLocal in Hset.
    destruct (local (setLocalPassedIn name v r)); [|discriminate].
    injection Hset as <-. unfold getLocal.
    change (localsPassedIntoFunc (set_local _ (setLocalPassedIn name v r)))
      with (localsPassedIntoFunc (setLocalPassedIn name v r)).
    by rewrite Hstaged.
Qed.

(** X3. A local variable that was set is read back under every spelling
    with the same canonical form, unless a staged parameter of that name
    shadows it. *)
Theorem setLocal_then_getLocal (a b : string) (v : Value) (r r' : RunInstance) :
  canonicalize a = canonicalize b ->
  localsPassedIntoFunc r !! canonicalize b = None ->
  setLocal a v r = inr r' ->
  getLocal b r' = inr v.
Proof.
  intros Hab Hnone Hset. unfold setLocal in Hset.
  destruct (local r) as [l|]; [|discriminate]. injection Hset as <-.
  unfold getLocal. cbn. rewrite Hnone. unfold prop.
  rewrite lookup_two_inserts, decide_True by auto. reflexivity.
Qed.

(** X4. After a pop that had nothing to pop there is no local frame:
    setLocal throws a TypeError, and so does getLocal for every name that is
    not staged as a parameter. *)
Theorem local_access_after_unbalanced_pop (r : RunInstance) :
  localStack r = [] ->
  (forall name v, exists e, setLocal name v (popLocalStack r) = inl e
                            /\ e_name e = "TypeError")
  /\ (forall name, localsPassedIntoFunc r !! canonicalize name = None ->
        exists e, getLocal name (popLocalStack r) = inl e /\ e_name e = "TypeError").
Proof.
  intros Hst.
  assert (Hl : local (popLocalStack r) = None)
    by (unfold popLocalStack; cbn; by rewrite Hst).
  split.
  - intros name v. unfold setLocal. rewrite Hl. eauto.
  - intros name Hnone. unfold getLocal.
    change (localsPassedIntoFunc (popLocalStack r)) with (localsPassedIntoFunc r).
    rewrite Hnone, Hl. eauto.
Qed.

End ValueStoreProperties.

Section LocalStackProperties.

Context {U : Utils}.

Lemma popLocalStack_local_stack (a b : RunInstance) :
  local a = local b -> localStack a = localStack b ->
  local (popLocalStack a) = local (popLocalStack b)
  /\ localStack (popLocalStack a) = localStack (popLocalStack b).
Proof. intros Hl Hs. unfold popLocalStack. cbn. by rewrite Hs. Qed.

Lemma iter_popLocalStack_local_stack (k : nat) (a b : RunInstance) :
  local a = local b -> localStack a = localStack b ->
  local (Nat.iter k popLocalStack a) = local (Nat.iter k popLocalStack b)
  /\ localStack (Nat.iter k popLocalStack a) = localStack (Nat.iter k popLocalStack b).
Proof.
  intros Hl Hs. induction k as [|k [IHl IHs]]; [by split|].
  change (Nat.iter (S k) popLocalStack a) with (popLocalStack (Nat.iter k popLocalStack a)).
  change (Nat.iter (S k) popLocalStack b) with (popLocalStack (Nat.iter k popLocalStack b)).
  by apply popLocalStack_local_stack.
Qed.

Lemma pop_after_push (r : RunInstance) :
  local (popLocalStack (pushLocalStack r)) = local r
  /\ localStack (popLocalStack (pushLocalStack r)) = localStack r.
Proof.
  unfold popLocalStack, pushLocalStack. cbn.
  rewrite last_snoc, removelast_last. auto.
Qed.

(** X5. Pushes and pops balance: after entering any number of scopes
    and leaving as many, the local frame and the stack of saved frames are
    what they were before. *)
Theorem balanced_push_pop (k : nat) (r : RunInstance) :
  local (Nat.iter k popLocalStack (Nat.iter k pushLocalStack r)) = local r
  /\ localStack (Nat.iter k popLocalStack (Nat.iter k pushLocalStack r)) = localStack r.
Proof.
  revert r. induction k as [|k IH]; intros r; [by split|].
  rewrite Nat.iter_succ_r.
  change (Nat.iter (S k) pushLocalStack r)
    with (pushLocalStack (Nat.iter k pushLocalStack r)).
  destruct (pop_after_push (Nat.iter k pushLocalStack r)) as [Hl Hs].
  destruct (iter_popLocalStack_local_stack k _ _ Hl Hs) as [-> ->].
  apply IH.
Qed.

(** X6. Entering a scope turns the staged parameters into the locals and
    hides the caller's: a staged parameter is read as a local after the
    push, and a name that was not staged reads undefined, whatever the
    caller's frame held. Leaving the scope brings the caller's value
    back. *)
Theorem push_scopes_locals (name : string) (r : RunInstance) :
  (forall v, getLocal name (pushLocalStack (setLocalPassedIn name v r)) = inr v)
  /\ (localsPassedIntoFunc r !! canonicalize name = None ->
      getLocal name (pushLocalStack r) = inr VUndefined
      /\ forall l, local r = Some l ->
           getLocal name (popLocalStack (pushLocalStack r)) = inr (prop l (canonicalize name))).
Proof.
  split.
  - intros v. unfold getLocal, pushLocalStack, setLocalPassedIn, Object_assign. cbn.
    rewrite lookup_empty. unfold prop.
    rewrite (right_id_L ∅ (∪)), lookup_two_inserts, decide_True by auto. reflexivity.
  - intros Hnone. split.
    + unfold getLocal, pushLocalStack, Object_assign, prop. cbn.
      rewrite lookup_empty, (right_id_L ∅ (∪)), Hnone. reflexivity.
    + intros l Hl. unfold getLocal.
      change (localsPassedIntoFunc (popLocalStack (pushLocalStack r)))
        with (∅ : Frame).
      rewrite lookup_empty, (proj1 (pop_after_push r)), Hl. reflexivity.
Qed.

End LocalStackProperties.

Section ErrorLocationProperties.

Lemma fillErrorFromStep_relocates (e : ErrorObj) (step : Step) (inCodeBlock : bool) :
  exists ln, fillErrorFromStep e step inCodeBlock
             = set_e_location (baseFile step inCodeBlock) (Some ln) e.
Proof.
  unfold fillErrorFromStep, baseFile.
  destruct (isFunctionCall step && inCodeBlock && negb (isHook step)
            && negb (isPackaged step));
    destruct (inCodeBlock && negb (isPackaged step)); try (eexists; reflexivity);
    cbn [e_stack set_e_location];
    destruct (codeBlockFrames (e_stack e)) as [|m ms]; try (eexists; reflexivity);
    destruct (trailingDigits m); eexists; reflexivity.
Qed.

(** X7. fillErrorFromStep overwrites a filename and lineNumber the error
    came with: the result is the same whatever they were. It changes nothing
    else of the error (name, message, stack, continue), and filling an error
    twice from the same step is the same as filling it once. *)
Theorem fillErrorFromStep_overwrites_location (e : ErrorObj) (step : Step)
    (inCodeBlock : bool) :
  (forall fn ln, fillErrorFromStep (set_e_location fn ln e) step inCodeBlock
                 = fillErrorFromStep e step inCodeBlock)
  /\ e_name (fillErrorFromStep e step inCodeBlock) = e_name e
  /\ e_message (fillErrorFromStep e step inCodeBlock) = e_message e
  /\ e_stack (fillErrorFromStep e step inCodeBlock) = e_stack e
  /\ e_continue (fillErrorFromStep e step inCodeBlock) = e_continue e
  /\ fillErrorFromStep (fillErrorFromStep e step inCodeBlock) step inCodeBlock
     = fillErrorFromStep e step inCodeBlock.
Proof.
  assert (Hpre : forall fn ln, fillErrorFromStep (set_e_location fn ln e) step inCodeBlock
                               = fillErrorFromStep e step inCodeBlock)
    by reflexivity.
  destruct (fillErrorFromStep_relocates e step inCodeBlock) as [ln Heq].
  split; [exact Hpre|].
  rewrite Heq. repeat split; try reflexivity.
  rewrite Hpre. exact Heq.
Qed.

(** X8. After fillErrorFromStep an error always has a line number. It is
    the fallback line (the step's, or the declaration's for a function call
    failing in its code block) when the error did not come from a code
    block, when the step is packaged, or when the stack names no code block
    frame; otherwise it is the number of the first such frame. The filename
    is the fallback file in every case. *)
Theorem fillErrorFromStep_always_locates (e : ErrorObj) (step : Step) (inCodeBlock : bool) :
  e_filename (fillErrorFromStep e step inCodeBlock) = baseFile step inCodeBlock
  /\ exists n,
       e_lineNumber (fillErrorFromStep e step inCodeBlock) = Some n
       /\ (inCodeBlock && negb (isPackaged step) = false -> n = baseLine step inCodeBlock)
       /\ (codeBlockFrames (e_stack e) = [] -> n = baseLine step inCodeBlock)
       /\ (forall m ms,
             inCodeBlock && negb (isPackaged step) = true ->
             codeBlockFrames (e_stack e) = m :: ms ->
             exists d, isCodeBlockFrame m d /\ n = parseInt d).
Proof.
  split.
  { destruct (fillErrorFromStep_relocates e step inCodeBlock) as [ln ->]. reflexivity. }
  unfold fillErrorFromStep, baseLine.
  set (fn := isFunctionCall step && inCodeBlock && negb (isHook step)
             && negb (isPackaged step)).
  set (e1 := if fn then _ else _).
  assert (He1 : e_lineNumber e1
                = Some (if fn then snd (declaration step) else lineNumber step)
                /\ e_stack e1 = e_stack e)
    by (subst e1; by destruct fn).
  destruct He1 as [Hline Hstack].
  destruct (inCodeBlock && negb (isPackaged step)) eqn:Hin.
  - rewrite Hstack.
    destruct (codeBlockFrames (e_stack e)) as [|m ms] eqn:Hm.
    + eexists. split; [exact Hline|]. repeat split; try done.
    + destruct (codeBlockFrames_first _ _ _ Hm) as (d & _ & _ & Hf & _).
      rewrite (trailingDigits_frame _ _ Hf).
      exists (parseInt d). split; [reflexivity|].
      repeat split; try done.
      intros m' ms' _ [= <- <-]. by exists d.
  - eexists. split; [exact Hline|]. repeat split; try done.
Qed.

Lemma fillErrorFromStep_frame_line (e : ErrorObj) (step : Step) (m : string)
    (ms : list string) (d : string) :
  isPackaged step = false -> codeBlockFrames (e_stack e) = m :: ms ->
  isCodeBlockFrame m d ->
  e_lineNumber (fillErrorFromStep e step true) = Some (parseInt d).
Proof.
  intros Hp Hm Hf. unfold fillErrorFromStep. rewrite Hp. cbn [negb andb].
  destruct (isFunctionCall step && true && negb (isHook step) && true);
    cbn [e_stack set_e_location]; rewrite Hm, (trailingDigits_frame _ _ Hf);
    reflexivity.
Qed.

Lemma spanDigits_front (d rest : string) :
  d <> EmptyString -> allDigits d = true ->
  fst (spanDigits (d +:+ rest)) <> EmptyString.
Proof.
  destruct d as [|c d]; [done|]. intros _ Hall.
  apply andb_prop in Hall as [Hc _].
  change (spanDigits (String c d +:+ rest)) with (spanDigits (String c (d +:+ rest))).
  cbn [spanDigits]. rewrite Hc. by destruct (spanDigits (d +:+ rest)).
Qed.

Lemma anonymousHere_complete (d rest : string) :
  d <> EmptyString -> allDigits d = true ->
  anonymousHere ("<anonymous>:" +:+ d +:+ rest) <> None.
Proof.
  intros Hd Hall. unfold anonymousHere.
  change (stripPrefix "<anonymous>:" ("<anonymous>:" +:+ d +:+ rest))
    with (Some (d +:+ rest)).
  pose proof (spanDigits_front d rest Hd Hall) as Hne. cbn iota.
  destruct (spanDigits (d +:+ rest)) as [[|c d'] rest']; [done|]. cbn. discriminate.
Qed.

Lemma lineThenAnonymous_complete (body d rest : string) :
  noNewline body = true -> d <> EmptyString -> allDigits d = true ->
  lineThenAnonymous (body +:+ "<anonymous>:" +:+ d +:+ rest) <> None.
Proof.
  intros Hn Hd Hall. induction body as [|c body IH].
  - change (EmptyString +:+ "<anonymous>:" +:+ d +:+ rest)
      with (String "<" ("anonymous>:" +:+ d +:+ rest)).
    cbn [lineThenAnonymous].
    change (String "<" ("anonymous>:" +:+ d +:+ rest))
      with ("<anonymous>:" +:+ d +:+ rest).
    pose proof (anonymousHere_complete d rest Hd Hall) as Hh.
    destruct (anonymousHere ("<anonymous>:" +:+ d +:+ rest)) as [[d' rest']|]; [|done].
    change (isNewline "<") with false. cbn iota.
    by destruct (lineThenAnonymous _) as [[[? ?] ?]|].
  - cbn [noNewline] in Hn. apply andb_prop in Hn as [Hc Hn].
    apply negb_true_iff in Hc.
    change (String c body +:+ "<anonymous>:" +:+ d +:+ rest)
      with (String c (body +:+ "<anonymous>:" +:+ d +:+ rest)).
    cbn [lineThenAnonymous]. rewrite Hc.
    specialize (IH Hn).
    by destruct (lineThenAnonymous _) as [[[? ?] ?]|].
Qed.

Lemma codeBlockFrameHere_complete (body d rest : string) :
  body <> EmptyString -> noNewline body = true ->
  d <> EmptyString -> allDigits d = true ->
  codeBlockFrameHere ("at CodeBlock" +:+ body +:+ "<anonymous>:" +:+ d +:+ rest) <> None.
Proof.
  intros Hb Hn Hd Hall. unfold codeBlockFrameHere.
  change (stripPrefix "at CodeBlock"
            ("at CodeBlock" +:+ body +:+ "<anonymous>:" +:+ d +:+ rest))
    with (Some (body +:+ "<anonymous>:" +:+ d +:+ rest)).
  destruct body as [|c body]; [done|].
  cbn [noNewline] in Hn. apply andb_prop in Hn as [Hc Hn].
  apply negb_true_iff in Hc.
  change (String c body +:+ "<anonymous>:" +:+ d +:+ rest)
    with (String c (body +:+ "<anonymous>:" +:+ d +:+ rest)).
  cbn iota. rewrite Hc.
  pose proof (lineThenAnonymous_complete body d rest Hn Hd Hall) as Hl.
  by destruct (lineThenAnonymous _) as [[[? ?] ?]|].
Qed.

Lemma codeBlockFrames_found (pre s : string) :
  codeBlockFrameHere s <> None -> codeBlockFrames (pre +:+ s) <> [].
Proof.
  intros Hh. unfold codeBlockFrames. induction pre as [|c pre IH].
  - change (EmptyString +:+ s) with s.
    destruct s as [|c s]; [done|]. cbn [matchCodeBlockFrames].
    by destruct (codeBlockFrameHere (String c s)).
  - change (String c pre +:+ s) with (String c (pre +:+ s)).
    cbn [matchCodeBlockFrames].
    by destruct (codeBlockFrameHere (String c (pre +:+ s))).
Qed.

(** X9. A stack that holds, anywhere, the text [at CodeBlock], at least
    one more character of the same line, [<anonymous>:] and a number is
    recognised: there is a first frame, and for an error from a code block
    of a step that is not packaged the line number written is that frame's
    number. *)
Theorem codeBlockFrame_recognised (e : ErrorObj) (step : Step)
    (pre body d rest : string) :
  e_stack e = pre +:+ "at CodeBlock" +:+ body +:+ "<anonymous>:" +:+ d +:+ rest ->
  body <> EmptyString -> noNewline body = true ->
  d <> EmptyString -> allDigits d = true ->
  isPackaged step = false ->
  exists m ms d',
    codeBlockFrames (e_stack e) = m :: ms
    /\ isCodeBlockFrame m d'
    /\ e_lineNumber (fillErrorFromStep e step true) = Some (parseInt d').
Proof.
  intros Hs Hb Hn Hd Hall Hp.
  pose proof (codeBlockFrames_found pre _ (codeBlockFrameHere_complete body d rest Hb Hn Hd Hall))
    as Hne.
  rewrite <- Hs in Hne.
  destruct (codeBlockFrames (e_stack e)) as [|m ms] eqn:Hm; [done|].
  destruct (codeBlockFrames_first _ _ _ Hm) as (d' & _ & _ & Hf & _).
  exists m, ms, d'. split; [reflexivity|]. split; [exact Hf|].
  by apply fillErrorFromStep_frame_line with m ms.
Qed.

End ErrorLocationProperties.

Section VarResolverProperties.

Context {U : Utils} {K : Constants} {J : JsEngine}.

Lemma laterSetter_found (varname : string) (isLocal : bool) (step s : Step)
    (pre post : list Step) (v : VarBeingSet) :
  Forall (fun s' => settingOf varname isLocal (varsBeingSet s') = None) pre ->
  settingOf varname isLocal (varsBeingSet s) = Some v ->
  (isLocal = true -> Forall (fun s' => branchIndents step <= branchIndents s') (pre ++ [s])) ->
  laterSetter varname isLocal step (pre ++ s :: post) = Some (s, v).
Proof.
  intros Hpre Hs Hin.
  assert (Hgo : forall s', (isLocal = true -> branchIndents step <= branchIndents s') ->
                isLocal && (branchIndents s' <? branchIndents step)%nat = false).
  { intros s' H. destruct isLocal; [|reflexivity]. apply Nat.ltb_ge. auto. }
  induction Hpre as [|s' pre Hs' _ IH]; cbn [app laterSetter].
  - rewrite Hgo, Hs; [reflexivity|]. intros Hl. specialize (Hin Hl).
    by inversion Hin.
  - rewrite Hgo, Hs'.
    + apply IH. intros Hl. specialize (Hin Hl). by inversion Hin.
    + intros Hl. specialize (Hin Hl). by inversion Hin.
Qed.

(** findVarValue when the value comes from a later step that sets it to
    a literal. *)
Lemma findVarValue_literal (depth : nat) (varname : string) (isLocal : bool)
    (step : Step) (branch : Branch.t) (r : RunInstance) (v0 : Value) (index : nat)
    (s : Step) (v : VarBeingSet) :
  assignedValue varname isLocal r = inr v0 -> truthy v0 = false ->
  indexOf step (Branch.steps branch) = Some index ->
  laterSetter varname isLocal step (drop index (Branch.steps branch)) = Some (s, v) ->
  hasCodeBlock s = false ->
  findVarValue depth varname isLocal step (Some branch) r
  = match depth with
    | S depth' =>
        match replaceMatches (fun n l => findVarValue depth' n l step (Some branch))
                (VAR (unescape (stripQuotes (vvalue v))))
                (unescape (stripQuotes (vvalue v))) r with
        | (r', inl e) => (r', inl e)
        | (r', inr text) =>
            (appendToLog (setLaterMessage varname isLocal s) (Some (ToStep (sid step))) r',
             inr (VStr text))
        end
    | O => (r, inl RangeError_stack)
    end.
Proof.
  unfold assignedValue. intros Hv Ht Hi Hl Hc.
  destruct depth as [|depth']; cbn [findVarValue]; rewrite Hv, Ht, Hi, Hl, Hc.
  - reflexivity.
  - destruct (replaceMatches _ _ _ r) as [r' [e|text]]; reflexivity.
Qed.

(** X10. Forward lookup. When the variable has no truthy value yet and
    the first step, from the asking one on, that sets it gives a literal
    without variable references, findVarValue returns that literal, quotes
    stripped and escapes applied, and logs at the asking step where the
    value comes from. For a local variable no step up to and including the
    setter may be indented less than the asking step; for a global variable
    indentation plays no part. *)
Theorem findVarValue_forward_lookup (depth : nat) (varname : string) (isLocal : bool)
    (step : Step) (branch : Branch.t) (r : RunInstance) (v0 : Value) (index : nat)
    (pre post : list Step) (s : Step) (v : VarBeingSet) :
  assignedValue varname isLocal r = inr v0 -> truthy v0 = false ->
  indexOf step (Branch.steps branch) = Some index ->
  drop index (Branch.steps branch) = pre ++ s :: post ->
  Forall (fun s' => settingOf varname isLocal (varsBeingSet s') = None) pre ->
  settingOf varname isLocal (varsBeingSet s) = Some v ->
  (isLocal = true -> Forall (fun s' => branchIndents step <= branchIndents s') (pre ++ [s])) ->
  hasCodeBlock s = false ->
  VAR (unescape (stripQuotes (vvalue v))) = [] ->
  findVarValue (S depth) varname isLocal step (Some branch) r
  = (appendToLog (setLaterMessage varname isLocal s) (Some (ToStep (sid step))) r,
     inr (VStr (unescape (stripQuotes (vvalue v))))).
Proof.
  intros Hv Ht Hi Hd Hpre Hs Hin Hc Hvar.
  rewrite (findVarValue_literal (S depth) varname isLocal step branch r v0 index s v);
    try done.
  - by rewrite Hvar.
  - rewrite Hd. by apply laterSetter_found.
Qed.

Lemma indexOf_absent (step : Step) (l : list Step) :
  Forall (fun s => sid s <> sid step) l -> indexOf step l = None.
Proof.
  induction 1 as [|s l Hs _ IH]; cbn; [reflexivity|].
  apply Nat.eqb_neq in Hs. by rewrite Hs, IH.
Qed.

(** X11. Asking for a variable at a step that is not one of the
    branch's steps throws a TypeError, unless the variable already has a
    truthy value. *)
Theorem findVarValue_step_not_in_branch (depth : nat) (varname : string) (isLocal : bool)
    (step : Step) (branch : Branch.t) (r : RunInstance) (v0 : Value) :
  assignedValue varname isLocal r = inr v0 -> truthy v0 = false ->
  Forall (fun s => sid s <> sid step) (Branch.steps branch) ->
  exists e, findVarValue depth varname isLocal step (Some branch) r = (r, inl e)
            /\ e_name e = "TypeError".
Proof.
  unfold assignedValue. intros Hv Ht Habsent.
  apply indexOf_absent in Habsent.
  exists (TypeError "Cannot read properties of undefined"). split; [|reflexivity].
  destruct depth; cbn [findVarValue]; rewrite Hv, Ht, Habsent; reflexivity.
Qed.

Lemma replaceMatches_assigned (depth : nat) (step : Step) (branch : option Branch.t)
    (r : RunInstance) (matches rest : list string) (values : list Value) (text : string) :
  allAssigned matches values r ->
  replaceMatches (fun n l => findVarValue depth n l step branch) (matches ++ rest) text r
  = replaceMatches (fun n l => findVarValue depth n l step branch) rest
      (substituted text matches values) r.
Proof.
  intros Hall. revert text.
  induction Hall as [|m v matches values (Hv & Ht & Hs) _ IH]; intros text;
    [reflexivity|].
  cbn [app replaceMatches].
  rewrite (findVarValue_truthy depth _ _ step branch r v Hv Ht), Hs.
  apply IH.
Qed.

(** X12. When every variable a text refers to is assigned a truthy
    string, number or boolean, replaceVars substitutes the references one
    after the other, in the order they are found, and leaves the instance
    as it was: nothing is scanned, evaluated or logged. *)
Theorem replaceVars_assigned (depth : nat) (text : string) (step : Step)
    (branch : option Branch.t) (r : RunInstance) (values : list Value) :
  allAssigned (VAR text) values r ->
  replaceVars depth text step branch r = (r, inr (substituted text (VAR text) values)).
Proof.
  intros Hall. unfold replaceVars.
  rewrite <- (app_nil_r (VAR text)) at 1.
  by rewrite (replaceMatches_assigned depth step branch r _ [] values text Hall).
Qed.

(** X13. A reference to a variable whose value is truthy but not a
    string, number or boolean makes replaceVars fail with VarTypeError
    naming the reference, the references before it being assigned. *)
Theorem replaceVars_type_error (depth : nat) (text : string) (step : Step)
    (branch : option Branch.t) (r : RunInstance) (before after : list string)
    (values : list Value) (m : string) (v : Value) :
  VAR text = before ++ m :: after ->
  allAssigned before values r ->
  assignedValue (stripBrackets m) (startsWith "{{" m) r = inr v ->
  truthy v = true -> isScalar v = false ->
  replaceVars depth text step branch r = (r, inl (VarTypeError m)).
Proof.
  intros Hvar Hall Hv Ht Hs. unfold replaceVars. rewrite Hvar.
  rewrite (replaceMatches_assigned depth step branch r before _ values text Hall).
  cbn [replaceMatches].
  by rewrite (findVarValue_truthy depth _ _ step branch r v Hv Ht), Hs.
Qed.

Lemma findVarValue_self_reference (depth : nat) (varname : string) (isLocal : bool)
    (step : Step) (branch : Branch.t) (r : RunInstance) (v0 : Value) (index : nat)
    (s : Step) (v : VarBeingSet) (m : string) (more : list string) :
  assignedValue varname isLocal r = inr v0 -> truthy v0 = false ->
  indexOf step (Branch.steps branch) = Some index ->
  laterSetter varname isLocal step (drop index (Branch.steps branch)) = Some (s, v) ->
  hasCodeBlock s = false ->
  VAR (unescape (stripQuotes (vvalue v))) = m :: more ->
  stripBrackets m = varname -> startsWith "{{" m = isLocal ->
  findVarValue depth varname isLocal step (Some branch) r
  = (r, inl (match depth with O => RangeError_stack | S _ => InfiniteVarLoop end)).
Proof.
  intros Hv Ht Hi Hl Hc Hvar Hname Hloc.
  induction depth as [|depth IH];
    rewrite (findVarValue_literal _ varname isLocal step branch r v0 index s v) by done;
    [reflexivity|].
  rewrite Hvar. cbn [replaceMatches]. rewrite Hname, Hloc, IH.
  by destruct depth.
Qed.

(** X14. A variable whose literal value refers to the variable itself
    is never resolved: however much call stack there is, replaceVars fails
    with the infinite-loop error on a text that refers to it first, and so
    does findVarValue for the variable, the instance left as it was. *)
Theorem replaceVars_infinite_loop (varname : string) (isLocal : bool)
    (step : Step) (branch : Branch.t) (r : RunInstance) (v0 : Value) (index : nat)
    (s : Step) (v : VarBeingSet) (m : string) (more : list string) :
  assignedValue varname isLocal r = inr v0 -> truthy v0 = false ->
  indexOf step (Branch.steps branch) = Some index ->
  laterSetter varname isLocal step (drop index (Branch.steps branch)) = Some (s, v) ->
  hasCodeBlock s = false ->
  VAR (unescape (stripQuotes (vvalue v))) = m :: more ->
  stripBrackets m = varname -> startsWith "{{" m = isLocal ->
  (forall depth text others,
      VAR text = m :: others ->
      replaceVars depth text step (Some branch) r = (r, inl InfiniteVarLoop))
  /\ (forall depth,
        findVarValue (S depth) varname isLocal step (Some branch) r
        = (r, inl InfiniteVarLoop)).
Proof.
  intros Hv Ht Hi Hl Hc Hvar Hname Hloc. split.
  - intros depth text others Htext. unfold replaceVars. rewrite Htext.
    cbn [replaceMatches]. rewrite Hname, Hloc.
    rewrite (findVarValue_self_reference depth varname isLocal step branch r v0 index
               s v m more) by done.
    by destruct depth.
  - intros depth.
    by rewrite (findVarValue_self_reference (S depth) varname isLocal step branch r v0
                  index s v m more).
Qed.

End VarResolverProperties.

Section LogAndMarkProperties.

Lemma stepState_updStep_ne (s s' : nat) (f : StepState -> StepState) (r : RunInstance) :
  s <> s' -> stepState (updStep s f r) s' = stepState r s'.
Proof. intros Hne. unfold stepState at 1, updStep. cbn. by rewrite lookup_insert_ne. Qed.

Lemma branchState_updBranch_ne (b b' : nat) (f : Branch.State -> Branch.State)
    (r : RunInstance) :
  b <> b' -> branchState (updBranch b f r) b' = branchState r b'.
Proof. intros Hne. unfold branchState at 1, updBranch. cbn. by rewrite lookup_insert_ne. Qed.

Lemma appendAll_branch (texts : list string) (b : nat) (r : RunInstance) :
  isStopped r = false ->
  let r' := appendAll texts (Some (ToBranch b)) r in
  default [] (Branch.log (branchState r' b))
  = default [] (Branch.log (branchState r b)) ++ map LogText texts
  /\ Branch.isPassed (branchState r' b) = Branch.isPassed (branchState r b)
  /\ Branch.isFailed (branchState r' b) = Branch.isFailed (branchState r b)
  /\ Branch.error (branchState r' b) = Branch.error (branchState r b)
  /\ (forall b', b <> b' -> branchState r' b' = branchState r b')
  /\ stepStore r' = stepStore r.
Proof.
  unfold appendAll. revert r. induction texts as [|t texts IH]; intros r Hs; cbn zeta.
  - cbn. rewrite app_nil_r. by repeat split.
  - cbn [fold_left map].
    assert (Hone : appendToLog t (Some (ToBranch b)) r
                   = updBranch b (Branch.appendToLog t) r)
      by (unfold appendToLog; by rewrite Hs).
    rewrite Hone.
    destruct (IH (updBranch b (Branch.appendToLog t) r) Hs) as (Hl & Hp & Hf & He & Ho & Hb).
    rewrite Hl, Hp, Hf, He, Hb, branchState_updBranch_eq.
    split; [cbn; by rewrite <- app_assoc|].
    do 3 (split; [reflexivity|]).
    split; [|reflexivity].
    intros b' Hne. rewrite (Ho b' Hne). by apply branchState_updBranch_ne.
Qed.

(** X15. On an instance that is not stopped, texts logged one after the
    other to a branch end up at the end of the branch's log in the order
    they were logged, a missing log counting as empty. The branch's result
    and error, every other branch and all the steps are left as they
    were. *)
Theorem appendToLog_accumulates (texts : list string) (b : nat) (r : RunInstance) :
  isStopped r = false ->
  let r' := appendAll texts (Some (ToBranch b)) r in
  default [] (Branch.log (branchState r' b))
  = default [] (Branch.log (branchState r b)) ++ map LogText texts
  /\ Branch.isPassed (branchState r' b) = Branch.isPassed (branchState r b)
  /\ Branch.isFailed (branchState r' b) = Branch.isFailed (branchState r b)
  /\ Branch.error (branchState r' b) = Branch.error (branchState r b)
  /\ (forall b', b <> b' -> branchState r' b' = branchState r b')
  /\ stepStore r' = stepStore r.
Proof. apply appendAll_branch. Qed.

Lemma clearRunning_twice (st : StepState) : clearRunning (clearRunning st) = clearRunning st.
Proof. reflexivity. Qed.

Lemma Branch_stop_step (steps : list Step) (s : nat) (r : RunInstance) :
  stepState (fold_left (fun r step => updStep (sid step) clearRunning r) steps r) s
  = if existsb (fun step => Nat.eqb (sid step) s) steps
    then clearRunning (stepState r s)
    else stepState r s.
Proof.
  revert r. induction steps as [|x steps IH]; intros r; [reflexivity|].
  cbn [fold_left existsb]. rewrite IH.
  destruct (Nat.eqb_spec (sid x) s) as [->|Hne]; cbn [orb].
  - rewrite stepState_updStep_eq, clearRunning_twice. by destruct (existsb _ steps).
  - by rewrite stepState_updStep_ne.
Qed.

Lemma Branch_stop_keeps (steps : list Step) (r : RunInstance) :
  let r' := fold_left (fun r step => updStep (sid step) clearRunning r) steps r in
  persistent r' = persistent r /\ global r' = global r /\ local r' = local r
  /\ localStack r' = localStack r /\ localsPassedIntoFunc r' = localsPassedIntoFunc r
  /\ branchStore r' = branchStore r /\ treeCalls r' = treeCalls r
  /\ isPaused r' = isPaused r /\ stepsRan r' = stepsRan r.
Proof.
  revert r. induction steps as [|x steps IH]; intros r; cbn zeta; [by repeat split|].
  cbn [fold_left].
  destruct (IH (updStep (sid x) clearRunning r)) as (-> & -> & -> & -> & -> & -> & -> & -> & ->).
  by repeat split.
Qed.

(** X16. stop() takes the running flag off the steps of the current
    branch and sets isStopped; it changes nothing else: every step keeps
    its result, its error and its log, steps of other branches keep their
    running flag, and the variables, the stack, the branches' records, the
    pause state and the record of steps run stay as they were. *)
Theorem stop_only_clears_running (r : RunInstance) :
  (forall s,
      isRunning (stepState (stop r) s)
      = (if inCurrBranch s r then false else isRunning (stepState r s))
      /\ isPassed (stepState (stop r) s) = isPassed (stepState r s)
      /\ isFailed (stepState (stop r) s) = isFailed (stepState r s)
      /\ isSkipped (stepState (stop r) s) = isSkipped (stepState r s)
      /\ asExpected (stepState (stop r) s) = asExpected (stepState r s)
      /\ error (stepState (stop r) s) = error (stepState r s)
      /\ log (stepState (stop r) s) = log (stepState r s))
  /\ persistent (stop r) = persistent r /\ global (stop r) = global r
  /\ local (stop r) = local r /\ localStack (stop r) = localStack r
  /\ localsPassedIntoFunc (stop r) = localsPassedIntoFunc r
  /\ branchStore (stop r) = branchStore r /\ treeCalls (stop r) = treeCalls r
  /\ isPaused (stop r) = isPaused r /\ stepsRan (stop r) = stepsRan r.
Proof.
  unfold stop, inCurrBranch, Branch_stop.
  change (currBranch (set_isStopped true r)) with (currBranch r).
  destruct (currBranch r) as [b|].
  - split.
    + intros s. rewrite Branch_stop_step.
      change (stepState (set_isStopped true r) s) with (stepState r s).
      by destruct (existsb _ (Branch.steps b)).
    + apply (Branch_stop_keeps (Branch.steps b) (set_isStopped true r)).
  - split; [|by repeat split]. intros s. by repeat split.
Qed.

(** X17. finishOffBranch marks the branch failed exactly when one of
    its steps has asExpected false, and passed otherwise: steps that were
    not run yet do not count against it. Either way the branch is complete
    afterwards, and its error and log and all the steps are left as they
    were. *)
Theorem finishOffBranch_outcome (b : Branch.t) (r : RunInstance) :
  let st := branchState (Branch_finishOffBranch b r) (Branch.bid b) in
  (Branch.isFailed st = true
   <-> exists step, In step (Branch.steps b)
                    /\ asExpected (stepState r (sid step)) = Some false)
  /\ Branch.isPassed st = negb (Branch.isFailed st)
  /\ Branch.isSkipped st = false
  /\ Branch.isComplete b st = true
  /\ Branch.error st = Branch.error (branchState r (Branch.bid b))
  /\ Branch.log st = Branch.log (branchState r (Branch.bid b))
  /\ stepStore (Branch_finishOffBranch b r) = stepStore r.
Proof.
  unfold Branch_finishOffBranch. cbn zeta. rewrite branchState_updBranch_eq.
  set (bad := existsb _ (Branch.steps b)).
  cbn [Branch.markBranch Branch.isFailed Branch.isPassed Branch.isSkipped Branch.error
       Branch.log].
  split.
  - rewrite negb_involutive. subst bad. rewrite existsb_exists.
    split; intros (step & Hin & Hstep); exists step; split; try done.
    + by destruct (asExpected _) as [[|]|].
    + by rewrite Hstep.
  - repeat split; try reflexivity.
    + by rewrite negb_involutive.
    + unfold Branch.isComplete. cbn. by destruct bad.
Qed.

End LogAndMarkProperties.

Section BranchOpsProperties.

Import BranchOps.

Lemma attachFront_assoc (a b c : option (list Step)) :
  attachFront (attachFront a b) c = attachFront a (attachFront b c).
Proof.
  destruct a, b, c; cbn; rewrite ?app_nil_r, ?app_assoc; reflexivity.
Qed.

Lemma attachBack_assoc (a b c : option (list Step)) :
  attachBack (attachBack a b) c = attachBack a (attachBack b c).
Proof.
  destruct a, b, c; cbn; rewrite ?app_nil_r, ?app_assoc; reflexivity.
Qed.

(** X18. mergeToEnd puts the steps of the merged branch after the
    receiver's, its Before Every Branch and Before Every Step hooks before
    the receiver's and its After Every Branch and After Every Step hooks
    after them; and merging is associative: merging b and then c into a
    gives what merging into a the result of merging c into b gives. *)
Theorem mergeToEnd_order_and_assoc (a b c : Branch.t * Attrs) :
  Branch.steps (fst (mergeToEnd a b)) = Branch.steps (fst a) ++ Branch.steps (fst b)
  /\ (forall hooks,
        Branch.beforeEveryBranch (fst b) = Some hooks ->
        Branch.beforeEveryBranch (fst (mergeToEnd a b))
        = Some (hooks ++ default [] (Branch.beforeEveryBranch (fst a))))
  /\ (forall hooks,
        Branch.afterEveryBranch (fst b) = Some hooks ->
        Branch.afterEveryBranch (fst (mergeToEnd a b))
        = Some (default [] (Branch.afterEveryBranch (fst a)) ++ hooks))
  /\ (forall hooks,
        Branch.beforeEveryStep (fst b) = Some hooks ->
        Branch.beforeEveryStep (fst (mergeToEnd a b))
        = Some (hooks ++ default [] (Branch.beforeEveryStep (fst a))))
  /\ (forall hooks,
        Branch.afterEveryStep (fst b) = Some hooks ->
        Branch.afterEveryStep (fst (mergeToEnd a b))
        = Some (default [] (Branch.afterEveryStep (fst a)) ++ hooks))
  /\ mergeToEnd (mergeToEnd a b) c = mergeToEnd a (mergeToEnd b c).
Proof.
  split; [reflexivity|].
  do 4 (split; [by intros hooks; cbn; intros ->|]).
  unfold mergeToEnd. cbn [fst snd Branch.bid Branch.steps Branch.beforeEveryBranch
    Branch.afterEveryBranch Branch.beforeEveryStep Branch.afterEveryStep
    Branch.passedLastTime nonParallelId frequency groups isOnly isDebug].
  f_equal.
  - rewrite !attachFront_assoc, !attachBack_assoc, app_assoc. reflexivity.
  - f_equal.
    + destruct (truthyString (nonParallelId (snd c))) eqn:Hc; [by rewrite Hc|].
      by destruct (truthyString (nonParallelId (snd b))) eqn:Hb; rewrite ?Hb, ?Hc.
    + destruct (truthyString (frequency (snd c))) eqn:Hc; [by rewrite Hc|].
      by destruct (truthyString (frequency (snd b))) eqn:Hb; rewrite ?Hb, ?Hc.
    + destruct (groups (snd a)), (groups (snd b)), (groups (snd c)); cbn;
        rewrite ?app_nil_r, ?app_assoc; reflexivity.
    + by destruct (isOnly (snd c)), (isOnly (snd b)).
    + by destruct (isDebug (snd c)), (isDebug (snd b)).
Qed.

Section WithStepFlags.

Variables stepIsOnly stepIsDebug : Step -> bool.
Variable identifiers : Step -> option (list string).

Lemma mergeToEnd_push (this built : Branch.t * Attrs) (step : Step) :
  mergeToEnd this (push stepIsOnly stepIsDebug step built)
  = push stepIsOnly stepIsDebug step (mergeToEnd this built).
Proof.
  unfold mergeToEnd, push, setSteps, raiseFlags. cbn. f_equal.
  - by rewrite app_assoc.
  - f_equal.
    + by destruct (stepIsOnly step), (isOnly (snd built)).
    + by destruct (stepIsDebug step), (isDebug (snd built)).
Qed.

(** X19. Pushing steps onto a branch one by one gives the same branch
    as merging into it a branch that was built by pushing those steps onto
    an empty one: the same steps in the same order, the same isOnly and
    isDebug, and hooks and the other fields as they were. *)
Theorem push_all_is_merge (steps : list Step) (this : Branch.t * Attrs) (id : nat) :
  fold_left (fun b step => push stepIsOnly stepIsDebug step b) steps this
  = mergeToEnd this
      (fold_left (fun b step => push stepIsOnly stepIsDebug step b) steps
         (Branch.mk id [] None None None None false, noAttrs))
  /\ Branch.steps (fst (fold_left (fun b step => push stepIsOnly stepIsDebug step b)
                          steps this))
     = Branch.steps (fst this) ++ steps
  /\ isOnly (snd (fold_left (fun b step => push stepIsOnly stepIsDebug step b) steps this))
     = isOnly (snd this) || existsb stepIsOnly steps.
Proof.
  induction steps as [|step steps IH] using rev_ind.
  - cbn. split; [|split].
    + destruct this as [[? ? ? ? ? ? ?] [? ? ? ? ?]]. unfold mergeToEnd. cbn.
      rewrite app_nil_r. by destruct isOnly0, isDebug0.
    + by rewrite app_nil_r.
    + by rewrite orb_false_r.
  - rewrite !fold_left_app. cbn [fold_left].
    destruct IH as (IH1 & IH2 & IH3). split; [|split].
    + rewrite mergeToEnd_push. by rewrite <- IH1.
    + cbn. rewrite IH2. by rewrite app_assoc.
    + cbn. rewrite IH3, existsb_app. cbn.
      by destruct (stepIsOnly step), (isOnly (snd this)), (existsb stepIsOnly steps).
Qed.

Lemma sameCodeBlock_refl (a : option string) : sameCodeBlock a a = true.
Proof. destruct a; cbn; [apply String.eqb_refl|reflexivity]. Qed.

Lemma sameCodeBlock_sym (a b : option string) : sameCodeBlock a b = sameCodeBlock b a.
Proof. destruct a, b; cbn; [apply String.eqb_sym|reflexivity..]. Qed.

Lemma sameCodeBlock_trans (a b c : option string) :
  sameCodeBlock a b = true -> sameCodeBlock b c = true -> sameCodeBlock a c = true.
Proof.
  destruct a, b, c; cbn; try done.
  rewrite !String.eqb_eq. congruence.
Qed.

Lemma sameStepText_refl (x : Step) : sameStepText identifiers (x, x) = true.
Proof. unfold sameStepText. cbn. by rewrite String.eqb_refl, sameCodeBlock_refl. Qed.

Lemma sameStepText_sym (x y : Step) :
  sameStepText identifiers (x, y) = sameStepText identifiers (y, x).
Proof. unfold sameStepText. cbn. by rewrite String.eqb_sym, sameCodeBlock_sym. Qed.

Lemma sameStepText_trans (x y z : Step) :
  sameStepText identifiers (x, y) = true -> sameStepText identifiers (y, z) = true ->
  sameStepText identifiers (x, z) = true.
Proof.
  unfold sameStepText. cbn. rewrite !andb_true_iff, !String.eqb_eq.
  intros [H1 H2] [H3 H4]. split; [congruence|]. by apply sameCodeBlock_trans with (codeBlock y).
Qed.

Lemma firstSame_refl (k : nat) (a : list Step) : firstSame identifiers k a a = true.
Proof.
  unfold firstSame. revert k. induction a as [|x a IH]; intros [|k]; try reflexivity.
  cbn. by rewrite sameStepText_refl, IH.
Qed.

Lemma firstSame_sym (k : nat) (a b : list Step) :
  firstSame identifiers k a b = firstSame identifiers k b a.
Proof.
  unfold firstSame. revert k b. induction a as [|x a IH]; intros [|k] [|y b]; try reflexivity.
  cbn. by rewrite sameStepText_sym, IH.
Qed.

Lemma firstSame_le (k k' : nat) (a b : list Step) :
  k' <= k -> firstSame identifiers k a b = true -> firstSame identifiers k' a b = true.
Proof.
  unfold firstSame. revert k k' b.
  induction a as [|x a IH]; intros [|k] [|k'] [|y b] Hle; try done; try lia.
  cbn. rewrite !andb_true_iff. intros [H1 H2]. split; [done|].
  apply IH with k; [lia|done].
Qed.

Lemma firstSame_trans (k : nat) (a b c : list Step) :
  k <= length b ->
  firstSame identifiers k a b = true -> firstSame identifiers k b c = true ->
  firstSame identifiers k a c = true.
Proof.
  unfold firstSame. revert k b c.
  induction a as [|x a IH]; intros [|k] [|y b] [|z c] Hle; try done; cbn in Hle; try lia.
  cbn. rewrite !andb_true_iff. intros [H1 H2] [H3 H4]. split.
  - by apply sameStepText_trans with y.
  - apply IH with b; [lia|done..].
Qed.

Lemma equals_unfold (a b : Branch.t) (n : option nat) :
  equals identifiers a b n
  = let la := length (Branch.steps a) in
    let lb := length (Branch.steps b) in
    let ka := match n with Some n => Nat.min n la | None => la end in
    let kb := match n with Some n => Nat.min n lb | None => lb end in
    Nat.eqb ka kb && firstSame identifiers ka (Branch.steps a) (Branch.steps b).
Proof.
  unfold equals, firstSame. cbn zeta.
  assert (Hmin : forall k l, (if (k <? l)%nat then k else l) = Nat.min k l).
  { intros k l. destruct (Nat.ltb_spec k l); lia. }
  destruct n as [n|]; rewrite ?Hmin; by destruct (Nat.eqb _ _).
Qed.

(** X20. equals compares the first n steps (all of them when n is
    left out) as an equivalence: a branch equals itself, equals does not
    depend on which of the two branches is the receiver, and two branches
    that each equal a third equal each other. Branches that are equal on
    their first n steps, or on all, are equal on their first m for every
    m up to n. Hooks play no part. *)
Theorem equals_equivalence (a b c : Branch.t) (n : option nat) :
  equals identifiers a a n = true
  /\ equals identifiers a b n = equals identifiers b a n
  /\ (equals identifiers a b n = true -> equals identifiers b c n = true ->
      equals identifiers a c n = true)
  /\ (forall m, equals identifiers a b n = true ->
        match n with Some n => m <= n | None => True end ->
        equals identifiers a b (Some m) = true)
  /\ (forall hooks1 hooks2 hooks3 hooks4,
        equals identifiers
          (Branch.mk (Branch.bid a) (Branch.steps a) hooks1 hooks2 hooks3 hooks4
             (Branch.passedLastTime a)) b n
        = equals identifiers a b n).
Proof.
  rewrite !equals_unfold. cbn zeta.
  split; [by rewrite Nat.eqb_refl, firstSame_refl|].
  split.
  { set (ka := match n with Some n => Nat.min n (length (Branch.steps a))
                       | None => length (Branch.steps a) end).
    set (kb := match n with Some n => Nat.min n (length (Branch.steps b))
                       | None => length (Branch.steps b) end).
    destruct (Nat.eqb_spec ka kb) as [Heq|Hne].
    - rewrite Heq, Nat.eqb_refl. cbn. apply firstSame_sym.
    - apply Nat.eqb_neq in Hne. rewrite Nat.eqb_sym in Hne. by rewrite Hne. }
  split.
  { rewrite !andb_true_iff, !Nat.eqb_eq. intros [Hab Fab] [Hbc Fbc].
    split; [congruence|]. apply firstSame_trans with (Branch.steps b); try done.
    - destruct n; lia.
    - by rewrite Hab. }
  split.
  { intros m. rewrite !equals_unfold. cbn zeta.
    rewrite !andb_true_iff, !Nat.eqb_eq. intros [Hab Fab] Hm. split.
    - destruct n; lia.
    - eapply firstSame_le; [|exact Fab]. destruct n; lia. }
  intros. by rewrite !equals_unfold.
Qed.

End WithStepFlags.

End BranchOpsProperties.

Section GeneratedCodeProperties.

Lemma allChars_app (f : ascii -> bool) (a b : string) :
  allChars f (a +:+ b) = allChars f a && allChars f b.
Proof.
  induction a as [|c a IH]; [reflexivity|].
  change (f c && allChars f (a +:+ b) = f c && allChars f a && allChars f b).
  by rewrite IH, andb_assoc.
Qed.

Lemma keepWordChars_word (s : string) : allChars isWordChar (keepWordChars s) = true.
Proof.
  induction s as [|c s IH]; [reflexivity|]. cbn [keepWordChars].
  destruct (isWordChar c) eqn:Hc; [|exact IH]. cbn. by rewrite Hc, IH.
Qed.

Lemma codeBlockSuffix_word (funcName : option string) :
  allChars isWordChar (codeBlockSuffix funcName) = true.
Proof.
  unfold codeBlockSuffix. destruct funcName as [[|c t]|]; try reflexivity.
  pose proof (keepWordChars_word (spacesToUnderscore false (String c t))) as Hw.
  destruct (String.eqb _ EmptyString); cbn [negb]; [exact Hw|].
  by rewrite allChars_app, Hw.
Qed.

(** X21. Whatever the step text, the name of the generated function is
    an identifier: what is put after [CodeBlock] is made of letters, digits
    and underscores only, and it is either empty or [_for_] followed by at
    least one such character. *)
Theorem codeBlockSuffix_is_identifier (funcName : option string) :
  allChars isWordChar (codeBlockSuffix funcName) = true
  /\ (codeBlockSuffix funcName = EmptyString
      \/ exists name, codeBlockSuffix funcName = "_for_" +:+ name
                      /\ name <> EmptyString
                      /\ allChars isWordChar name = true).
Proof.
  unfold codeBlockSuffix. destruct funcName as [[|c t]|]; try (split; [reflexivity|by left]).
  set (name := keepWordChars (spacesToUnderscore false (String c t))).
  pose proof (keepWordChars_word (spacesToUnderscore false (String c t))) as Hw.
  fold name in Hw.
  destruct (String.eqb_spec name EmptyString) as [->|Hne]; cbn [negb].
  - split; [reflexivity|by left].
  - split.
    + by rewrite allChars_app, Hw.
    + right. by exists name.
Qed.

Lemma countNewlines_app (a b : string) :
  countNewlines (a +:+ b) = (countNewlines a + countNewlines b)%nat.
Proof.
  induction a as [|c a IH]; [reflexivity|].
  change ((if isNewline c then 1 else 0) + countNewlines (a +:+ b)
          = (if isNewline c then 1 else 0) + countNewlines a + countNewlines b)%nat.
  rewrite IH. lia.
Qed.

Lemma countNewlines_commentLines (k : nat) : countNewlines (commentLines k) = k.
Proof. induction k as [|k IH]; [reflexivity|]. cbn. by rewrite IH. Qed.

Lemma countNewlines_none (f : ascii -> bool) (s : string) :
  (forall c, f c = true -> isNewline c = false) ->
  allChars f s = true -> countNewlines s = 0%nat.
Proof.
  intros Hf. induction s as [|c s IH]; [reflexivity|]. cbn.
  intros [Hc Hs]%andb_prop. by rewrite (Hf c Hc), IH.
Qed.

Lemma isWordChar_not_newline (c : ascii) : isWordChar c = true -> isNewline c = false.
Proof.
  unfold isNewline. destruct (Ascii.eqb_spec c "010"%char) as [->|]; [|done].
  by vm_compute.
Qed.

Lemma isVarPart_not_newline (c : ascii) : isVarPart c = true -> isNewline c = false.
Proof.
  unfold isNewline. destruct (Ascii.eqb_spec c "010"%char) as [->|]; [|done].
  by vm_compute.
Qed.

Lemma declarable_no_newline (varname : string) :
  declarable varname = true -> countNewlines varname = 0%nat.
Proof.
  unfold declarable, JS_VARNAME_WHITELIST. intros [Hw _]%andb_prop.
  destruct varname as [|c t]; [done|]. apply andb_prop in Hw as [Hc Ht].
  apply (countNewlines_none isVarPart); [apply isVarPart_not_newline|].
  cbn. rewrite Ht, andb_true_r. unfold isVarStart in Hc. unfold isVarPart.
  destruct (isLetter c), (Ascii.eqb c "_"), (Ascii.eqb c "$"), (isDigit c); done.
Qed.

(** The loop of loadIntoJsVars, told as a filter. *)
Lemma loadIntoJsVars_filter (header : string) (keys : list string) (getter : string) :
  loadIntoJsVars header keys getter
  = fold_left (fun h varname => h +:+ varDeclaration getter varname)
      (List.filter declarable keys) header.
Proof.
  unfold loadIntoJsVars. revert header.
  induction keys as [|k keys IH]; intros header; [reflexivity|].
  cbn [fold_left List.filter]. destruct (declarable k); [cbn [fold_left]|]; apply IH.
Qed.

Lemma loadIntoJsVars_newlines (header : string) (keys : list string) (getter : string) :
  countNewlines getter = 0%nat ->
  countNewlines (loadIntoJsVars header keys getter) = countNewlines header.
Proof.
  intros Hg. unfold loadIntoJsVars. revert header.
  induction keys as [|k keys IH]; intros header; [reflexivity|].
  cbn [fold_left]. rewrite IH. destruct (declarable k) eqn:Hk; [|reflexivity].
  unfold varDeclaration. rewrite !countNewlines_app, Hg, (declarable_no_newline k Hk).
  cbn. lia.
Qed.

(** X22. In the code handed to eval the code block's own text starts
    on line [lineNumber] (on the first line when [lineNumber] is 0 or 1):
    exactly [lineNumber - 1] line breaks come before it, whatever the
    function name and the variables declared in the header. *)
Theorem generatedCode_line_numbers (code : string) (funcName : option string)
    (lineNumber : N) (isSync : bool) (names : VarNames) :
  generatedCode code funcName lineNumber isSync names
  = codePrefix funcName lineNumber isSync names +:+ code +:+ " })(this);"
  /\ countNewlines (codePrefix funcName lineNumber isSync names)
     = (N.to_nat lineNumber - 1)%nat.
Proof.
  split; [reflexivity|].
  unfold codePrefix, padding, codeHeader.
  rewrite !countNewlines_app, countNewlines_commentLines.
  rewrite !loadIntoJsVars_newlines by reflexivity.
  rewrite (countNewlines_none isWordChar (codeBlockSuffix funcName)
             isWordChar_not_newline
             (codeBlockSuffix_word funcName)).
  destruct isSync; cbn; lia.
Qed.

(** X23. The header declares a JS variable for exactly those keys that
    are identifiers and not reserved words, in the order the keys are gone
    through, each with the getter it was asked for; a key that is a reserved
    word, or is not an identifier, leaves the header as it is. *)
Theorem loadIntoJsVars_declares (header : string) (keys : list string) (getter : string) :
  loadIntoJsVars header keys getter
  = fold_left (fun h varname => h +:+ varDeclaration getter varname)
      (List.filter declarable keys) header
  /\ (forall k, declarable k = false ->
        loadIntoJsVars header (k :: keys) getter = loadIntoJsVars header keys getter)
  /\ (forall k, In k reservedWords -> declarable k = false)
  /\ (forall k, declarable k = true ->
        loadIntoJsVars header [k] getter
        = header +:+ "var " +:+ k +:+ " = " +:+ getter +:+ "('" +:+ k +:+ "');").
Proof.
  split; [apply loadIntoJsVars_filter|]. split; [|split].
  - intros k Hk. unfold loadIntoJsVars. cbn [fold_left]. by rewrite Hk.
  - intros k Hin. unfold declarable, JS_VARNAME_BLACKLIST.
    assert (Hb : existsb (String.eqb k) reservedWords = true).
    { apply existsb_exists. exists k. split; [done|apply String.eqb_refl]. }
    rewrite Hb. apply andb_false_r.
  - intros k Hk. unfold loadIntoJsVars. cbn [fold_left]. by rewrite Hk.
Qed.

End GeneratedCodeProperties.

Section ImpProperties.

Context {U : Utils}.

Lemma dropHyphens_noHyphen (s : string) : noHyphen (dropHyphens s) = true.
Proof.
  unfold noHyphen. induction s as [|c s IH]; [reflexivity|]. cbn [dropHyphens].
  destruct (isHyphen c) eqn:Hc; [exact IH|]. cbn. by rewrite Hc, IH.
Qed.

Lemma upperAfterHyphen_noHyphen (s : string) :
  noHyphen s = true -> upperAfterHyphen s = s.
Proof.
  unfold noHyphen. induction s as [|c s IH]; [reflexivity|]. cbn.
  intros [Hc Hs]%andb_prop. apply negb_true_iff in Hc. rewrite Hc. by rewrite IH.
Qed.

Lemma dropHyphens_noHyphen_id (s : string) : noHyphen s = true -> dropHyphens s = s.
Proof.
  unfold noHyphen. induction s as [|c s IH]; [reflexivity|]. cbn.
  intros [Hc Hs]%andb_prop. apply negb_true_iff in Hc. rewrite Hc. by rewrite IH.
Qed.

(** X24. The name imp makes up for a package holds no hyphen, and a
    package name without hyphens is taken as it is. *)
Theorem camelCase_no_hyphen (packageName : string) :
  noHyphen (camelCase packageName) = true
  /\ (noHyphen packageName = true -> camelCase packageName = packageName).
Proof.
  split; [apply dropHyphens_noHyphen|].
  intros Hn. unfold camelCase.
  by rewrite (upperAfterHyphen_noHyphen _ Hn), (dropHyphens_noHyphen_id _ Hn).
Qed.

(** X25. imp loads a package once: when a call gave back a truthy
    module, that module is what the persistent variable holds, and every
    later call for the same package and name gives the same module and
    leaves the instance alone, whatever require would do then. *)
Theorem imp_caches (require require' : string -> Res Value) (packageName : string)
    (varName : option string) (r r1 : RunInstance) (module : Value) :
  imp require packageName varName r = (r1, inr module) ->
  truthy module = true ->
  imp require' packageName varName r1 = (r1, inr module)
  /\ getPersistent (match varName with
                    | Some (String c t) => String c t
                    | _ => camelCase packageName
                    end) r1 = module.
Proof.
  unfold imp. set (name := match varName with Some (String c t) => String c t | _ => _ end).
  intros Himp Ht.
  assert (Hm : getPersistent name r1 = module).
  { destruct (truthy (getPersistent name r)) eqn:Hr; cbn [negb] in Himp.
    - by injection Himp as <- <-.
    - destruct (require packageName) as [e|m]; [discriminate|].
      by injection Himp as <- <-. }
  split; [|exact Hm]. by rewrite Hm, Ht.
Qed.

End ImpProperties.

Section StepRunnerProperties.

Context {U : Utils} {K : Constants} {J : JsEngine}.

Lemma appendToLog_env (text : string) (logHere : option LogTarget) (r : RunInstance) :
  global (appendToLog text logHere r) = global r
  /\ persistent (appendToLog text logHere r) = persistent r
  /\ local (appendToLog text logHere r) = local r
  /\ localStack (appendToLog text logHere r) = localStack r
  /\ localsPassedIntoFunc (appendToLog text logHere r) = localsPassedIntoFunc r.
Proof.
  unfold appendToLog. destruct logHere as [[s|b]|]; destruct (isStopped r); by repeat split.
Qed.

Lemma replaceVars_no_reference (depth : nat) (text : string) (step : Step)
    (branch : option Branch.t) (r : RunInstance) :
  VAR text = [] -> replaceVars depth text step branch r = (r, inr text).
Proof. intros H. unfold replaceVars. by rewrite H. Qed.

Lemma assignVars_literals (depth : nat) (vars : list VarBeingSet) (step : Step)
    (branch : Branch.t) (r : RunInstance) :
  Forall (fun v => globalLiteral v = true) vars ->
  exists r',
    assignVars depth vars step branch r = (r', None)
    /\ persistent r' = persistent r /\ local r' = local r
    /\ localStack r' = localStack r
    /\ localsPassedIntoFunc r' = localsPassedIntoFunc r
    /\ (forall name, Forall (fun v => keyApart name (vname v)) vars ->
          getGlobal name r' = getGlobal name r)
    /\ (forall before v after,
          vars = before ++ v :: after ->
          Forall (fun v' => keyApart (vname v) (vname v')) after ->
          getGlobal (vname v) r' = VStr (stripQuotes (vvalue v))).
Proof.
  intros Hall. revert r. induction Hall as [|v vars Hv _ IH]; intros r.
  - exists r. repeat split; try done. intros [|? ?] ? ? ?; discriminate.
  - unfold globalLiteral in Hv. apply andb_prop in Hv as [Hloc Hvar].
    apply negb_true_iff in Hloc. apply Nat.eqb_eq, length_zero_iff_nil in Hvar.
    cbn [assignVars]. rewrite (replaceVars_no_reference _ _ _ _ _ Hvar).
    unfold setVarBeingSet. rewrite Hloc.
    match goal with
    | |- context [assignVars _ _ _ _ (appendToLog ?m ?t ?r0)] =>
        destruct (appendToLog_env m t r0) as (Hg & Hp & Hl & Hs & Hf);
        set (r1 := appendToLog m t r0) in *
    end.
    destruct (IH r1) as (r' & Heq & Hp' & Hl' & Hs' & Hf' & Hother & Hset).
    exists r'. split; [exact Heq|].
    rewrite Hp', Hl', Hs', Hf', Hp, Hl, Hs, Hf.
    do 4 (split; [reflexivity|]).
    assert (Hget1 : forall name, getGlobal name r1
                                 = getGlobal name (setGlobal (vname v)
                                                     (VStr (stripQuotes (vvalue v))) r))
      by (intros name; unfold getGlobal; by rewrite Hg).
    split.
    + intros name Hapart. inversion Hapart as [|? ? [H1 H2] Hrest]; subst.
      rewrite (Hother name Hrest), Hget1.
      unfold getGlobal, setGlobal, prop. cbn.
      rewrite lookup_two_inserts, decide_False; [done|]. by intros [?|?].
    + intros [|v0 before] v' after Heq' Hapart; injection Heq' as -> ->.
      * rewrite (Hother (vname v') Hapart), Hget1. apply getGlobal_setGlobal.
      * by apply Hset with before after.
Qed.

(** X26. A step that only assigns literals to global variables, none of
    them referring to a variable, runs to completion: each variable then
    reads as its literal with the quotes stripped, unless a later
    assignment of the same step writes its key, and the persistent and
    local variables, the stack and the staged parameters are left as they
    were. *)
Theorem executeStep_assignments (depth : nat) (step : Step) (branch : Branch.t)
    (r : RunInstance) :
  isFunctionCall step = false -> hasCodeBlock step = false ->
  Forall (fun v => globalLiteral v = true) (varsBeingSet step) ->
  exists r',
    executeStep depth step branch r = (r', Completed)
    /\ persistent r' = persistent r /\ local r' = local r
    /\ localStack r' = localStack r
    /\ localsPassedIntoFunc r' = localsPassedIntoFunc r
    /\ (forall before v after,
          varsBeingSet step = before ++ v :: after ->
          Forall (fun v' => keyApart (vname v) (vname v')) after ->
          getGlobal (vname v) r' = VStr (stripQuotes (vvalue v))).
Proof.
  intros Hfn Hcb Hall. unfold executeStep. rewrite Hfn, Hcb. cbn [negb andb].
  destruct (assignVars_literals depth (varsBeingSet step) step branch r Hall)
    as (r' & Heq & Hp & Hl & Hs & Hf & _ & Hset).
  destruct (varsBeingSet step) as [|v vars] eqn:Hvars.
  - cbn. exists r. repeat split; try done. intros [|? ?] ? ? ?; discriminate.
  - cbn [length Nat.eqb negb]. rewrite Heq. exists r'. by repeat split.
Qed.

Lemma bindInputs_literal_step (depth : nat) (var : string) (varList : list string)
    (value : string) (inputList : list string) (step : Step) (branch : Branch.t)
    (r : RunInstance) :
  literalInput value = true ->
  bindInputs depth (var :: varList) (value :: inputList) step branch r
  = bindInputs depth varList inputList step branch
      (appendToLog ("Function parameter {{" +:+ stripBrackets var +:+ "}} is "
                    +:+ getLogValue (VStr (inputValue value)))
                   (Some (ToStep (sid step)))
                   (setLocalPassedIn (stripBrackets var) (VStr (inputValue value)) r)).
Proof.
  unfold literalInput, inputValue. cbn [bindInputs].
  destruct (STRING_LITERAL_WHOLE value).
  - intros Hvar%Nat.eqb_eq%length_zero_iff_nil.
    by rewrite (replaceVars_no_reference _ _ _ _ _ Hvar).
  - intros Hw%negb_true_iff. by rewrite Hw.
Qed.

Lemma bindInputs_too_few (depth : nat) (varList inputList : list string) (step : Step)
    (branch : Branch.t) (r : RunInstance) :
  length inputList < length varList ->
  exists r' e, bindInputs depth varList inputList step branch r = (r', Some e)
               /\ (Forall (fun value => literalInput value = true) inputList ->
                   e_name e = "TypeError").
Proof.
  revert varList r.
  induction inputList as [|value inputList IH]; intros [|var varList] r Hlen;
    cbn in Hlen; try lia.
  - eexists _, _. split; reflexivity.
  - destruct (literalInput value) eqn:Hv.
    + rewrite (bindInputs_literal_step _ _ _ _ _ _ _ _ Hv).
      match goal with
      | |- context [bindInputs _ _ inputList _ _ ?r0] =>
          destruct (IH varList r0) as (r' & e & Heq & He); [lia|]
      end.
      exists r', e. split; [exact Heq|]. intros Hall. apply He. by inversion Hall.
    + cbn [bindInputs].
      destruct (if STRING_LITERAL_WHOLE value then _ else _) as [r1 [e|v]].
      * exists r1, e. split; [reflexivity|]. intros Hall. inversion Hall. congruence.
      * match goal with
        | |- context [bindInputs _ _ inputList _ _ ?r0] =>
            destruct (IH varList r0) as (r' & e & Heq & He); [lia|]
        end.
        exists r', e. split; [exact Heq|]. intros Hall. inversion Hall. congruence.
Qed.

Lemma bindInputs_enough (depth : nat) (varList inputList : list string) (step : Step)
    (branch : Branch.t) (r : RunInstance) :
  Forall (fun value => literalInput value = true) inputList ->
  length varList <= length inputList ->
  exists r',
    bindInputs depth varList inputList step branch r = (r', None)
    /\ bindInputs depth varList (take (length varList) inputList) step branch r = (r', None)
    /\ global r' = global r /\ local r' = local r /\ localStack r' = localStack r
    /\ (forall k, Forall (fun var => k <> canonicalize (stripBrackets var)
                                     /\ k <> keepCaseCanonicalize (stripBrackets var))
                    varList ->
          localsPassedIntoFunc r' !! k = localsPassedIntoFunc r !! k)
    /\ (forall i var value,
          varList !! i = Some var -> inputList !! i = Some value ->
          Forall (fun var' => keyApart (stripBrackets var) (stripBrackets var'))
                 (drop (S i) varList) ->
          localsPassedIntoFunc r' !! canonicalize (stripBrackets var)
          = Some (VStr (inputValue value))).
Proof.
  intros Hplain. revert varList r.
  induction Hplain as [|value inputList Hv _ IH]; intros [|var varList] r Hlen;
    cbn in Hlen; try lia.
  - exists r. repeat split; try done; by intros [|?] ? ? ?.
  - exists r. repeat split; try done; by intros [|?] ? ? ?.
  - cbn [length take]. rewrite !(bindInputs_literal_step _ _ _ _ _ _ _ _ Hv).
    match goal with
    | |- context [bindInputs _ _ inputList _ _ (appendToLog ?m ?t ?r0)] =>
        destruct (appendToLog_env m t r0) as (Hg & _ & Hl & Hs & Hf);
        set (r1 := appendToLog m t r0) in *
    end.
    destruct (IH varList r1) as (r' & Heq & Htake & Hg' & Hl' & Hs' & Hother & Hstaged);
      [lia|].
    exists r'. split; [exact Heq|]. split; [exact Htake|].
    rewrite Hg', Hl', Hs', Hg, Hl, Hs.
    do 3 (split; [reflexivity|]).
    assert (Hlook : forall k,
               localsPassedIntoFunc r1 !! k
               = if decide (k = canonicalize (stripBrackets var)
                            \/ k = keepCaseCanonicalize (stripBrackets var))
                 then Some (VStr (inputValue value)) else localsPassedIntoFunc r !! k).
    { intros k. rewrite Hf. unfold setLocalPassedIn. cbn. apply lookup_two_inserts. }
    split.
    + intros k Hk. inversion Hk as [|? ? [H1 H2] Hrest]; subst.
      rewrite (Hother k Hrest), Hlook, decide_False; [done|]. by intros [?|?].
    + intros [|i] var' value' Hvar Hval Hapart; cbn in Hvar, Hval.
      * injection Hvar as <-. injection Hval as <-. cbn [drop] in Hapart.
        rewrite Hother.
        -- rewrite Hlook, decide_True; auto.
        -- eapply Forall_impl; [exact Hapart|]. by intros x [? ?].
      * by apply Hstaged with i.
Qed.

(** X27. Passing inputs to a function call whose declaration has
    parameters, in the try block of runStep. When the step's text holds no
    input at all, nothing is bound and nothing is thrown: a call without a
    code block completes with the instance as it was. When it holds
    inputs, the first one being skipped for a step that also sets a
    variable, and they are fewer than the parameters, the try block ends in
    an error outside the code block: a TypeError when the inputs are string
    literals without variable references or are passed as they are. With at
    least as many such inputs as parameters, a call without a code block
    runs to completion, the surplus inputs are ignored, each parameter reads
    as the input at its place, quotes stripped for a string literal (unless
    a later parameter writes its key), and the global and local variables
    and the stack are not touched. *)
Theorem executeStep_input_arity (depth : nat) (step : Step) (branch : Branch.t)
    (r : RunInstance) :
  isFunctionCall step = true ->
  VAR (functionDeclarationText step) <> [] ->
  let varList := VAR (functionDeclarationText step) in
  let found := FUNCTION_INPUT (text step) in
  let inputList := match varsBeingSet step with
                   | _ :: _ => tl found
                   | [] => found
                   end in
  (found = [] -> hasCodeBlock step = false ->
   executeStep depth step branch r = (r, Completed))
  /\ (found <> [] -> length inputList < length varList ->
      exists r' e,
        executeStep depth step branch r = (r', Threw e false)
        /\ (Forall (fun value => literalInput value = true) inputList ->
            e_name e = "TypeError"))
  /\ (found <> [] -> hasCodeBlock step = false ->
      Forall (fun value => literalInput value = true) inputList ->
      length varList <= length inputList ->
      exists r',
        executeStep depth step branch r = (r', Completed)
        /\ bindInputs depth varList (take (length varList) inputList) step branch r
           = (r', None)
        /\ global r' = global r /\ local r' = local r /\ localStack r' = localStack r
        /\ (forall i var value,
              varList !! i = Some var -> inputList !! i = Some value ->
              Forall (fun var' => keyApart (stripBrackets var) (stripBrackets var'))
                     (drop (S i) varList) ->
              getLocal (stripBrackets var) r' = inr (VStr (inputValue value)))).
Proof.
  intros Hcall Hvars varList found inputList.
  assert (Hbind : found <> [] ->
            forall r' thrown,
              bindInputs depth varList inputList step branch r = (r', thrown) ->
              match thrown with
              | Some e => executeStep depth step branch r = (r', Threw e false)
              | None => hasCodeBlock step = false ->
                        executeStep depth step branch r = (r', Completed)
              end).
  { intros Hfound r' thrown Hb. unfold executeStep. rewrite Hcall.
    fold varList. fold found. destruct varList as [|var vars] eqn:Hv; [done|].
    destruct found as [|input inputs] eqn:Hi; [done|].
    fold inputList. rewrite Hb.
    destruct thrown as [e|]; [reflexivity|].
    intros Hcode. cbn [negb andb]. by rewrite Hcode. }
  split; [|split].
  - intros Hnone Hcode. unfold executeStep. rewrite Hcall. fold varList. fold found.
    rewrite Hnone, Hcode. by destruct varList.
  - intros Hfound Hlen.
    destruct (bindInputs_too_few depth varList inputList step branch r Hlen)
      as (r' & e & Heq & He).
    exists r', e. split; [|exact He]. exact (Hbind Hfound r' (Some e) Heq).
  - intros Hfound Hcode Hplain Hlen.
    destruct (bindInputs_enough depth varList inputList step branch r Hplain Hlen)
      as (r' & Heq & Htake & Hg & Hl & Hs & _ & Hstaged).
    exists r'. split; [exact (Hbind Hfound r' None Heq Hcode)|].
    repeat split; try done.
    intros i var value Hvar Hval Hapart. unfold getLocal.
    by rewrite (Hstaged i var value Hvar Hval Hapart).
Qed.

Lemma runStep_code_block (depth : nat) (step : Step) (branch : Branch.t)
    (overrideDebug : bool) (r : RunInstance) :
  isBeforeDebug step && negb overrideDebug = false ->
  Branch.beforeEveryStep branch = None ->
  isFunctionCall step = false -> hasCodeBlock step = true -> varsBeingSet step = [] ->
  runStep depth step branch overrideDebug r
  = match evalCodeBlock (codeBlock step) (text step) (getLineNumberOffset step)
            (Some (ToStep (sid step))) false (beforeCodeBlock step branch r) with
    | (r1, inl e) =>
        finishStep step branch overrideDebug
          (markResult (if negb (isStopped r1) then Some (fillErrorFromStep e step true)
                       else None) step branch r1)
    | (r1, inr _) =>
        if isStopped r1 then r1
        else finishStep step branch overrideDebug (markResult None step branch r1)
    end.
Proof.
  intros Hgate Hhooks Hfn Hcb Hvars.
  unfold runStep. rewrite Hgate, Hhooks.
  rewrite stepState_updStep_eq. cbn [resetResult isFailed negb].
  fold (beforeCodeBlock step branch r).
  unfold executeStep. rewrite Hfn, Hcb, Hvars. cbn [negb andb].
  destruct (evalCodeBlock _ _ _ _ _ _) as [r1 [e|v]]; [reflexivity|].
  by destruct (isStopped r1).
Qed.

(** X28. A stop while a step's code block runs (no Before Every Step
    hooks, the step a plain code block step): if the code block returns,
    runStep returns at once with the instance as the code block left it, the
    step not marked; if the code block throws, the error is dropped and the
    step is handed to tree.markStep as passed, with finishBranchNow
    false. *)
Theorem runStep_stopped_in_code_block (depth : nat) (step : Step) (branch : Branch.t)
    (overrideDebug : bool) (r r1 : RunInstance) (result : Res Value) :
  isBeforeDebug step && negb overrideDebug = false ->
  Branch.beforeEveryStep branch = None ->
  isFunctionCall step = false -> hasCodeBlock step = true -> varsBeingSet step = [] ->
  evalCodeBlock (codeBlock step) (text step) (getLineNumberOffset step)
    (Some (ToStep (sid step))) false (beforeCodeBlock step branch r) = (r1, result) ->
  isStopped r1 = true ->
  match result with
  | inr _ => runStep depth step branch overrideDebug r = r1
  | inl _ =>
      runStep depth step branch overrideDebug r
      = finishStep step branch overrideDebug (markResult None step branch r1)
      /\ treeCalls (markResult None step branch r1)
         = treeCalls r1 ++ [MarkStep (sid step) (Some (Branch.bid branch)) true
                              (negb (isExpectedFail step)) (markedError None step)
                              (Some false) (Some true)]
  end.
Proof.
  intros Hgate Hhooks Hfn Hcb Hvars Heval Hstop.
  rewrite (runStep_code_block depth step branch overrideDebug r Hgate Hhooks Hfn Hcb Hvars).
  rewrite Heval. destruct result as [e|v]; rewrite Hstop; [|reflexivity].
  cbn [negb]. split; [reflexivity|].
  rewrite markResult_call. cbn [isNone negb andb]. by destruct (isExpectedFail step).
Qed.

End StepRunnerProperties.

(** * The properties at work on concrete inputs *)

Lemma fillErrorFromStep_first_frame_witness :
  isPackaged doIt = false
  /\ codeBlockFrames (e_stack nestedError) = [innerFrame; outerFrame]
  /\ exists d pre rest,
       isCodeBlockFrame innerFrame d
       /\ e_stack nestedError = pre +:+ innerFrame +:+ rest
       /\ (forall a b, pre = a +:+ b -> b <> EmptyString ->
             codeBlockFrameHere (b +:+ innerFrame +:+ rest) = None)
       /\ [outerFrame] = codeBlockFrames rest
       /\ e_lineNumber (fillErrorFromStep nestedError doIt true) = Some (parseInt d).
Proof.
  split; [reflexivity|]. split; [vm_compute; reflexivity|].
  apply (fillErrorFromStep_first_frame nestedError doIt innerFrame [outerFrame]);
    vm_compute; reflexivity.
Defined.

(** C1, as the spec has it, fails: with two code block frames on the
    stack the line number written is that of the first frame (12), not
    that of the last (30). *)
Lemma fillErrorFromStep_last_frame_counterexample :
  codeBlockFrames (e_stack nestedError) = [innerFrame; outerFrame]
  /\ frameLine innerFrame = Some 12%N
  /\ frameLine outerFrame = Some 30%N
  /\ e_lineNumber (fillErrorFromStep nestedError doIt true) = Some 12%N
  /\ e_lineNumber (fillErrorFromStep nestedError doIt true)
     <> match last (codeBlockFrames (e_stack nestedError)) with
        | Some m => frameLine m
        | None => None
        end.
Proof.
  repeat split; try (vm_compute; reflexivity).
  vm_compute. discriminate.
Qed.





Lemma scopeTransition_depth_witness :
  branchIndents shallowStep < branchIndents deepStep
  /\ length (localStack twoFrames) = 2%nat
  /\ length (localStack
               (scopeTransition (prevStepOf shallowStep (branchOf 0 [deepStep; shallowStep]))
                  shallowStep twoFrames)) = 0%nat.
Proof.
  split; [cbn; lia|]. split; [reflexivity|].
  assert (Hfresh : Forall (fun s => sid s <> sid shallowStep) ([] ++ [deepStep]))
    by (repeat constructor; cbn; lia).
  destruct (scopeTransition_depth deepStep shallowStep
              (branchOf 0 [deepStep; shallowStep]) [] [] twoFrames eq_refl Hfresh)
    as (_ & _ & Hless & _).
  destruct Hless as [_ Hlen]; [cbn; lia|]. exact Hlen.
Defined.

Lemma findVarValue_local_scope_exit_witness :
  branchIndents setsYOutside < branchIndents readsY
  /\ findVarValue (U := sampleUtils) (K := sampleConstants) (J := sampleEngine)
       5 "y" true readsY (Some (branchOf 0 [readsY; setsYOutside; setsYLater]))
       emptyInstance
     = (emptyInstance, inl (VarNotSet "y" true)).
Proof.
  split; [cbn; lia|].
  refine (proj2 (proj2 (findVarValue_local_scope_exit
                          (U := sampleUtils) (K := sampleConstants) (J := sampleEngine)
                          5 "y" readsY (branchOf 0 [readsY; setsYOutside; setsYLater])
                          emptyInstance VUndefined 0 [readsY] [setsYLater] setsYOutside
                          eq_refl eq_refl eq_refl eq_refl _)) _).
  - cbn; lia.
  - repeat constructor.
Defined.

Lemma pushLocalStack_popLocalStack_frames_witness :
  localStack oneSaved = [] ++ [savedFrame]
  /\ local (popLocalStack oneSaved) = savedFrame
  /\ localStack (popLocalStack oneSaved) = [].
Proof.
  split; [reflexivity|].
  destruct (proj1 (proj2 (pushLocalStack_popLocalStack_frames oneSaved))
              [] savedFrame eq_refl)
    as (Hlocal & Hstack & _).
  split; [exact Hlocal|exact Hstack].
Defined.



Lemma runHookStep_first_error_wins_witness :
  Branch.error (branchState failedInstance 0) = Some firstError
  /\ Branch.isFailed
       (branchState (fst (runHookStep (J := sampleEngine) throwingHook None
                            (Some (branchOf 0 [])) false failedInstance)) 0) = true
  /\ Branch.error
       (branchState (fst (runHookStep (J := sampleEngine) throwingHook None
                            (Some (branchOf 0 [])) false failedInstance)) 0)
     = Some firstError.
Proof.
  split; [reflexivity|].
  destruct (runHookStep_first_error_wins (J := sampleEngine) throwingHook None
              (Some (branchOf 0 [])) false failedInstance failedInstance boom eq_refl)
    as (_ & Hbranch & _).
  destruct (Hbranch (branchOf 0 []) eq_refl eq_refl) as (Hfailed & _ & Hkeep & _).
  split; [exact Hfailed|]. exact (Hkeep firstError eq_refl).
Defined.

Lemma appendToLog_noop_after_stop_witness :
  isStopped (stop atBranch) = true
  /\ appendToLog "late message" (Some (ToStep 1)) (stop atBranch) = stop atBranch.
Proof.
  split; [reflexivity|].
  exact (proj1 (proj2 (appendToLog_noop_after_stop (stop atBranch))) eq_refl
           "late message" (Some (ToStep 1))).
Defined.

Lemma setLocal_then_getLocal_witness :
  getLocal (U := sampleUtils) " first   name "
    (set_local (Some (<["First Name" := VStr "Ada"]> (<["first name" := VStr "Ada"]> ∅)))
       emptyInstance)
  = inr (VStr "Ada").
Proof.
  apply (setLocal_then_getLocal (U := sampleUtils) "First Name" " first   name "
           (VStr "Ada") emptyInstance); reflexivity.
Defined.

Lemma local_access_after_unbalanced_pop_witness :
  (exists e, setLocal (U := sampleUtils) "x" (VStr "1") (popLocalStack emptyInstance) = inl e
             /\ e_name e = "TypeError")
  /\ (exists e, getLocal (U := sampleUtils) "x" (popLocalStack emptyInstance) = inl e
                /\ e_name e = "TypeError").
Proof.
  destruct (local_access_after_unbalanced_pop (U := sampleUtils) emptyInstance eq_refl)
    as [Hset Hget].
  split; [apply Hset|apply Hget; reflexivity].
Defined.

Lemma codeBlockFrame_recognised_witness :
  exists m ms d,
    codeBlockFrames (e_stack smallError) = m :: ms
    /\ isCodeBlockFrame m d
    /\ e_lineNumber (fillErrorFromStep smallError doIt true) = Some (parseInt d).
Proof.
  apply (codeBlockFrame_recognised smallError doIt smallStackStart
           "_for_Open (eval at evalCodeBlock), " "5" ":3)");
    try reflexivity; discriminate.
Defined.

Lemma findVarValue_forward_lookup_witness :
  findVarValue (U := textUtils) (K := braceConstants) (J := textEngine)
    1 "y" false readsYGlobal (Some (branchOf 0 [readsYGlobal; setsYGlobal])) emptyInstance
  = (appendToLog (setLaterMessage "y" false setsYGlobal) (Some (ToStep 1)) emptyInstance,
     inr (VStr "world")).
Proof.
  apply (findVarValue_forward_lookup (U := textUtils) (K := braceConstants)
           (J := textEngine) 0 "y" false readsYGlobal
           (branchOf 0 [readsYGlobal; setsYGlobal]) emptyInstance VUndefined 0
           [readsYGlobal] [] setsYGlobal (mkVar "y" "'world'" false));
    try reflexivity.
  - repeat constructor.
  - discriminate.
Defined.

Lemma findVarValue_step_not_in_branch_witness :
  exists e,
    findVarValue (U := sampleUtils) (K := sampleConstants) (J := sampleEngine)
      3 "y" false doIt (Some (branchOf 0 [readsX])) emptyInstance
    = (emptyInstance, inl e)
    /\ e_name e = "TypeError".
Proof.
  apply (findVarValue_step_not_in_branch (U := sampleUtils) (K := sampleConstants)
           (J := sampleEngine) 3 "y" false doIt (branchOf 0 [readsX]) emptyInstance
           VUndefined); try reflexivity.
  repeat constructor. cbn. lia.
Defined.

Lemma replaceVars_assigned_witness :
  replaceVars (U := textUtils) (K := braceConstants) (J := textEngine)
    2 "say {x} to {x}" readsX None
    (setGlobal (U := textUtils) "x" (VStr "hi") emptyInstance)
  = (setGlobal (U := textUtils) "x" (VStr "hi") emptyInstance, inr "say hi to hi").
Proof.
  apply (replaceVars_assigned (U := textUtils) (K := braceConstants) (J := textEngine)
           2 "say {x} to {x}" readsX None
           (setGlobal (U := textUtils) "x" (VStr "hi") emptyInstance)
           [VStr "hi"; VStr "hi"]).
  repeat constructor.
Defined.

Lemma replaceVars_type_error_witness :
  replaceVars (U := textUtils) (K := braceConstants) (J := textEngine)
    2 "open {page}" readsX None
    (setGlobal (U := textUtils) "page" (VObj 1) emptyInstance)
  = (setGlobal (U := textUtils) "page" (VObj 1) emptyInstance,
     inl (VarTypeError "{page}")).
Proof.
  apply (replaceVars_type_error (U := textUtils) (K := braceConstants) (J := textEngine)
           2 "open {page}" readsX None
           (setGlobal (U := textUtils) "page" (VObj 1) emptyInstance)
           [] [] [] "{page}" (VObj 1)); try reflexivity.
  constructor.
Defined.

Lemma replaceVars_infinite_loop_witness :
  replaceVars (U := textUtils) (K := braceConstants) (J := textEngine)
    50 "{a}" setsAToItself (Some (branchOf 0 [setsAToItself])) emptyInstance
  = (emptyInstance, inl InfiniteVarLoop).
Proof.
  apply (proj1 (replaceVars_infinite_loop (U := textUtils) (K := braceConstants)
                  (J := textEngine) "a" false setsAToItself (branchOf 0 [setsAToItself])
                  emptyInstance VUndefined 0 setsAToItself (mkVar "a" "'{a}'" false)
                  "{a}" [] eq_refl eq_refl eq_refl eq_refl eq_refl eq_refl eq_refl eq_refl)
           50%nat "{a}" []).
  reflexivity.
Defined.

Lemma appendToLog_accumulates_witness :
  isStopped emptyInstance = false
  /\ default [] (Branch.log (branchState
                               (appendAll ["one"; "two"] (Some (ToBranch 0)) emptyInstance) 0))
     = [] ++ [LogText "one"; LogText "two"].
Proof.
  split; [reflexivity|].
  exact (proj1 (appendToLog_accumulates ["one"; "two"] 0 emptyInstance eq_refl)).
Defined.

Lemma imp_caches_witness :
  imp (U := sampleUtils) (fun _ => inl boom) "one-two-three" None
    (setPersistent (U := sampleUtils) "oneTwoThree" (VObj 1) emptyInstance)
  = (setPersistent (U := sampleUtils) "oneTwoThree" (VObj 1) emptyInstance, inr (VObj 1)).
Proof.
  apply (proj1 (imp_caches (U := sampleUtils) (fun _ => inr (VObj 1)) (fun _ => inl boom)
                  "one-two-three" None emptyInstance
                  (setPersistent (U := sampleUtils) "oneTwoThree" (VObj 1) emptyInstance)
                  (VObj 1) eq_refl eq_refl)).
Defined.

Lemma executeStep_assignments_witness :
  exists r',
    executeStep (U := textUtils) (K := braceConstants) (J := textEngine)
      1 setsTwo (branchOf 0 [setsTwo]) emptyInstance = (r', Completed)
    /\ getGlobal (U := textUtils) "x" r' = VStr "hi"
    /\ getGlobal (U := textUtils) "y" r' = VStr "there".
Proof.
  destruct (executeStep_assignments (U := textUtils) (K := braceConstants)
              (J := textEngine) 1 setsTwo (branchOf 0 [setsTwo]) emptyInstance
              eq_refl eq_refl)
    as (r' & Heq & _ & _ & _ & _ & Hset).
  { repeat constructor. }
  exists r'. split; [exact Heq|]. split.
  - apply (Hset [] (mkVar "x" "'hi'" false) [mkVar "y" "'there'" false] eq_refl).
    repeat constructor; discriminate.
  - apply (Hset [mkVar "x" "'hi'" false] (mkVar "y" "'there'" false) [] eq_refl).
    constructor.
Defined.

Lemma executeStep_input_arity_witness :
  (exists r' e,
      executeStep (U := textUtils) (K := inputConstants) (J := sampleEngine) 1
        (callStep 1 "Greet 'Ada'" "Greet {{name}} {{age}}")
        (branchOf 0 [callStep 1 "Greet 'Ada'" "Greet {{name}} {{age}}"]) emptyInstance
      = (r', Threw e false)
      /\ e_name e = "TypeError")
  /\ (exists r',
        executeStep (U := textUtils) (K := inputConstants) (J := sampleEngine) 1
          (callStep 1 "Greet 'Ada' '36'" "Greet {{name}}")
          (branchOf 0 [callStep 1 "Greet 'Ada' '36'" "Greet {{name}}"]) emptyInstance
        = (r', Completed)
        /\ getLocal (U := textUtils) "name" r' = inr (VStr "Ada"))
  /\ executeStep (U := textUtils) (K := inputConstants) (J := sampleEngine) 1
       (callStep 1 "Greet" "Greet {{name}}")
       (branchOf 0 [callStep 1 "Greet" "Greet {{name}}"]) emptyInstance
     = (emptyInstance, Completed).
Proof.
  split; [|split].
  - destruct (proj1 (proj2 (executeStep_input_arity (U := textUtils) (K := inputConstants)
                              (J := sampleEngine) 1
                              (callStep 1 "Greet 'Ada'" "Greet {{name}} {{age}}")
                              (branchOf 0 [callStep 1 "Greet 'Ada'" "Greet {{name}} {{age}}"])
                              emptyInstance eq_refl ltac:(discriminate))))
      as (r' & e & Heq & He); [discriminate|cbn; lia|].
    exists r', e. split; [exact Heq|]. apply He. repeat constructor.
  - destruct (proj2 (proj2 (executeStep_input_arity (U := textUtils) (K := inputConstants)
                              (J := sampleEngine) 1
                              (callStep 1 "Greet 'Ada' '36'" "Greet {{name}}")
                              (branchOf 0 [callStep 1 "Greet 'Ada' '36'" "Greet {{name}}"])
                              emptyInstance eq_refl ltac:(discriminate))))
      as (r' & Heq & _ & _ & _ & _ & Hstaged);
      [discriminate|reflexivity|repeat constructor|cbn; lia|].
    exists r'. split; [exact Heq|].
    apply (Hstaged 0%nat "{{name}}" "'Ada'" eq_refl eq_refl). constructor.
  - apply (proj1 (executeStep_input_arity (U := textUtils) (K := inputConstants)
                    (J := sampleEngine) 1 (callStep 1 "Greet" "Greet {{name}}")
                    (branchOf 0 [callStep 1 "Greet" "Greet {{name}}"])
                    emptyInstance eq_refl ltac:(discriminate))); reflexivity.
Defined.

Lemma runStep_stopped_in_code_block_witness :
  runStep (U := sampleUtils) (K := sampleConstants) (J := stoppingEngine)
    1 (codeStep 1 3 "Close the page" "stop") (branchOf 0 [codeStep 1 3 "Close the page" "stop"])
    false emptyInstance
  = set_isStopped true
      (beforeCodeBlock (codeStep 1 3 "Close the page" "stop")
         (branchOf 0 [codeStep 1 3 "Close the page" "stop"]) emptyInstance).
Proof.
  apply (runStep_stopped_in_code_block (U := sampleUtils) (K := sampleConstants)
           (J := stoppingEngine) 1 (codeStep 1 3 "Close the page" "stop")
           (branchOf 0 [codeStep 1 3 "Close the page" "stop"]) false emptyInstance
           _ (inr VUndefined)); reflexivity.
Defined.
